(** * metasearch / omniserp: the response normaliser and the engine registry

    A shallow embedding of the Go package's [Normalizer] (the functions
    [NormalizeSearch], [NormalizeNews], [NormalizeImages] and their
    per-engine helpers), of [getString], and of [Registry], followed by the
    properties the specification states about them.

    Conventions of the embedding:
    - a Go [string] is a byte sequence: Rocq's [string];
    - [interface{}] values as produced by [encoding/json] are the inductive
      [any]; [map[string]any] is a [gmap string any], [[]any] a [list any];
    - Go [int] and [int64] are [Z] (the only arithmetic is [i + 1] on a slice
      index, which is below the maximal [int]);
    - a [*SearchResult] is a location in a store of [SearchResult] values, or
      nil; the store is passed in and handed back by every exported
      function;
    - a [*AnswerBox] or [*KnowledgeGraph] freshly allocated by the normaliser
      is an [option];
    - a nil slice and an empty slice are both the empty list;
    - the out-parameter [normalized *NormalizedSearchResult] of the helpers
      is passed as a value and returned. *)

From Stdlib Require Import ZArith Ascii String Floats.SpecFloat.
From stdpp Require Import gmap strings list fin_maps sorting pretty.

Set Warnings "-register-all,-clear-no-such-hyp".
Set Default Proof Using "Type".

Local Open Scope Z_scope.
Local Open Scope string_scope.
Local Open Scope list_scope.

(** ** Untyped JSON documents *)

(** The dynamic types [encoding/json] stores in an [interface{}]. *)
Inductive any : Type :=
  | ANil
  | ABool (b : bool)
  | AFloat64 (f : spec_float)
  | AString (s : string)
  | ASlice (xs : list any)
  | AMap (m : gmap string any).

(** [v.([]any)], [v.(map[string]any)] and [v.(string)] applied to the result
    of a map index expression: a missing key gives the nil interface, on
    which every assertion fails. *)
Definition assertSlice (v : option any) : option (list any) :=
  match v with
  | Some (ASlice xs) => Some xs
  | _ => None
  end.

Definition assertMap (v : option any) : option (gmap string any) :=
  match v with
  | Some (AMap m) => Some m
  | _ => None
  end.

Definition assertString (v : option any) : option string :=
  match v with
  | Some (AString s) => Some s
  | _ => None
  end.

(** What [fmt]'s [%T] prints for a value. *)
Definition typeName (v : any) : string :=
  match v with
  | ANil => "<nil>"
  | ABool _ => "bool"
  | AFloat64 _ => "float64"
  | AString _ => "string"
  | ASlice _ => "[]interface {}"
  | AMap _ => "map[string]interface {}"
  end.

(** ** The result types *)

Module SearchResult.
Record t : Type := mk {
  Data : any;
  Raw : string
}.
End SearchResult.

Module OrganicResult.
Record t : Type := mk {
  Position : Z;
  Title : string;
  Link : string;
  URL : string;
  Snippet : string;
  Domain : string;
  Date : string
}.
End OrganicResult.

Module AnswerBox.
Record t : Type := mk {
  Type_ : string;
  Title : string;
  Answer : string;
  Snippet : string;
  Source : string;
  Link : string
}.
End AnswerBox.

Module KnowledgeGraph.
Record t : Type := mk {
  Title : string;
  Type_ : string;
  Description : string;
  Source : string;
  ImageURL : string;
  Attributes : gmap string string
}.
End KnowledgeGraph.

Module RelatedSearch.
Record t : Type := mk {
  Query : string;
  Link : string
}.
End RelatedSearch.

Module PeopleAlsoAsk.
Record t : Type := mk {
  Question : string;
  Answer : string;
  Title : string;
  Link : string;
  Source : string
}.
End PeopleAlsoAsk.

Module NewsResult.
Record t : Type := mk {
  Position : Z;
  Title : string;
  Link : string;
  Source : string;
  Date : string;
  Snippet : string;
  ImageURL : string;
  Thumbnail : string
}.

Definition set_Thumbnail (v : string) (r : t) : t :=
  mk (Position r) (Title r) (Link r) (Source r) (Date r) (Snippet r)
     (ImageURL r) v.
End NewsResult.

Module ImageResult.
Record t : Type := mk {
  Position : Z;
  Title : string;
  ImageURL : string;
  Thumbnail : string;
  Source : string;
  SourceURL : string;
  Width : Z;
  Height : Z;
  IsProduct : bool
}.
End ImageResult.

Module VideoResult.
Record t : Type := mk {
  Position : Z;
  Title : string;
  Link : string;
  Channel : string;
  Platform : string;
  Duration : string;
  Date : string;
  Views : string;
  Thumbnail : string;
  Snippet : string
}.
End VideoResult.

Module PlaceResult.
Record t : Type := mk {
  Position : Z;
  Title : string;
  PlaceID : string;
  DataID : string;
  Address : string;
  Phone : string;
  Website : string;
  Rating : spec_float;
  Reviews : Z;
  Type_ : string;
  Hours : string;
  Price : string;
  Latitude : spec_float;
  Longitude : spec_float;
  Thumbnail : string;
  Attributes : gmap string string
}.
End PlaceResult.

Module ShoppingResult.
Record t : Type := mk {
  Position : Z;
  Title : string;
  Link : string;
  ProductID : string;
  Price : string;
  OriginalPrice : string;
  Currency : string;
  Rating : spec_float;
  Reviews : Z;
  Source : string;
  Delivery : string;
  Thumbnail : string;
  Images : list string;
  InStock : bool
}.
End ShoppingResult.

Module ScholarResult.
Record t : Type := mk {
  Position : Z;
  Title : string;
  Link : string;
  PublicationURL : string;
  Authors : list string;
  Year : string;
  Source : string;
  Citations : Z;
  Snippet : string;
  PDF : string
}.
End ScholarResult.

Module SearchMetadata.
Record t : Type := mk {
  Engine : string;
  Query : string;
  Location : string;
  Language : string;
  Country : string;
  TotalResults : Z;
  TimeTaken : spec_float
}.

Definition set_Engine (v : string) (m : t) : t :=
  mk v (Query m) (Location m) (Language m) (Country m) (TotalResults m)
     (TimeTaken m).
Definition set_Query (v : string) (m : t) : t :=
  mk (Engine m) v (Location m) (Language m) (Country m) (TotalResults m)
     (TimeTaken m).
Definition set_Location (v : string) (m : t) : t :=
  mk (Engine m) (Query m) v (Language m) (Country m) (TotalResults m)
     (TimeTaken m).
Definition set_Language (v : string) (m : t) : t :=
  mk (Engine m) (Query m) (Location m) v (Country m) (TotalResults m)
     (TimeTaken m).
Definition set_Country (v : string) (m : t) : t :=
  mk (Engine m) (Query m) (Location m) (Language m) v (TotalResults m)
     (TimeTaken m).
End SearchMetadata.

(** Locations of [SearchResult] values; a [*SearchResult] is a location or
    nil. *)
Abbreviation loc := positive (only parsing).

(** The store of [SearchResult] values the pointers refer to. *)
Abbreviation Store := (gmap positive SearchResult.t) (only parsing).

Module NormalizedSearchResult.
Record t : Type := mk {
  OrganicResults : list OrganicResult.t;
  AnswerBox : option AnswerBox.t;
  KnowledgeGraph : option KnowledgeGraph.t;
  RelatedSearches : list RelatedSearch.t;
  PeopleAlsoAsk : list PeopleAlsoAsk.t;
  NewsResults : list NewsResult.t;
  ImageResults : list ImageResult.t;
  VideoResults : list VideoResult.t;
  PlaceResults : list PlaceResult.t;
  ShoppingResults : list ShoppingResult.t;
  ScholarResults : list ScholarResult.t;
  Suggestions : list string;
  SearchMetadata : SearchMetadata.t;
  Raw : option loc
}.

Definition set_OrganicResults (v : list OrganicResult.t) (n : t) : t :=
  mk v (AnswerBox n) (KnowledgeGraph n) (RelatedSearches n) (PeopleAlsoAsk n)
     (NewsResults n) (ImageResults n) (VideoResults n) (PlaceResults n)
     (ShoppingResults n) (ScholarResults n) (Suggestions n)
     (SearchMetadata n) (Raw n).
Definition set_AnswerBox (v : option AnswerBox.t) (n : t) : t :=
  mk (OrganicResults n) v (KnowledgeGraph n) (RelatedSearches n)
     (PeopleAlsoAsk n) (NewsResults n) (ImageResults n) (VideoResults n)
     (PlaceResults n) (ShoppingResults n) (ScholarResults n) (Suggestions n)
     (SearchMetadata n) (Raw n).
Definition set_KnowledgeGraph (v : option KnowledgeGraph.t) (n : t) : t :=
  mk (OrganicResults n) (AnswerBox n) v (RelatedSearches n) (PeopleAlsoAsk n)
     (NewsResults n) (ImageResults n) (VideoResults n) (PlaceResults n)
     (ShoppingResults n) (ScholarResults n) (Suggestions n)
     (SearchMetadata n) (Raw n).
Definition set_RelatedSearches (v : list RelatedSearch.t) (n : t) : t :=
  mk (OrganicResults n) (AnswerBox n) (KnowledgeGraph n) v (PeopleAlsoAsk n)
     (NewsResults n) (ImageResults n) (VideoResults n) (PlaceResults n)
     (ShoppingResults n) (ScholarResults n) (Suggestions n)
     (SearchMetadata n) (Raw n).
Definition set_PeopleAlsoAsk (v : list PeopleAlsoAsk.t) (n : t) : t :=
  mk (OrganicResults n) (AnswerBox n) (KnowledgeGraph n) (RelatedSearches n)
     v (NewsResults n) (ImageResults n) (VideoResults n) (PlaceResults n)
     (ShoppingResults n) (ScholarResults n) (Suggestions n)
     (SearchMetadata n) (Raw n).
Definition set_NewsResults (v : list NewsResult.t) (n : t) : t :=
  mk (OrganicResults n) (AnswerBox n) (KnowledgeGraph n) (RelatedSearches n)
     (PeopleAlsoAsk n) v (ImageResults n) (VideoResults n) (PlaceResults n)
     (ShoppingResults n) (ScholarResults n) (Suggestions n)
     (SearchMetadata n) (Raw n).
Definition set_ImageResults (v : list ImageResult.t) (n : t) : t :=
  mk (OrganicResults n) (AnswerBox n) (KnowledgeGraph n) (RelatedSearches n)
     (PeopleAlsoAsk n) (NewsResults n) v (VideoResults n) (PlaceResults n)
     (ShoppingResults n) (ScholarResults n) (Suggestions n)
     (SearchMetadata n) (Raw n).
Definition set_SearchMetadata (v : SearchMetadata.t) (n : t) : t :=
  mk (OrganicResults n) (AnswerBox n) (KnowledgeGraph n) (RelatedSearches n)
     (PeopleAlsoAsk n) (NewsResults n) (ImageResults n) (VideoResults n)
     (PlaceResults n) (ShoppingResults n) (ScholarResults n) (Suggestions n)
     v (Raw n).
Definition set_Raw (v : option loc) (n : t) : t :=
  mk (OrganicResults n) (AnswerBox n) (KnowledgeGraph n) (RelatedSearches n)
     (PeopleAlsoAsk n) (NewsResults n) (ImageResults n) (VideoResults n)
     (PlaceResults n) (ShoppingResults n) (ScholarResults n) (Suggestions n)
     (SearchMetadata n) v.

(** The composite literal
    [&NormalizedSearchResult{SearchMetadata: SearchMetadata{Engine: e,
    Query: q}, Raw: result}]: every other field has its zero value. *)
Definition literal (engine query : string) (result : option loc) : t :=
  mk [] None None [] [] [] [] [] [] [] [] []
     (SearchMetadata.mk engine query "" "" "" 0 (S754_zero false)) result.
End NormalizedSearchResult.

(** ** [strings.ToLower] *)

Definition isUpperByte (c : ascii) : bool :=
  ((65 <=? N_of_ascii c) && (N_of_ascii c <=? 90))%N.

Definition lowerByte (c : ascii) : ascii :=
  if isUpperByte c then ascii_of_N (N_of_ascii c + 32) else c.

Fixpoint isASCII (s : string) : bool :=
  match s with
  | EmptyString => true
  | String c s' => (N_of_ascii c <? 128)%N && isASCII s'
  end.

Fixpoint lowerASCII (s : string) : string :=
  match s with
  | EmptyString => EmptyString
  | String c s' => String (lowerByte c) (lowerASCII s')
  end.

Section StringsToLower.

(** The Go standard library's [strings.ToLower] lower-cases a string that
    holds only ASCII bytes byte by byte, and otherwise maps
    [unicode.ToLower] over its runes. The Unicode case tables are not part
    of this repository: that second path is a parameter. *)
Variable unicodeToLower : string → string.

Definition ToLower (s : string) : string :=
  if isASCII s then lowerASCII s else unicodeToLower s.

(** ** The normaliser *)

Record Normalizer : Type := mkNormalizer {
  engineName : string
}.

Definition NewNormalizer (engineName : string) : Normalizer :=
  mkNormalizer (ToLower engineName).

End StringsToLower.

(** [getString]: the string under [key], or the empty string. *)
Definition getString (m : gmap string any) (key : string) : string :=
  match m !! key with
  | Some val =>
      match val with
      | AString str => str
      | _ => ""
      end
  | None => ""
  end.

(** [for i, item := range xs { body }] over a slice, started at index [i];
    the body transforms the state [St] it runs in. *)
Fixpoint forRange {St : Type} (body : nat → any → St → St)
    (i : nat) (xs : list any) (st : St) : St :=
  match xs with
  | [] => st
  | item :: xs' => forRange body (S i) xs' (body i item st)
  end.

Import NormalizedSearchResult.

(** *** Serper *)

Definition normalizeSerperSearch (data : gmap string any)
    (normalized : NormalizedSearchResult.t) : NormalizedSearchResult.t :=
  let normalized :=
    match assertSlice (data !! "organic") with
    | Some organic =>
        forRange (λ i item normalized,
          match item with
          | AMap itemMap =>
              set_OrganicResults
                (OrganicResults normalized ++
                 [ {| OrganicResult.Position := Z.of_nat i + 1;
                      OrganicResult.Title := getString itemMap "title";
                      OrganicResult.Link := getString itemMap "link";
                      OrganicResult.URL := getString itemMap "link";
                      OrganicResult.Snippet := getString itemMap "snippet";
                      OrganicResult.Domain := "";
                      OrganicResult.Date := getString itemMap "date" |} ])
                normalized
          | _ => normalized
          end) 0 organic normalized
    | None => normalized
    end in
  let normalized :=
    match assertMap (data !! "answerBox") with
    | Some answerBox =>
        set_AnswerBox
          (Some {| AnswerBox.Type_ := getString answerBox "type";
                   AnswerBox.Title := getString answerBox "title";
                   AnswerBox.Answer := getString answerBox "answer";
                   AnswerBox.Snippet := getString answerBox "snippet";
                   AnswerBox.Source := getString answerBox "source";
                   AnswerBox.Link := getString answerBox "link" |})
          normalized
    | None => normalized
    end in
  let normalized :=
    match assertMap (data !! "knowledgeGraph") with
    | Some kg =>
        set_KnowledgeGraph
          (Some {| KnowledgeGraph.Title := getString kg "title";
                   KnowledgeGraph.Type_ := getString kg "type";
                   KnowledgeGraph.Description := getString kg "description";
                   KnowledgeGraph.Source := "";
                   KnowledgeGraph.ImageURL := getString kg "imageUrl";
                   KnowledgeGraph.Attributes := ∅ |})
          normalized
    | None => normalized
    end in
  let normalized :=
    match assertSlice (data !! "relatedSearches") with
    | Some related =>
        forRange (λ _ item normalized,
          match item with
          | AMap itemMap =>
              set_RelatedSearches
                (RelatedSearches normalized ++
                 [ {| RelatedSearch.Query := getString itemMap "query";
                      RelatedSearch.Link := "" |} ])
                normalized
          | _ => normalized
          end) 0 related normalized
    | None => normalized
    end in
  let normalized :=
    match assertSlice (data !! "peopleAlsoAsk") with
    | Some paa =>
        forRange (λ _ item normalized,
          match item with
          | AMap itemMap =>
              set_PeopleAlsoAsk
                (PeopleAlsoAsk normalized ++
                 [ {| PeopleAlsoAsk.Question := getString itemMap "question";
                      PeopleAlsoAsk.Answer := getString itemMap "answer";
                      PeopleAlsoAsk.Title := getString itemMap "title";
                      PeopleAlsoAsk.Link := getString itemMap "link";
                      PeopleAlsoAsk.Source := "" |} ])
                normalized
          | _ => normalized
          end) 0 paa normalized
    | None => normalized
    end in
  match assertMap (data !! "searchParameters") with
  | Some searchParams =>
      let normalized :=
        set_SearchMetadata
          (SearchMetadata.set_Query (getString searchParams "q")
             (SearchMetadata normalized)) normalized in
      let normalized :=
        set_SearchMetadata
          (SearchMetadata.set_Location (getString searchParams "location")
             (SearchMetadata normalized)) normalized in
      let normalized :=
        set_SearchMetadata
          (SearchMetadata.set_Language (getString searchParams "hl")
             (SearchMetadata normalized)) normalized in
      set_SearchMetadata
        (SearchMetadata.set_Country (getString searchParams "gl")
           (SearchMetadata normalized)) normalized
  | None => normalized
  end.

Definition normalizeSerperNews (data : gmap string any)
    (normalized : NormalizedSearchResult.t) : NormalizedSearchResult.t :=
  match assertSlice (data !! "news") with
  | Some news =>
      forRange (λ i item normalized,
        match item with
        | AMap itemMap =>
            set_NewsResults
              (NewsResults normalized ++
               [ {| NewsResult.Position := Z.of_nat i + 1;
                    NewsResult.Title := getString itemMap "title";
                    NewsResult.Link := getString itemMap "link";
                    NewsResult.Source := getString itemMap "source";
                    NewsResult.Date := getString itemMap "date";
                    NewsResult.Snippet := getString itemMap "snippet";
                    NewsResult.ImageURL := getString itemMap "imageUrl";
                    NewsResult.Thumbnail := getString itemMap "imageUrl" |} ])
              normalized
        | _ => normalized
        end) 0 news normalized
  | None => normalized
  end.

Definition normalizeSerperImages (data : gmap string any)
    (normalized : NormalizedSearchResult.t) : NormalizedSearchResult.t :=
  match assertSlice (data !! "images") with
  | Some images =>
      forRange (λ i item normalized,
        match item with
        | AMap itemMap =>
            set_ImageResults
              (ImageResults normalized ++
               [ {| ImageResult.Position := Z.of_nat i + 1;
                    ImageResult.Title := getString itemMap "title";
                    ImageResult.ImageURL := getString itemMap "imageUrl";
                    ImageResult.Thumbnail := getString itemMap "imageUrl";
                    ImageResult.Source := getString itemMap "source";
                    ImageResult.SourceURL := getString itemMap "link";
                    ImageResult.Width := 0;
                    ImageResult.Height := 0;
                    ImageResult.IsProduct := false |} ])
              normalized
        | _ => normalized
        end) 0 images normalized
  | None => normalized
  end.

(** *** SerpAPI *)

Definition normalizeSerpAPISearch (data : gmap string any)
    (normalized : NormalizedSearchResult.t) : NormalizedSearchResult.t :=
  let normalized :=
    match assertSlice (data !! "organic_results") with
    | Some organic =>
        forRange (λ i item normalized,
          match item with
          | AMap itemMap =>
              set_OrganicResults
                (OrganicResults normalized ++
                 [ {| OrganicResult.Position := Z.of_nat i + 1;
                      OrganicResult.Title := getString itemMap "title";
                      OrganicResult.Link := getString itemMap "link";
                      OrganicResult.URL := getString itemMap "link";
                      OrganicResult.Snippet := getString itemMap "snippet";
                      OrganicResult.Domain := "";
                      OrganicResult.Date := getString itemMap "date" |} ])
                normalized
          | _ => normalized
          end) 0 organic normalized
    | None => normalized
    end in
  let normalized :=
    match assertMap (data !! "answer_box") with
    | Some answerBox =>
        set_AnswerBox
          (Some {| AnswerBox.Type_ := getString answerBox "type";
                   AnswerBox.Title := getString answerBox "title";
                   AnswerBox.Answer := getString answerBox "answer";
                   AnswerBox.Snippet := getString answerBox "snippet";
                   AnswerBox.Source := "";
                   AnswerBox.Link := getString answerBox "link" |})
          normalized
    | None => normalized
    end in
  let normalized :=
    match assertMap (data !! "knowledge_graph") with
    | Some kg =>
        set_KnowledgeGraph
          (Some {| KnowledgeGraph.Title := getString kg "title";
                   KnowledgeGraph.Type_ := getString kg "type";
                   KnowledgeGraph.Description := getString kg "description";
                   KnowledgeGraph.Source := "";
                   KnowledgeGraph.ImageURL := getString kg "image";
                   KnowledgeGraph.Attributes := ∅ |})
          normalized
    | None => normalized
    end in
  let normalized :=
    match assertSlice (data !! "related_searches") with
    | Some related =>
        forRange (λ _ item normalized,
          match item with
          | AMap itemMap =>
              set_RelatedSearches
                (RelatedSearches normalized ++
                 [ {| RelatedSearch.Query := getString itemMap "query";
                      RelatedSearch.Link := getString itemMap "link" |} ])
                normalized
          | _ => normalized
          end) 0 related normalized
    | None => normalized
    end in
  let normalized :=
    match assertSlice (data !! "related_questions") with
    | Some paa =>
        forRange (λ _ item normalized,
          match item with
          | AMap itemMap =>
              set_PeopleAlsoAsk
                (PeopleAlsoAsk normalized ++
                 [ {| PeopleAlsoAsk.Question := getString itemMap "question";
                      PeopleAlsoAsk.Answer := getString itemMap "answer";
                      PeopleAlsoAsk.Title := getString itemMap "title";
                      PeopleAlsoAsk.Link := getString itemMap "link";
                      PeopleAlsoAsk.Source :=
                        getString itemMap "displayed_link" |} ])
                normalized
          | _ => normalized
          end) 0 paa normalized
    | None => normalized
    end in
  match assertMap (data !! "search_parameters") with
  | Some searchParams =>
      let normalized :=
        set_SearchMetadata
          (SearchMetadata.set_Query (getString searchParams "q")
             (SearchMetadata normalized)) normalized in
      let normalized :=
        set_SearchMetadata
          (SearchMetadata.set_Location (getString searchParams "location")
             (SearchMetadata normalized)) normalized in
      let normalized :=
        set_SearchMetadata
          (SearchMetadata.set_Language (getString searchParams "hl")
             (SearchMetadata normalized)) normalized in
      set_SearchMetadata
        (SearchMetadata.set_Country (getString searchParams "gl")
           (SearchMetadata normalized)) normalized
  | None => normalized
  end.

(** The element just appended is updated in place when the item has a string
    [thumbnail]: [normalized.NewsResults[len(normalized.NewsResults)-1]] is
    in range there, so the update is stdpp's [alter] on the list. *)
Definition normalizeSerpAPINews (data : gmap string any)
    (normalized : NormalizedSearchResult.t) : NormalizedSearchResult.t :=
  match assertSlice (data !! "news_results") with
  | Some news =>
      forRange (λ i item normalized,
        match item with
        | AMap itemMap =>
            let normalized :=
              set_NewsResults
                (NewsResults normalized ++
                 [ {| NewsResult.Position := Z.of_nat i + 1;
                      NewsResult.Title := getString itemMap "title";
                      NewsResult.Link := getString itemMap "link";
                      NewsResult.Source := getString itemMap "source";
                      NewsResult.Date := getString itemMap "date";
                      NewsResult.Snippet := getString itemMap "snippet";
                      NewsResult.ImageURL := "";
                      NewsResult.Thumbnail := "" |} ])
                normalized in
            match assertString (itemMap !! "thumbnail") with
            | Some thumb =>
                set_NewsResults
                  (alter (NewsResult.set_Thumbnail thumb)
                     (length (NewsResults normalized) - 1)%nat
                     (NewsResults normalized))
                  normalized
            | None => normalized
            end
        | _ => normalized
        end) 0 news normalized
  | None => normalized
  end.

Definition normalizeSerpAPIImages (data : gmap string any)
    (normalized : NormalizedSearchResult.t) : NormalizedSearchResult.t :=
  match assertSlice (data !! "images_results") with
  | Some images =>
      forRange (λ i item normalized,
        match item with
        | AMap itemMap =>
            set_ImageResults
              (ImageResults normalized ++
               [ {| ImageResult.Position := Z.of_nat i + 1;
                    ImageResult.Title := getString itemMap "title";
                    ImageResult.ImageURL := getString itemMap "original";
                    ImageResult.Thumbnail := getString itemMap "thumbnail";
                    ImageResult.Source := getString itemMap "source";
                    ImageResult.SourceURL := getString itemMap "link";
                    ImageResult.Width := 0;
                    ImageResult.Height := 0;
                    ImageResult.IsProduct := false |} ])
              normalized
        | _ => normalized
        end) 0 images normalized
  | None => normalized
  end.

(** *** The exported functions

    Each takes the store [σ] its [result] pointer refers to and returns the
    Go result pair (a pointer to a [NormalizedSearchResult], or nil, and an
    error, or nil) with the store after the call. An error is its message, as [fmt.Errorf] builds it. A pointer
    to nothing in the store is not a state a Go program reaches: there is no
    outcome for it. *)
Definition Outcome : Type :=
  option ((option NormalizedSearchResult.t * option string) * gmap positive SearchResult.t).

Definition NormalizeSearch (n : Normalizer) (result : option loc)
    (query : string) (σ : Store) : Outcome :=
  match result with
  | None => Some ((None, Some "nil result or data"), σ)
  | Some p =>
      match σ !! p with
      | None => None
      | Some r =>
          match SearchResult.Data r with
          | ANil => Some ((None, Some "nil result or data"), σ)
          | AMap data =>
              let normalized := literal (engineName n) query result in
              if String.eqb (engineName n) "serper" then
                Some ((Some (normalizeSerperSearch data normalized), None), σ)
              else if String.eqb (engineName n) "serpapi" then
                Some ((Some (normalizeSerpAPISearch data normalized), None), σ)
              else
                Some ((None, Some ("unsupported engine: " +:+ engineName n)), σ)
          | v => Some ((None, Some ("unexpected data type: " +:+ typeName v)), σ)
          end
      end
  end.

Definition NormalizeNews (n : Normalizer) (result : option loc)
    (query : string) (σ : Store) : Outcome :=
  match result with
  | None => Some ((None, Some "nil result or data"), σ)
  | Some p =>
      match σ !! p with
      | None => None
      | Some r =>
          match SearchResult.Data r with
          | ANil => Some ((None, Some "nil result or data"), σ)
          | AMap data =>
              let normalized := literal (engineName n) query result in
              if String.eqb (engineName n) "serper" then
                Some ((Some (normalizeSerperNews data normalized), None), σ)
              else if String.eqb (engineName n) "serpapi" then
                Some ((Some (normalizeSerpAPINews data normalized), None), σ)
              else
                Some ((None, Some ("unsupported engine: " +:+ engineName n)), σ)
          | v => Some ((None, Some ("unexpected data type: " +:+ typeName v)), σ)
          end
      end
  end.

Definition NormalizeImages (n : Normalizer) (result : option loc)
    (query : string) (σ : Store) : Outcome :=
  match result with
  | None => Some ((None, Some "nil result or data"), σ)
  | Some p =>
      match σ !! p with
      | None => None
      | Some r =>
          match SearchResult.Data r with
          | ANil => Some ((None, Some "nil result or data"), σ)
          | AMap data =>
              let normalized := literal (engineName n) query result in
              if String.eqb (engineName n) "serper" then
                Some ((Some (normalizeSerperImages data normalized), None), σ)
              else if String.eqb (engineName n) "serpapi" then
                Some ((Some (normalizeSerpAPIImages data normalized), None), σ)
              else
                Some ((None, Some ("unsupported engine: " +:+ engineName n)), σ)
          | v => Some ((None, Some ("unexpected data type: " +:+ typeName v)), σ)
          end
      end
  end.

(** ** The engine registry *)

(** The [Engine] interface. Its search methods perform HTTP requests and
    play no part in the registry; the three accessors are what an engine
    value answers without I/O. *)
Class EngineLike (E : Type) : Type := {
  GetName : E → string;
  GetVersion : E → string;
  GetSupportedTools : E → list string
}.

Section Registry.

Context {Engine : Type} `{EngineLike Engine}.

Record Registry : Type := mkRegistry {
  engines : gmap string Engine
}.

Definition NewRegistry : Registry := mkRegistry ∅.

(** [r.engines[engine.GetName()] = engine] *)
Definition Register (engine : Engine) (r : Registry) : Registry :=
  mkRegistry (<[GetName engine := engine]> (engines r)).

(** The pair [(engine, exists)] of the two-valued map index expression; the
    engine is nil when [exists] is false. *)
Definition Get (r : Registry) (name : string) : option Engine * bool :=
  (engines r !! name, bool_decide (is_Some (engines r !! name))).

(** [for name := range m] visits every key of the map exactly once, in an
    order Go leaves unspecified and varies from one run to the next:
    [order] is an order the iteration may take. *)
Definition rangeOrder {V : Type} (m : gmap string V) (order : list string) : Prop :=
  order ≡ₚ (map_to_list m).*1.

(** [List], run with the iteration taking the keys in [order]. *)
Definition List (r : Registry) (order : list string) : list string :=
  foldl (λ names name, names ++ [name]) [] order.

(** [GetAll], likewise: a fresh map filled key by key. *)
Definition GetAll (r : Registry) (order : list string) : gmap string Engine :=
  foldl (λ result name,
           match engines r !! name with
           | Some engine => <[name := engine]> result
           | None => result
           end) ∅ order.

End Registry.

Arguments Registry Engine : clear implicits.

(** ** Engine selection and engine information *)

(** What [fmt]'s [%v] prints for a [[]string]: the elements, separated by
    spaces, in brackets. *)
Definition formatStrings (l : list string) : string :=
  "[" +:+ String.concat " " l +:+ "]".

Module EngineInfo.
Record t : Type := mk {
  Name : string;
  Version : string;
  SupportedTools : list string
}.
End EngineInfo.

Section EngineSelection.

Context {Engine : Type} `{EngineLike Engine}.

Definition GetEngineInfo (engine : Engine) : EngineInfo.t :=
  {| EngineInfo.Name := GetName engine;
     EngineInfo.Version := GetVersion engine;
     EngineInfo.SupportedTools := GetSupportedTools engine |}.

(** [GetAllEngineInfo] ranges over the copy [GetAll] made, which itself
    ranged over the registry: [orderAll] and [order] are the orders the two
    iterations take. *)
Definition GetAllEngineInfo (registry : Registry Engine)
    (orderAll order : list string) : gmap string EngineInfo.t :=
  let engines := GetAll registry orderAll in
  foldl (λ info name,
           match engines !! name with
           | Some engine => <[name := GetEngineInfo engine]> info
           | None => info
           end) ∅ order.

(** [GetDefaultEngine]. [getenv] is [os.Getenv] and [order] the order the
    iteration inside [List] takes; the result is the pair of the engine (or
    nil) and the error (its message, or nil). The test
    [len(availableEngines) == 0] and the index expression
    [availableEngines[0]] are the two branches of the match on the list. *)
Definition GetDefaultEngine (getenv : string → string)
    (registry : Registry Engine) (order : list string)
    : option Engine * option string :=
  let selectedEngine := getenv "SEARCH_ENGINE" in
  let selectedEngine :=
    if String.eqb selectedEngine "" then "serper" else selectedEngine in
  match Get registry selectedEngine with
  | (engine, true) => (engine, None)
  | (_, false) =>
      let availableEngines := List registry order in
      match availableEngines with
      | [] => (None, Some "no search engines available")
      | firstEngine :: _ =>
          match Get registry "serper" with
          | (fallbackEngine, true) =>
              (fallbackEngine,
               Some ("engine '" +:+ selectedEngine +:+
                     "' not found, falling back to 'serper'. Available engines: "
                     +:+ formatStrings availableEngines))
          | (_, false) =>
              (fst (Get registry firstEngine),
               Some ("engine '" +:+ selectedEngine +:+
                     "' not found, falling back to '" +:+ firstEngine +:+
                     "'. Available engines: " +:+
                     formatStrings availableEngines))
          end
      end
  end.

End EngineSelection.

(** ** Requests, errors and effects *)

Module SearchParams.
Record t : Type := mk {
  Query : string;
  Location : string;
  Language : string;
  Country : string;
  NumResults : Z
}.
End SearchParams.

Module ScrapeParams.
Record t : Type := mk {
  URL : string
}.
End ScrapeParams.

(** A Go [error]: its message and, for one built by [fmt.Errorf] with
    [%w], the error it wraps. Two errors are the same error when they are
    equal as values: the only error compared by identity in the code is the
    sentinel [ErrOperationNotSupported]. *)
Inductive GoError : Type :=
  | ErrLeaf (msg : string)
  | ErrWrap (msg : string) (inner : GoError).

#[global] Instance GoError_eq_dec : EqDecision GoError.
Proof. solve_decision. Defined.

Definition errorString (err : GoError) : string :=
  match err with
  | ErrLeaf msg => msg
  | ErrWrap msg _ => msg
  end.

(** [errors.Is]: the error itself, or one it wraps, is [target]. *)
Fixpoint errorsIs (err target : GoError) : bool :=
  bool_decide (err = target) ||
  match err with
  | ErrLeaf _ => false
  | ErrWrap _ inner => errorsIs inner target
  end.

(** What a search method returns: a [*SearchResult] (or nil) and an error
    (or nil). *)
Definition Reply : Type := option positive * option GoError.

(** A computation that reads and changes the world - the store of
    [SearchResult] values together with whatever the network is - and
    returns a value; [None] stands for a run-time panic (or a pointer to
    nothing, which no Go program has). *)
Definition IO (World A : Type) : Type := World → option (A * World).

Definition ioReturn {World A : Type} (x : A) : IO World A :=
  λ w, Some (x, w).

(** The values the Serper engine puts in a request body: Go strings and
    ints in a [map[string]any]. *)
Inductive apiValue : Type :=
  | VString (s : string)
  | VInt (n : Z).

(** ** The Serper engine *)

Module serper.

Definition baseURL : string := "https://google.serper.dev".
Definition engineName : string := "serper".
Definition engineVersion : string := "1.0.0".

(** The [client *http.Client] field is what [makeRequest] sends with; it
    carries no data of its own. *)
Record Engine : Type := mk {
  apiKey : string
}.

Definition New (getenv : string → string) : option Engine * option GoError :=
  let apiKey := getenv "SERPER_API_KEY" in
  if String.eqb apiKey "" then
    (None, Some (ErrLeaf "SERPER_API_KEY environment variable is required"))
  else (Some (mk apiKey), None).

Definition GetName (e : Engine) : string := engineName.

Definition GetVersion (e : Engine) : string := engineVersion.

Definition GetSupportedTools (e : Engine) : list string :=
  [ "google_search"; "google_search_news"; "google_search_images";
    "google_search_videos"; "google_search_places"; "google_search_maps";
    "google_search_reviews"; "google_search_shopping";
    "google_search_scholar"; "google_search_lens";
    "google_search_autocomplete"; "webpage_scrape" ].

Definition buildParams (e : Engine) (params : SearchParams.t)
    : gmap string apiValue :=
  let apiParams : gmap string apiValue :=
    {[ "q" := VString (SearchParams.Query params) ]} in
  let apiParams :=
    if negb (String.eqb (SearchParams.Location params) "")
    then <["location" := VString (SearchParams.Location params)]> apiParams
    else apiParams in
  let apiParams :=
    if negb (String.eqb (SearchParams.Language params) "")
    then <["hl" := VString (SearchParams.Language params)]> apiParams
    else apiParams in
  let apiParams :=
    if negb (String.eqb (SearchParams.Country params) "")
    then <["gl" := VString (SearchParams.Country params)]> apiParams
    else apiParams in
  let apiParams :=
    if (0 <? SearchParams.NumResults params)%Z
    then <["num" := VInt (SearchParams.NumResults params)]> apiParams
    else apiParams in
  apiParams.

Section Methods.

Context {World : Type}.

(** [makeRequest] posts the JSON encoding of [params] to [baseURL+endpoint]
    and decodes the answer: it is the I/O of the engine, and a parameter
    here. [urlParseError] is the error of [url.Parse], if any. *)
Variable makeRequest : Engine → string → gmap string apiValue → IO World Reply.
Variable urlParseError : string → option GoError.

Definition Search (e : Engine) (params : SearchParams.t) : IO World Reply :=
  makeRequest e "/search" (buildParams e params).

Definition SearchNews (e : Engine) (params : SearchParams.t) : IO World Reply :=
  makeRequest e "/news" (buildParams e params).

Definition SearchImages (e : Engine) (params : SearchParams.t) : IO World Reply :=
  makeRequest e "/images" (buildParams e params).

Definition SearchVideos (e : Engine) (params : SearchParams.t) : IO World Reply :=
  makeRequest e "/videos" (buildParams e params).

Definition SearchPlaces (e : Engine) (params : SearchParams.t) : IO World Reply :=
  makeRequest e "/places" (buildParams e params).

Definition SearchMaps (e : Engine) (params : SearchParams.t) : IO World Reply :=
  makeRequest e "/maps" (buildParams e params).

Definition SearchReviews (e : Engine) (params : SearchParams.t) : IO World Reply :=
  makeRequest e "/reviews" (buildParams e params).

Definition SearchShopping (e : Engine) (params : SearchParams.t) : IO World Reply :=
  makeRequest e "/shopping" (buildParams e params).

Definition SearchScholar (e : Engine) (params : SearchParams.t) : IO World Reply :=
  let apiParams : gmap string apiValue :=
    {[ "q" := VString (SearchParams.Query params) ]} in
  let apiParams :=
    if negb (String.eqb (SearchParams.Language params) "")
    then <["hl" := VString (SearchParams.Language params)]> apiParams
    else apiParams in
  let apiParams :=
    if (0 <? SearchParams.NumResults params)%Z
    then <["num" := VInt (SearchParams.NumResults params)]> apiParams
    else apiParams in
  makeRequest e "/scholar" apiParams.

Definition SearchLens (e : Engine) (params : SearchParams.t) : IO World Reply :=
  let apiParams : gmap string apiValue :=
    {[ "q" := VString (SearchParams.Query params) ]} in
  let apiParams :=
    if negb (String.eqb (SearchParams.Language params) "")
    then <["hl" := VString (SearchParams.Language params)]> apiParams
    else apiParams in
  let apiParams :=
    if negb (String.eqb (SearchParams.Country params) "")
    then <["gl" := VString (SearchParams.Country params)]> apiParams
    else apiParams in
  let apiParams :=
    if (0 <? SearchParams.NumResults params)%Z
    then <["num" := VInt (SearchParams.NumResults params)]> apiParams
    else apiParams in
  makeRequest e "/lens" apiParams.

Definition SearchAutocomplete (e : Engine) (params : SearchParams.t)
    : IO World Reply :=
  let apiParams : gmap string apiValue :=
    {[ "q" := VString (SearchParams.Query params) ]} in
  let apiParams :=
    if negb (String.eqb (SearchParams.Language params) "")
    then <["hl" := VString (SearchParams.Language params)]> apiParams
    else apiParams in
  let apiParams :=
    if negb (String.eqb (SearchParams.Country params) "")
    then <["gl" := VString (SearchParams.Country params)]> apiParams
    else apiParams in
  makeRequest e "/autocomplete" apiParams.

Definition ScrapeWebpage (e : Engine) (params : ScrapeParams.t)
    : IO World Reply :=
  match urlParseError (ScrapeParams.URL params) with
  | Some err =>
      ioReturn (None, Some (ErrWrap ("invalid URL: " +:+ errorString err) err))
  | None =>
      makeRequest e "/scrape" {[ "url" := VString (ScrapeParams.URL params) ]}
  end.

End Methods.

End serper.

(** ** The SerpAPI engine *)

Module serpapi.

Definition baseURL : string := "https://serpapi.com".
Definition engineName : string := "serpapi".
Definition engineVersion : string := "1.0.0".
Definition searchURL : string := "https://serpapi.com/search.json".

Record Engine : Type := mk {
  apiKey : string
}.

Definition New (getenv : string → string) : option Engine * option GoError :=
  let apiKey := getenv "SERPAPI_API_KEY" in
  if String.eqb apiKey "" then
    (None, Some (ErrLeaf "SERPAPI_API_KEY environment variable is required"))
  else (Some (mk apiKey), None).

Definition GetName (e : Engine) : string := engineName.

Definition GetVersion (e : Engine) : string := engineVersion.

Definition GetSupportedTools (e : Engine) : list string :=
  [ "google_search"; "google_search_news"; "google_search_images";
    "google_search_videos"; "google_search_places"; "google_search_maps";
    "google_search_reviews"; "google_search_shopping";
    "google_search_scholar"; "google_search_autocomplete";
    "webpage_scrape" ].

(** The query values [makeRequest] assembles before it encodes them into
    the URL: [api_key] first, then every parameter, in the order [order]
    the iteration over [params] takes. [url.Values.Set] replaces whatever
    the key held by the one value. *)
Definition requestQuery (e : Engine) (params : gmap string string)
    (order : list string) : gmap string (list string) :=
  let q : gmap string (list string) := ∅ in
  let q := <["api_key" := [apiKey e]]> q in
  foldl (λ q key,
           match params !! key with
           | Some value => <[key := [value]]> q
           | None => q
           end) q order.

Definition buildParams (e : Engine) (params : SearchParams.t)
    (engine : string) : gmap string string :=
  let apiParams : gmap string string :=
    {[ "q" := SearchParams.Query params; "engine" := engine ]} in
  let apiParams :=
    if negb (String.eqb (SearchParams.Location params) "")
    then <["location" := SearchParams.Location params]> apiParams
    else apiParams in
  let apiParams :=
    if negb (String.eqb (SearchParams.Language params) "")
    then <["hl" := SearchParams.Language params]> apiParams
    else apiParams in
  let apiParams :=
    if negb (String.eqb (SearchParams.Country params) "")
    then <["gl" := SearchParams.Country params]> apiParams
    else apiParams in
  let apiParams :=
    if (0 <? SearchParams.NumResults params)%Z
    then <["num" := pretty (SearchParams.NumResults params)]> apiParams
    else apiParams in
  apiParams.

Section Methods.

Context {World : Type}.

(** [makeRequest] sends the query [requestQuery] assembles to [searchURL]
    and decodes the answer; [fetch] is the HTTP GET of [ScrapeWebpage] with
    what it makes of the answer. Both are the I/O of the engine, and
    parameters here, as is the error of [url.Parse]. *)
Variable makeRequest : Engine → gmap string string → IO World Reply.
Variable fetch : Engine → string → IO World Reply.
Variable urlParseError : string → option GoError.

Definition Search (e : Engine) (params : SearchParams.t) : IO World Reply :=
  makeRequest e (buildParams e params "google").

Definition SearchNews (e : Engine) (params : SearchParams.t) : IO World Reply :=
  makeRequest e (buildParams e params "google_news").

Definition SearchImages (e : Engine) (params : SearchParams.t) : IO World Reply :=
  makeRequest e (buildParams e params "google_images").

Definition SearchVideos (e : Engine) (params : SearchParams.t) : IO World Reply :=
  makeRequest e (buildParams e params "google_videos").

Definition SearchPlaces (e : Engine) (params : SearchParams.t) : IO World Reply :=
  let apiParams := buildParams e params "google_maps" in
  let apiParams := <["type" := "search"]> apiParams in
  makeRequest e apiParams.

Definition SearchMaps (e : Engine) (params : SearchParams.t) : IO World Reply :=
  makeRequest e (buildParams e params "google_maps").

Definition SearchReviews (e : Engine) (params : SearchParams.t) : IO World Reply :=
  let apiParams := buildParams e params "google" in
  let apiParams :=
    <["q" := SearchParams.Query params +:+ " reviews"]> apiParams in
  makeRequest e apiParams.

Definition SearchShopping (e : Engine) (params : SearchParams.t) : IO World Reply :=
  makeRequest e (buildParams e params "google_shopping").

Definition SearchScholar (e : Engine) (params : SearchParams.t) : IO World Reply :=
  let apiParams : gmap string string :=
    {[ "q" := SearchParams.Query params; "engine" := "google_scholar" ]} in
  let apiParams :=
    if negb (String.eqb (SearchParams.Language params) "")
    then <["hl" := SearchParams.Language params]> apiParams
    else apiParams in
  let apiParams :=
    if (0 <? SearchParams.NumResults params)%Z
    then <["num" := pretty (SearchParams.NumResults params)]> apiParams
    else apiParams in
  makeRequest e apiParams.

Definition SearchLens (e : Engine) (params : SearchParams.t) : IO World Reply :=
  ioReturn (None, Some (ErrLeaf "google_search_lens is not supported by SerpAPI")).

Definition SearchAutocomplete (e : Engine) (params : SearchParams.t)
    : IO World Reply :=
  let apiParams : gmap string string :=
    {[ "q" := SearchParams.Query params; "engine" := "google_autocomplete" ]} in
  let apiParams :=
    if negb (String.eqb (SearchParams.Language params) "")
    then <["hl" := SearchParams.Language params]> apiParams
    else apiParams in
  let apiParams :=
    if negb (String.eqb (SearchParams.Country params) "")
    then <["gl" := SearchParams.Country params]> apiParams
    else apiParams in
  makeRequest e apiParams.

Definition ScrapeWebpage (e : Engine) (params : ScrapeParams.t)
    : IO World Reply :=
  match urlParseError (ScrapeParams.URL params) with
  | Some err =>
      ioReturn (None, Some (ErrWrap ("invalid URL: " +:+ errorString err) err))
  | None => fetch e (ScrapeParams.URL params)
  end.

End Methods.

End serpapi.

(** ** The client *)

(** The search methods of the [Engine] interface, for an engine type and
    the world its requests act on. *)
Module EngineIO.
Class t (Engine World : Type) : Type := {
  Search : Engine → SearchParams.t → IO World Reply;
  SearchNews : Engine → SearchParams.t → IO World Reply;
  SearchImages : Engine → SearchParams.t → IO World Reply;
  SearchVideos : Engine → SearchParams.t → IO World Reply;
  SearchPlaces : Engine → SearchParams.t → IO World Reply;
  SearchMaps : Engine → SearchParams.t → IO World Reply;
  SearchReviews : Engine → SearchParams.t → IO World Reply;
  SearchShopping : Engine → SearchParams.t → IO World Reply;
  SearchScholar : Engine → SearchParams.t → IO World Reply;
  SearchLens : Engine → SearchParams.t → IO World Reply;
  SearchAutocomplete : Engine → SearchParams.t → IO World Reply;
  ScrapeWebpage : Engine → ScrapeParams.t → IO World Reply
}.
End EngineIO.

Module client.

Definition OpSearch : string := "google_search".
Definition OpSearchNews : string := "google_search_news".
Definition OpSearchImages : string := "google_search_images".
Definition OpSearchVideos : string := "google_search_videos".
Definition OpSearchPlaces : string := "google_search_places".
Definition OpSearchMaps : string := "google_search_maps".
Definition OpSearchReviews : string := "google_search_reviews".
Definition OpSearchShopping : string := "google_search_shopping".
Definition OpSearchScholar : string := "google_search_scholar".
Definition OpSearchLens : string := "google_search_lens".
Definition OpSearchAutocomplete : string := "google_search_autocomplete".
Definition OpScrapeWebpage : string := "webpage_scrape".

Definition ErrOperationNotSupported : GoError :=
  ErrLeaf "operation not supported by current engine".

Module Options.
Record t : Type := mk {
  EngineName : string;
  Silent : bool
}.
End Options.

Local Abbreviation engineGetName := GetName (only parsing).
Local Abbreviation engineGetVersion := GetVersion (only parsing).
Local Abbreviation engineGetSupportedTools := GetSupportedTools (only parsing).

(** [for _, tool := range supportedTools { if tool == operation { return
    true } }; return false] *)
Fixpoint rangeTools (supportedTools : list string) (operation : string) : bool :=
  match supportedTools with
  | [] => false
  | tool :: supportedTools' =>
      if String.eqb tool operation then true
      else rangeTools supportedTools' operation
  end.

Section Client.

Context {Engine Net : Type} `{EngineLike Engine}.
Context `{EngineIO.t Engine (gmap positive SearchResult.t * Net)}.
Variable unicodeToLower : string → string.

(** The world of a client: the store of [SearchResult] values and the
    network. *)
Definition World : Type := gmap positive SearchResult.t * Net.

(** A client whose [engine] is nil (as inside [NewWithOptions], before one
    is selected) panics in every method that calls the engine. *)
Record Client : Type := mk {
  registry : Registry Engine;
  engine : option Engine
}.

(** [order] is the order the iteration of [List] takes, should the error
    message be built. *)
Definition GetEngine (c : Client) (name : string) (order : list string)
    : option Engine * option GoError :=
  match Get (registry c) name with
  | (engine, true) => (engine, None)
  | (_, false) =>
      (None,
       Some (ErrLeaf ("engine '" +:+ name +:+
                      "' not found. Available engines: " +:+
                      formatStrings (List (registry c) order))))
  end.

(** [SetEngine] returns the client as it is after the call, with the
    error. *)
Definition SetEngine (c : Client) (name : string) (order : list string)
    : Client * option GoError :=
  match GetEngine c name order with
  | (_, Some err) => (c, Some err)
  | (engine, None) => (mk (registry c) engine, None)
  end.

Definition GetRegistry (c : Client) : Registry Engine := registry c.

Definition ListEngines (c : Client) (order : list string) : list string :=
  List (registry c) order.

Definition GetCurrentEngine (c : Client) : option Engine := engine c.

Definition SupportsOperation (c : Client) (operation : string) : option bool :=
  match engine c with
  | None => None
  | Some engine =>
      let supportedTools := engineGetSupportedTools engine in
      Some (rangeTools supportedTools operation)
  end.

(** The error, or nil. *)
Definition checkSupport (c : Client) (operation : string)
    : option (option GoError) :=
  match SupportsOperation c operation, engine c with
  | Some false, Some engine =>
      Some (Some (ErrWrap
                    (errorString ErrOperationNotSupported +:+ ": '" +:+
                     operation +:+ "' (engine: " +:+ engineGetName engine +:+
                     ", supported: " +:+
                     formatStrings (engineGetSupportedTools engine) +:+ ")")
                    ErrOperationNotSupported))
  | Some true, _ => Some None
  | _, _ => None
  end.

Definition GetName (c : Client) : option string :=
  engineGetName <$> engine c.

Definition GetVersion (c : Client) : option string :=
  engineGetVersion <$> engine c.

Definition GetSupportedTools (c : Client) : option (list string) :=
  engineGetSupportedTools <$> engine c.

(** Every proxy is the same three lines: [if err := c.checkSupport(op);
    err != nil { return nil, err }; return c.engine.Method(ctx, params)]. *)
Definition proxy {P : Type} (c : Client) (operation : string)
    (method : Engine → P → IO World Reply) (params : P) : IO World Reply :=
  λ w,
    match checkSupport c operation with
    | None => None
    | Some (Some err) => Some ((None, Some err), w)
    | Some None =>
        match engine c with
        | Some engine => method engine params w
        | None => None
        end
    end.

Definition Search (c : Client) (params : SearchParams.t) : IO World Reply :=
  proxy c OpSearch EngineIO.Search params.

Definition SearchNews (c : Client) (params : SearchParams.t) : IO World Reply :=
  proxy c OpSearchNews EngineIO.SearchNews params.

Definition SearchImages (c : Client) (params : SearchParams.t) : IO World Reply :=
  proxy c OpSearchImages EngineIO.SearchImages params.

Definition SearchVideos (c : Client) (params : SearchParams.t) : IO World Reply :=
  proxy c OpSearchVideos EngineIO.SearchVideos params.

Definition SearchPlaces (c : Client) (params : SearchParams.t) : IO World Reply :=
  proxy c OpSearchPlaces EngineIO.SearchPlaces params.

Definition SearchMaps (c : Client) (params : SearchParams.t) : IO World Reply :=
  proxy c OpSearchMaps EngineIO.SearchMaps params.

Definition SearchReviews (c : Client) (params : SearchParams.t) : IO World Reply :=
  proxy c OpSearchReviews EngineIO.SearchReviews params.

Definition SearchShopping (c : Client) (params : SearchParams.t) : IO World Reply :=
  proxy c OpSearchShopping EngineIO.SearchShopping params.

Definition SearchScholar (c : Client) (params : SearchParams.t) : IO World Reply :=
  proxy c OpSearchScholar EngineIO.SearchScholar params.

Definition SearchLens (c : Client) (params : SearchParams.t) : IO World Reply :=
  proxy c OpSearchLens EngineIO.SearchLens params.

Definition SearchAutocomplete (c : Client) (params : SearchParams.t)
    : IO World Reply :=
  proxy c OpSearchAutocomplete EngineIO.SearchAutocomplete params.

Definition ScrapeWebpage (c : Client) (params : ScrapeParams.t) : IO World Reply :=
  proxy c OpScrapeWebpage EngineIO.ScrapeWebpage params.

(** The normalised searches: the search, then - unless it failed - the
    normaliser made for the engine's name, run on the result and the
    caller's query. An error of the normaliser is a [fmt.Errorf] error. *)
Definition SearchNormalized (c : Client) (params : SearchParams.t)
    : IO World (option NormalizedSearchResult.t * option GoError) :=
  λ w,
    match Search c params w with
    | None => None
    | Some ((_, Some err), w) => Some ((None, Some err), w)
    | Some ((result, None), w) =>
        match GetName c with
        | None => None
        | Some name =>
            let normalizer := NewNormalizer unicodeToLower name in
            match NormalizeSearch normalizer result
                    (SearchParams.Query params) (fst w) with
            | None => None
            | Some ((normalized, err), σ) =>
                Some ((normalized, ErrLeaf <$> err), (σ, snd w))
            end
        end
    end.

Definition SearchNewsNormalized (c : Client) (params : SearchParams.t)
    : IO World (option NormalizedSearchResult.t * option GoError) :=
  λ w,
    match SearchNews c params w with
    | None => None
    | Some ((_, Some err), w) => Some ((None, Some err), w)
    | Some ((result, None), w) =>
        match GetName c with
        | None => None
        | Some name =>
            let normalizer := NewNormalizer unicodeToLower name in
            match NormalizeNews normalizer result
                    (SearchParams.Query params) (fst w) with
            | None => None
            | Some ((normalized, err), σ) =>
                Some ((normalized, ErrLeaf <$> err), (σ, snd w))
            end
        end
    end.

Definition SearchImagesNormalized (c : Client) (params : SearchParams.t)
    : IO World (option NormalizedSearchResult.t * option GoError) :=
  λ w,
    match SearchImages c params w with
    | None => None
    | Some ((_, Some err), w) => Some ((None, Some err), w)
    | Some ((result, None), w) =>
        match GetName c with
        | None => None
        | Some name =>
            let normalizer := NewNormalizer unicodeToLower name in
            match NormalizeImages normalizer result
                    (SearchParams.Query params) (fst w) with
            | None => None
            | Some ((normalized, err), σ) =>
                Some ((normalized, ErrLeaf <$> err), (σ, snd w))
            end
        end
    end.

End Client.

Arguments Client Engine : clear implicits.

End client.

(** ** The engines the client registers *)

(** An [Engine] value of the client is a Serper engine or a SerpAPI
    engine. *)
Inductive ShippedEngine : Type :=
  | SerperEngine (e : serper.Engine)
  | SerpAPIEngine (e : serpapi.Engine).

#[global] Instance ShippedEngine_EngineLike : EngineLike ShippedEngine := {
  GetName engine :=
    match engine with
    | SerperEngine e => serper.GetName e
    | SerpAPIEngine e => serpapi.GetName e
    end;
  GetVersion engine :=
    match engine with
    | SerperEngine e => serper.GetVersion e
    | SerpAPIEngine e => serpapi.GetVersion e
    end;
  GetSupportedTools engine :=
    match engine with
    | SerperEngine e => serper.GetSupportedTools e
    | SerpAPIEngine e => serpapi.GetSupportedTools e
    end
}.

(** [NewWithOptions], with the lines it logs. [getenv] is [os.Getenv] and
    [order] the order the one iteration over the registry takes, if an
    error message or a warning lists the engines. [serper.New] and
    [serpapi.New] never return a nil engine with a nil error. *)
Definition NewWithOptions (getenv : string → string)
    (opts : option client.Options.t) (order : list string)
    : (option (client.Client ShippedEngine) * option GoError) * list string :=
  let opts := default (client.Options.mk "" false) opts in
  let silent := client.Options.Silent opts in
  let registry : Registry ShippedEngine := NewRegistry in
  let logs : list string := [] in
  let '(registry, logs) :=
    match serper.New getenv with
    | (Some serperEngine, None) =>
        (Register (SerperEngine serperEngine) registry,
         if negb silent then logs ++ ["Registered Serper engine"] else logs)
    | (_, Some err) =>
        (registry,
         if negb silent
         then logs ++ ["Failed to initialize Serper engine: " +:+ errorString err]
         else logs)
    | (None, None) => (registry, logs)
    end in
  let '(registry, logs) :=
    match serpapi.New getenv with
    | (Some serpApiEngine, None) =>
        (Register (SerpAPIEngine serpApiEngine) registry,
         if negb silent then logs ++ ["Registered SerpAPI engine"] else logs)
    | (_, Some err) =>
        (registry,
         if negb silent
         then logs ++ ["Failed to initialize SerpAPI engine: " +:+ errorString err]
         else logs)
    | (None, None) => (registry, logs)
    end in
  let client : client.Client ShippedEngine := client.mk registry None in
  (* what follows the selection of the engine *)
  let finish (engine : option ShippedEngine) (logs : list string) :=
    match engine with
    | None =>
        ((None,
          Some (ErrLeaf
                  "no search engines available. Please ensure API keys are set")),
         logs)
    | Some engine =>
        let client := client.mk (client.registry client) (Some engine) in
        ((Some client, None),
         if negb silent
         then logs ++ ["Using search engine: " +:+ GetName engine +:+ " v" +:+
                       GetVersion engine]
         else logs)
    end in
  if negb (String.eqb (client.Options.EngineName opts) "") then
    match client.GetEngine client (client.Options.EngineName opts) order with
    | (_, Some err) => ((None, Some err), logs)
    | (engine, None) => finish engine logs
    end
  else
    match GetDefaultEngine getenv registry order with
    | (engine, Some err) =>
        finish engine
          (if negb silent then logs ++ ["Warning: " +:+ err] else logs)
    | (engine, None) => finish engine logs
    end.

Definition New (getenv : string → string) (order : list string)
    : (option (client.Client ShippedEngine) * option GoError) * list string :=
  NewWithOptions getenv None order.

Definition NewWithEngine (getenv : string → string) (engineName : string)
    (order : list string)
    : (option (client.Client ShippedEngine) * option GoError) * list string :=
  NewWithOptions getenv (Some (client.Options.mk engineName false)) order.

(** The methods an [Engine] value of the client answers to: those of the
    engine it holds. The I/O of the two engines is a parameter. *)
Section ShippedEngineIO.

Context {World : Type}.
Variable serperMakeRequest :
  serper.Engine → string → gmap string apiValue → IO World Reply.
Variable serpapiMakeRequest : serpapi.Engine → gmap string string → IO World Reply.
Variable serpapiFetch : serpapi.Engine → string → IO World Reply.
Variable urlParseError : string → option GoError.

Definition ShippedEngine_IO : EngineIO.t ShippedEngine World := {|
  EngineIO.Search engine :=
    match engine with
    | SerperEngine e => serper.Search serperMakeRequest e
    | SerpAPIEngine e => serpapi.Search serpapiMakeRequest e
    end;
  EngineIO.SearchNews engine :=
    match engine with
    | SerperEngine e => serper.SearchNews serperMakeRequest e
    | SerpAPIEngine e => serpapi.SearchNews serpapiMakeRequest e
    end;
  EngineIO.SearchImages engine :=
    match engine with
    | SerperEngine e => serper.SearchImages serperMakeRequest e
    | SerpAPIEngine e => serpapi.SearchImages serpapiMakeRequest e
    end;
  EngineIO.SearchVideos engine :=
    match engine with
    | SerperEngine e => serper.SearchVideos serperMakeRequest e
    | SerpAPIEngine e => serpapi.SearchVideos serpapiMakeRequest e
    end;
  EngineIO.SearchPlaces engine :=
    match engine with
    | SerperEngine e => serper.SearchPlaces serperMakeRequest e
    | SerpAPIEngine e => serpapi.SearchPlaces serpapiMakeRequest e
    end;
  EngineIO.SearchMaps engine :=
    match engine with
    | SerperEngine e => serper.SearchMaps serperMakeRequest e
    | SerpAPIEngine e => serpapi.SearchMaps serpapiMakeRequest e
    end;
  EngineIO.SearchReviews engine :=
    match engine with
    | SerperEngine e => serper.SearchReviews serperMakeRequest e
    | SerpAPIEngine e => serpapi.SearchReviews serpapiMakeRequest e
    end;
  EngineIO.SearchShopping engine :=
    match engine with
    | SerperEngine e => serper.SearchShopping serperMakeRequest e
    | SerpAPIEngine e => serpapi.SearchShopping serpapiMakeRequest e
    end;
  EngineIO.SearchScholar engine :=
    match engine with
    | SerperEngine e => serper.SearchScholar serperMakeRequest e
    | SerpAPIEngine e => serpapi.SearchScholar serpapiMakeRequest e
    end;
  EngineIO.SearchLens engine :=
    match engine with
    | SerperEngine e => serper.SearchLens serperMakeRequest e
    | SerpAPIEngine e => serpapi.SearchLens e
    end;
  EngineIO.SearchAutocomplete engine :=
    match engine with
    | SerperEngine e => serper.SearchAutocomplete serperMakeRequest e
    | SerpAPIEngine e => serpapi.SearchAutocomplete serpapiMakeRequest e
    end;
  EngineIO.ScrapeWebpage engine :=
    match engine with
    | SerperEngine e => serper.ScrapeWebpage serperMakeRequest urlParseError e
    | SerpAPIEngine e => serpapi.ScrapeWebpage serpapiFetch urlParseError e
    end
|}.

End ShippedEngineIO.

(** ** Helpers of the example program *)

(** [truncate]: [len(s)] and the slice [s[:maxLen]] count bytes. With
    [len(s) > maxLen] and a negative [maxLen] the slice expression panics:
    there is no result. *)
Definition truncate (s : string) (maxLen : Z) : option string :=
  if (Z.of_nat (String.length s) <=? maxLen)%Z then Some s
  else if (maxLen <? 0)%Z then None
  else Some (substring 0 (Z.to_nat maxLen) s +:+ "...").

(** ** Vocabulary of the specification *)

(** The source array of a collection: the slice under [key], or no elements
    when the key is absent or holds something else. *)
Definition sliceOf (data : gmap string any) (key : string) : list any :=
  default [] (assertSlice (data !! key)).

Definition isMap (v : any) : bool :=
  match v with
  | AMap _ => true
  | _ => false
  end.

(** The keyed mappings among [xs], each with its index in the array, the
    first element having index [i]. *)
Fixpoint mapItems (i : nat) (xs : list any) : list (nat * gmap string any) :=
  match xs with
  | [] => []
  | AMap m :: xs' => (i, m) :: mapItems (S i) xs'
  | _ :: xs' => mapItems (S i) xs'
  end.

(** The positions [1..n]. *)
Definition oneTo (n : nat) : list Z := (λ i, Z.of_nat i + 1) <$> seq 0 n.

(** The two error kinds of the specification, as the messages the code
    builds for them. *)
Definition MalformedResponse (msg : string) : Prop :=
  msg = "nil result or data" ∨ ∃ v, msg = "unexpected data type: " +:+ typeName v.

Definition UnsupportedProvider (msg : string) : Prop :=
  ∃ engine, msg = "unsupported engine: " +:+ engine.

Definition supported (n : Normalizer) : Prop :=
  engineName n = "serper" ∨ engineName n = "serpapi".

(** The pointer [result] refers to a [SearchResult] whose [Data] is the
    keyed mapping [data]. *)
Definition mapRooted (σ : Store) (result : option loc)
    (data : gmap string any) : Prop :=
  ∃ p r, result = Some p ∧ σ !! p = Some r ∧ SearchResult.Data r = AMap data.

(** The input is nil, or its [Data] is nil or anything but a keyed
    mapping. *)
Definition notMapRooted (σ : Store) (result : option loc) : Prop :=
  match result with
  | None => True
  | Some p => ∃ r, σ !! p = Some r ∧ ∀ data, SearchResult.Data r ≠ AMap data
  end.

(** The call returned the non-nil result [nz] and a nil error, the store
    being [σ] afterwards. *)
Definition succeeds (o : Outcome) (nz : NormalizedSearchResult.t)
    (σ : Store) : Prop :=
  o = Some ((Some nz, None), σ).

(** The output collections, the exported function that fills each, and the
    key each engine reads it from. *)
Inductive Collection : Type :=
  | COrganic
  | CRelatedSearches
  | CPeopleAlsoAsk
  | CNews
  | CImages.

Definition ranked (c : Collection) : bool :=
  match c with
  | COrganic | CNews | CImages => true
  | CRelatedSearches | CPeopleAlsoAsk => false
  end.

Definition normalizeOf (c : Collection)
    : Normalizer → option loc → string → Store → Outcome :=
  match c with
  | COrganic | CRelatedSearches | CPeopleAlsoAsk => NormalizeSearch
  | CNews => NormalizeNews
  | CImages => NormalizeImages
  end.

Definition sourceKey (engine : string) (c : Collection) : string :=
  if String.eqb engine "serper" then
    match c with
    | COrganic => "organic"
    | CRelatedSearches => "relatedSearches"
    | CPeopleAlsoAsk => "peopleAlsoAsk"
    | CNews => "news"
    | CImages => "images"
    end
  else
    match c with
    | COrganic => "organic_results"
    | CRelatedSearches => "related_searches"
    | CPeopleAlsoAsk => "related_questions"
    | CNews => "news_results"
    | CImages => "images_results"
    end.

Definition lengthOf (c : Collection) (nz : NormalizedSearchResult.t) : nat :=
  match c with
  | COrganic => length (OrganicResults nz)
  | CRelatedSearches => length (RelatedSearches nz)
  | CPeopleAlsoAsk => length (PeopleAlsoAsk nz)
  | CNews => length (NewsResults nz)
  | CImages => length (ImageResults nz)
  end.

(** The [Position] fields of a ranked collection, in output order. *)
Definition positionsOf (c : Collection) (nz : NormalizedSearchResult.t) : list Z :=
  match c with
  | COrganic => OrganicResult.Position <$> OrganicResults nz
  | CNews => NewsResult.Position <$> NewsResults nz
  | CImages => ImageResult.Position <$> ImageResults nz
  | CRelatedSearches | CPeopleAlsoAsk => []
  end.

(** The string fields of the elements of an output collection, element by
    element, in the order the record declares them. *)
Definition fieldsOf (c : Collection) (nz : NormalizedSearchResult.t)
    : list (list string) :=
  match c with
  | COrganic =>
      (λ r, [OrganicResult.Title r; OrganicResult.Link r; OrganicResult.URL r;
             OrganicResult.Snippet r; OrganicResult.Domain r;
             OrganicResult.Date r]) <$> OrganicResults nz
  | CRelatedSearches =>
      (λ r, [RelatedSearch.Query r; RelatedSearch.Link r])
        <$> RelatedSearches nz
  | CPeopleAlsoAsk =>
      (λ r, [PeopleAlsoAsk.Question r; PeopleAlsoAsk.Answer r;
             PeopleAlsoAsk.Title r; PeopleAlsoAsk.Link r;
             PeopleAlsoAsk.Source r]) <$> PeopleAlsoAsk nz
  | CNews =>
      (λ r, [NewsResult.Title r; NewsResult.Link r; NewsResult.Source r;
             NewsResult.Date r; NewsResult.Snippet r; NewsResult.ImageURL r;
             NewsResult.Thumbnail r]) <$> NewsResults nz
  | CImages =>
      (λ r, [ImageResult.Title r; ImageResult.ImageURL r;
             ImageResult.Thumbnail r; ImageResult.Source r;
             ImageResult.SourceURL r]) <$> ImageResults nz
  end.

(** The field-mapping table of each engine: for every string field of
    [fieldsOf], in the same order, the key of the source element it is
    extracted from, or [None] for a field the engine leaves at its zero
    value. *)
Definition fieldKeys (engine : string) (c : Collection) : list (option string) :=
  if String.eqb engine "serper" then
    match c with
    | COrganic =>
        [Some "title"; Some "link"; Some "link"; Some "snippet"; None;
         Some "date"]
    | CRelatedSearches => [Some "query"; None]
    | CPeopleAlsoAsk =>
        [Some "question"; Some "answer"; Some "title"; Some "link"; None]
    | CNews =>
        [Some "title"; Some "link"; Some "source"; Some "date";
         Some "snippet"; Some "imageUrl"; Some "imageUrl"]
    | CImages =>
        [Some "title"; Some "imageUrl"; Some "imageUrl"; Some "source";
         Some "link"]
    end
  else
    match c with
    | COrganic =>
        [Some "title"; Some "link"; Some "link"; Some "snippet"; None;
         Some "date"]
    | CRelatedSearches => [Some "query"; Some "link"]
    | CPeopleAlsoAsk =>
        [Some "question"; Some "answer"; Some "title"; Some "link";
         Some "displayed_link"]
    | CNews =>
        [Some "title"; Some "link"; Some "source"; Some "date";
         Some "snippet"; None; Some "thumbnail"]
    | CImages =>
        [Some "title"; Some "original"; Some "thumbnail"; Some "source";
         Some "link"]
    end.

(** The fields extracted from the element [m] under a table. *)
Definition extract (keys : list (option string)) (m : gmap string any)
    : list string :=
  (λ key, from_option (getString m) "" key) <$> keys.

(** The key of the search-parameters echo block. *)
Definition echoKey (engine : string) : string :=
  if String.eqb engine "serper" then "searchParameters" else "search_parameters".

(** *** The same content under the two key conventions *)

(** A Serper knowledge graph and a SerpAPI one hold the same content when
    both are absent (or not mappings), or both are mappings that agree on
    the fields read, the image being under [imageUrl] in the first and under
    [image] in the second. *)
Definition sameKnowledgeGraph (vs va : option any) : Prop :=
  match assertMap vs, assertMap va with
  | Some ms, Some ma =>
      ms !! "title" = ma !! "title" ∧ ms !! "type" = ma !! "type" ∧
      ms !! "description" = ma !! "description" ∧
      ms !! "imageUrl" = ma !! "image"
  | None, None => True
  | _, _ => False
  end.

(** A Serper document [ds] and a SerpAPI document [da] hold the same
    content: what one has under its camelCase key, the other has under its
    snake_case key. *)
Record sameContent (ds da : gmap string any) : Prop := {
  same_organic : ds !! "organic" = da !! "organic_results";
  same_answerBox : ds !! "answerBox" = da !! "answer_box";
  same_knowledgeGraph :
    sameKnowledgeGraph (ds !! "knowledgeGraph") (da !! "knowledge_graph");
  same_relatedSearches : ds !! "relatedSearches" = da !! "related_searches";
  same_peopleAlsoAsk : ds !! "peopleAlsoAsk" = da !! "related_questions";
  same_searchParameters :
    ds !! "searchParameters" = da !! "search_parameters"
}.

(** Equality in every field except [SearchMetadata.Engine]. *)
Definition eraseEngine (nz : NormalizedSearchResult.t) : NormalizedSearchResult.t :=
  set_SearchMetadata (SearchMetadata.set_Engine "" (SearchMetadata nz)) nz.

Definition equalExceptEngine (a b : NormalizedSearchResult.t) : Prop :=
  eraseEngine a = eraseEngine b.

(** What is left of a result once the engine name, the back-reference and
    the three fields that only one of the engines fills are blanked:
    [AnswerBox.Source] (Serper only), [RelatedSearch.Link] and
    [PeopleAlsoAsk.Source] (SerpAPI only). *)
Definition blankAnswerBox (a : AnswerBox.t) : AnswerBox.t :=
  AnswerBox.mk (AnswerBox.Type_ a) (AnswerBox.Title a) (AnswerBox.Answer a)
    (AnswerBox.Snippet a) "" (AnswerBox.Link a).

Definition blankRelatedSearch (x : RelatedSearch.t) : RelatedSearch.t :=
  RelatedSearch.mk (RelatedSearch.Query x) "".

Definition blankPeopleAlsoAsk (x : PeopleAlsoAsk.t) : PeopleAlsoAsk.t :=
  PeopleAlsoAsk.mk (PeopleAlsoAsk.Question x) (PeopleAlsoAsk.Answer x)
    (PeopleAlsoAsk.Title x) (PeopleAlsoAsk.Link x) "".

Definition sharedPart (nz : NormalizedSearchResult.t) : NormalizedSearchResult.t :=
  set_Raw None
    (set_AnswerBox (blankAnswerBox <$> AnswerBox nz)
       (set_RelatedSearches (blankRelatedSearch <$> RelatedSearches nz)
          (set_PeopleAlsoAsk (blankPeopleAlsoAsk <$> PeopleAlsoAsk nz)
             (eraseEngine nz)))).

(** *** The loop-free form of the helpers: what each appends or sets *)

Definition organicOf (p : nat * gmap string any) : OrganicResult.t :=
  {| OrganicResult.Position := Z.of_nat p.1 + 1;
     OrganicResult.Title := getString p.2 "title";
     OrganicResult.Link := getString p.2 "link";
     OrganicResult.URL := getString p.2 "link";
     OrganicResult.Snippet := getString p.2 "snippet";
     OrganicResult.Domain := "";
     OrganicResult.Date := getString p.2 "date" |}.

Definition answerBoxOf (sourceOf : gmap string any → string)
    (m : gmap string any) : AnswerBox.t :=
  {| AnswerBox.Type_ := getString m "type";
     AnswerBox.Title := getString m "title";
     AnswerBox.Answer := getString m "answer";
     AnswerBox.Snippet := getString m "snippet";
     AnswerBox.Source := sourceOf m;
     AnswerBox.Link := getString m "link" |}.

Definition knowledgeGraphOf (imageKey : string) (m : gmap string any)
    : KnowledgeGraph.t :=
  {| KnowledgeGraph.Title := getString m "title";
     KnowledgeGraph.Type_ := getString m "type";
     KnowledgeGraph.Description := getString m "description";
     KnowledgeGraph.Source := "";
     KnowledgeGraph.ImageURL := getString m imageKey;
     KnowledgeGraph.Attributes := ∅ |}.

Definition relatedSearchOf (linkOf : gmap string any → string)
    (p : nat * gmap string any) : RelatedSearch.t :=
  {| RelatedSearch.Query := getString p.2 "query";
     RelatedSearch.Link := linkOf p.2 |}.

Definition peopleAlsoAskOf (sourceOf : gmap string any → string)
    (p : nat * gmap string any) : PeopleAlsoAsk.t :=
  {| PeopleAlsoAsk.Question := getString p.2 "question";
     PeopleAlsoAsk.Answer := getString p.2 "answer";
     PeopleAlsoAsk.Title := getString p.2 "title";
     PeopleAlsoAsk.Link := getString p.2 "link";
     PeopleAlsoAsk.Source := sourceOf p.2 |}.

Definition newsOf (imageOf thumbnailOf : gmap string any → string)
    (p : nat * gmap string any) : NewsResult.t :=
  {| NewsResult.Position := Z.of_nat p.1 + 1;
     NewsResult.Title := getString p.2 "title";
     NewsResult.Link := getString p.2 "link";
     NewsResult.Source := getString p.2 "source";
     NewsResult.Date := getString p.2 "date";
     NewsResult.Snippet := getString p.2 "snippet";
     NewsResult.ImageURL := imageOf p.2;
     NewsResult.Thumbnail := thumbnailOf p.2 |}.

Definition imageOf (imageKey thumbnailKey : string)
    (p : nat * gmap string any) : ImageResult.t :=
  {| ImageResult.Position := Z.of_nat p.1 + 1;
     ImageResult.Title := getString p.2 "title";
     ImageResult.ImageURL := getString p.2 imageKey;
     ImageResult.Thumbnail := getString p.2 thumbnailKey;
     ImageResult.Source := getString p.2 "source";
     ImageResult.SourceURL := getString p.2 "link";
     ImageResult.Width := 0;
     ImageResult.Height := 0;
     ImageResult.IsProduct := false |}.

Definition echoOf (searchParams : gmap string any) (md : SearchMetadata.t)
    : SearchMetadata.t :=
  {| SearchMetadata.Engine := SearchMetadata.Engine md;
     SearchMetadata.Query := getString searchParams "q";
     SearchMetadata.Location := getString searchParams "location";
     SearchMetadata.Language := getString searchParams "hl";
     SearchMetadata.Country := getString searchParams "gl";
     SearchMetadata.TotalResults := SearchMetadata.TotalResults md;
     SearchMetadata.TimeTaken := SearchMetadata.TimeTaken md |}.

(** [normalizeSerperSearch] and [normalizeSerpAPISearch] without their
    loops, the keys and the engine-specific fields being parameters. *)
Definition searchSpec (kOrganic kAnswerBox kKnowledgeGraph kImage kRelated
    kPeopleAlsoAsk kParams : string)
    (answerSource relatedLink askSource : gmap string any → string)
    (data : gmap string any) (nz : NormalizedSearchResult.t)
    : NormalizedSearchResult.t :=
  {| OrganicResults :=
       OrganicResults nz ++ (organicOf <$> mapItems 0 (sliceOf data kOrganic));
     AnswerBox :=
       from_option (Some ∘ answerBoxOf answerSource) (AnswerBox nz)
         (assertMap (data !! kAnswerBox));
     KnowledgeGraph :=
       from_option (Some ∘ knowledgeGraphOf kImage) (KnowledgeGraph nz)
         (assertMap (data !! kKnowledgeGraph));
     RelatedSearches :=
       RelatedSearches nz ++
       (relatedSearchOf relatedLink <$> mapItems 0 (sliceOf data kRelated));
     PeopleAlsoAsk :=
       PeopleAlsoAsk nz ++
       (peopleAlsoAskOf askSource <$> mapItems 0 (sliceOf data kPeopleAlsoAsk));
     NewsResults := NewsResults nz;
     ImageResults := ImageResults nz;
     VideoResults := VideoResults nz;
     PlaceResults := PlaceResults nz;
     ShoppingResults := ShoppingResults nz;
     ScholarResults := ScholarResults nz;
     Suggestions := Suggestions nz;
     SearchMetadata :=
       from_option (λ sp, echoOf sp (SearchMetadata nz)) (SearchMetadata nz)
         (assertMap (data !! kParams));
     Raw := Raw nz |}.

Definition noField (_ : gmap string any) : string := "".

(** *** The registry after a sequence of [Register] calls *)

Section RegistryVocabulary.

Context {Engine : Type} `{EngineLike Engine}.

(** The registry after registering [es], first to last, in a new one. *)
Definition registerAll (es : list Engine) : Registry Engine :=
  foldl (λ r engine, Register engine r) NewRegistry es.

(** The engine registered last under exactly [name], if any. *)
Definition lastRegistered (name : string) (es : list Engine) : option Engine :=
  last (List.filter (λ engine, String.eqb (GetName engine) name) es).

End RegistryVocabulary.

(** ** Sample inputs *)

(** A stand-in for the Unicode path of [strings.ToLower] where the
    functions are run on ASCII engine names, which never reach it. *)
Definition noUnicode (s : string) : string := s.

(** A store with one [SearchResult], at location 1, whose [Data] is the
    document [data]. *)
Definition storeOf (data : gmap string any) : gmap positive SearchResult.t :=
  {[ 1%positive := SearchResult.mk (AMap data) "" ]}.

(** The payload [[]]: a JSON array at the root. *)
Definition arrayRoot : gmap positive SearchResult.t :=
  {[ 1%positive := SearchResult.mk (ASlice []) "[]" ]}.

(** The number 7 as [encoding/json] decodes it. *)
Definition seven : any := AFloat64 (S754_finite false 7 0).

(** [{"organic": [{"title": 7, "link": "https://a"}]}]: a title that is not
    a string, and no snippet. *)
Definition mistypedDocument : gmap string any :=
  {[ "organic" :=
       ASlice [ AMap {[ "title" := seven; "link" := AString "https://a" ]} ] ]}.

(** [{"organic": ["junk", {"title": "T", "position": 9}]}]: an element that
    is not a keyed mapping before one that is. *)
Definition gappedDocument : gmap string any :=
  {[ "organic" :=
       ASlice [ AString "junk";
                AMap {[ "title" := AString "T";
                        "position" := AFloat64 (S754_finite false 9 0) ]} ] ]}.

(** [{"searchParameters": {"hl": "en"}}]: an echo block without [q]. *)
Definition echoWithoutQuery : gmap string any :=
  {[ "searchParameters" := AMap {[ "hl" := AString "en" ]} ]}.

(** [{"searchParameters": {"q": "golang", "gl": "us"}}] *)
Definition echoDocument : gmap string any :=
  {[ "searchParameters" :=
       AMap {[ "q" := AString "golang"; "gl" := AString "us" ]} ]}.

(** A store with a Serper document at location 1 and a SerpAPI document at
    location 2. *)
Definition twoDocuments (ds da : gmap string any)
    : gmap positive SearchResult.t :=
  {[ 1%positive := SearchResult.mk (AMap ds) "";
     2%positive := SearchResult.mk (AMap da) "" ]}.

(** The documents of the repository's test [TestNormalizerUnifiedStructure]. *)
Definition unifiedItem : any :=
  AMap {[ "title" := AString "Test Result";
          "link" := AString "https://example.com";
          "snippet" := AString "Test snippet" ]}.

Definition serperUnified : gmap string any :=
  {[ "organic" := ASlice [ unifiedItem ] ]}.

Definition serpapiUnified : gmap string any :=
  {[ "organic_results" := ASlice [ unifiedItem ] ]}.

(** An answer box with a source, a related search with a link and a
    people-also-ask entry with a displayed link, under the keys of each
    engine. *)
Definition featuredAnswerBox : any :=
  AMap {[ "title" := AString "AB"; "source" := AString "S" ]}.

Definition featuredRelated : any :=
  ASlice [ AMap {[ "query" := AString "Q"; "link" := AString "L" ]} ].

Definition featuredQuestions : any :=
  ASlice [ AMap {[ "question" := AString "W";
                   "displayed_link" := AString "D" ]} ].

Definition serperFeatured : gmap string any :=
  {[ "answerBox" := featuredAnswerBox;
     "relatedSearches" := featuredRelated;
     "peopleAlsoAsk" := featuredQuestions ]}.

Definition serpapiFeatured : gmap string any :=
  {[ "answer_box" := featuredAnswerBox;
     "related_searches" := featuredRelated;
     "related_questions" := featuredQuestions ]}.

(** Two engine values, as the client registers them: [serper] first, then
    [serpapi]. *)
Record SampleEngine : Type := mkSampleEngine {
  sampleName : string;
  sampleVersion : string;
  sampleTools : list string
}.

#[global] Instance SampleEngine_EngineLike : EngineLike SampleEngine := {
  GetName := sampleName;
  GetVersion := sampleVersion;
  GetSupportedTools := sampleTools
}.

Definition serperEngine : SampleEngine :=
  mkSampleEngine "serper" "1.0.0" ["google_search"].

Definition serpApiEngine : SampleEngine :=
  mkSampleEngine "serpapi" "1.0.0" ["google_search"].

(** The concrete scenarios of the specification. *)
Definition scenarioSerper : gmap string any :=
  {[ "organic" :=
       ASlice [ AMap {[ "title" := AString "T1"; "link" := AString "https://a";
                        "snippet" := AString "S1" ]};
                AMap {[ "title" := AString "T2"; "link" := AString "https://b" ]} ];
     "answerBox" := AMap {[ "title" := AString "AB"; "answer" := AString "X" ]} ]}.

Definition scenarioSerpAPI : gmap string any :=
  {[ "organic_results" :=
       ASlice [ AMap {[ "title" := AString "T1";
                        "link" := AString "https://a" ]} ] ]}.

Definition scenarioNotAnArray : gmap string any :=
  {[ "organic" := AString "not-an-array" ]}.

(** *** Engine selection *)

(** The name [GetDefaultEngine] looks for: the value of [SEARCH_ENGINE], or
    [serper] when it is unset or empty. *)
Definition selectedName (getenv : string → string) : string :=
  if String.eqb (getenv "SEARCH_ENGINE") "" then "serper"
  else getenv "SEARCH_ENGINE".

(** Environments: nothing set, and only [SEARCH_ENGINE] set. *)
Definition emptyEnv (_ : string) : string := "".

Definition searchEngineEnv (value : string) (name : string) : string :=
  if String.eqb name "SEARCH_ENGINE" then value else "".

(** A third engine, under a name of its own. *)
Definition otherEngine : SampleEngine :=
  mkSampleEngine "other" "0.1.0" ["google_search"].

(** *** The engines' requests *)

(** The methods of the two engines that send a search request through
    [makeRequest], as functions of it. *)
Definition serperRequestMethods {World : Type}
    : list ((serper.Engine → string → gmap string apiValue → IO World Reply) →
            serper.Engine → SearchParams.t → IO World Reply) :=
  [ serper.Search; serper.SearchNews; serper.SearchImages;
    serper.SearchVideos; serper.SearchPlaces; serper.SearchMaps;
    serper.SearchReviews; serper.SearchShopping; serper.SearchScholar;
    serper.SearchLens; serper.SearchAutocomplete ].

Definition serpapiRequestMethods {World : Type}
    : list ((serpapi.Engine → gmap string string → IO World Reply) →
            serpapi.Engine → SearchParams.t → IO World Reply) :=
  [ serpapi.Search; serpapi.SearchNews; serpapi.SearchImages;
    serpapi.SearchVideos; serpapi.SearchPlaces; serpapi.SearchMaps;
    serpapi.SearchReviews; serpapi.SearchShopping; serpapi.SearchScholar;
    serpapi.SearchAutocomplete ].

(** A request value as a decoded JSON document holds it: a string as it
    is, an integer as the [float64] nearest to it. *)
Definition echoed (v : apiValue) : any :=
  match v with
  | VString s => AString s
  | VInt n => AFloat64 (binary_normalize 53 1024 n 0 false)
  end.

(** The operation names of the client. *)
Definition allOperations : list string :=
  [ client.OpSearch; client.OpSearchNews; client.OpSearchImages;
    client.OpSearchVideos; client.OpSearchPlaces; client.OpSearchMaps;
    client.OpSearchReviews; client.OpSearchShopping; client.OpSearchScholar;
    client.OpSearchLens; client.OpSearchAutocomplete;
    client.OpScrapeWebpage ].

Definition sampleParams : SearchParams.t :=
  SearchParams.mk "golang" "" "en" "" 10.

(** What [buildParams] puts under the key of an optional string
    parameter: nothing when the parameter is empty. *)
Definition optionalParam (value : string) : option string :=
  if String.eqb value "" then None else Some value.

(** A [makeRequest] that is offline: it answers every request with an
    error and leaves the world as it is. *)
Definition offline {World Request : Type} (_ : Request) : IO World Reply :=
  ioReturn (None, Some (ErrLeaf "offline")).

(** *** The client *)

(** The search proxies of the client: the operation each checks, the
    proxy, and the engine method it forwards to. *)
Definition searchProxies {Engine Net : Type} `{EngineLike Engine}
    `{EngineIO.t Engine (gmap positive SearchResult.t * Net)}
    : list (string *
            (client.Client Engine → SearchParams.t →
             IO (gmap positive SearchResult.t * Net) Reply) *
            (Engine → SearchParams.t →
             IO (gmap positive SearchResult.t * Net) Reply)) :=
  [ (client.OpSearch, client.Search, EngineIO.Search);
    (client.OpSearchNews, client.SearchNews, EngineIO.SearchNews);
    (client.OpSearchImages, client.SearchImages, EngineIO.SearchImages);
    (client.OpSearchVideos, client.SearchVideos, EngineIO.SearchVideos);
    (client.OpSearchPlaces, client.SearchPlaces, EngineIO.SearchPlaces);
    (client.OpSearchMaps, client.SearchMaps, EngineIO.SearchMaps);
    (client.OpSearchReviews, client.SearchReviews, EngineIO.SearchReviews);
    (client.OpSearchShopping, client.SearchShopping, EngineIO.SearchShopping);
    (client.OpSearchScholar, client.SearchScholar, EngineIO.SearchScholar);
    (client.OpSearchLens, client.SearchLens, EngineIO.SearchLens);
    (client.OpSearchAutocomplete, client.SearchAutocomplete,
     EngineIO.SearchAutocomplete) ].

(** The methods of the shipped engines with every request answered
    offline, in a world without a network. *)
Definition offlineIO : EngineIO.t ShippedEngine (gmap positive SearchResult.t * unit) :=
  ShippedEngine_IO (λ e endpoint, offline) (λ e, offline) (λ e, offline)
    (λ _, None).

Definition serpapiClient : client.Client ShippedEngine :=
  client.mk (registerAll [SerperEngine (serper.mk "k1");
                          SerpAPIEngine (serpapi.mk "k2")])
    (Some (SerpAPIEngine (serpapi.mk "k2"))).

(** The normalised searches of the client, each with the search it runs
    first. *)
Definition normalizedSearches {Engine Net : Type} `{EngineLike Engine}
    `{EngineIO.t Engine (gmap positive SearchResult.t * Net)}
    (unicodeToLower : string → string)
    : list ((client.Client Engine → SearchParams.t →
             IO (gmap positive SearchResult.t * Net) Reply) *
            (client.Client Engine → SearchParams.t →
             IO (gmap positive SearchResult.t * Net)
                (option NormalizedSearchResult.t * option GoError))) :=
  [ (client.Search, client.SearchNormalized unicodeToLower);
    (client.SearchNews, client.SearchNewsNormalized unicodeToLower);
    (client.SearchImages, client.SearchImagesNormalized unicodeToLower) ].

(** The engines [NewWithOptions] registers: one for each API key the
    environment sets, Serper first. *)
Definition availableEngines (getenv : string → string) : list ShippedEngine :=
  (if String.eqb (getenv "SERPER_API_KEY") "" then []
   else [SerperEngine (serper.mk (getenv "SERPER_API_KEY"))]) ++
  (if String.eqb (getenv "SERPAPI_API_KEY") "" then []
   else [SerpAPIEngine (serpapi.mk (getenv "SERPAPI_API_KEY"))]).

(** An environment with the SerpAPI key only. *)
Definition serpapiKeyEnv (name : string) : string :=
  if String.eqb name "SERPAPI_API_KEY" then "k2" else "".

(** The methods of the shipped engines with every request answered by the
    [SearchResult] at location 1. *)
Definition cannedIO : EngineIO.t ShippedEngine (gmap positive SearchResult.t * unit) :=
  ShippedEngine_IO (λ e endpoint body, ioReturn (Some 1%positive, None))
    (λ e query, ioReturn (Some 1%positive, None))
    (λ e url, ioReturn (Some 1%positive, None)) (λ _, None).

Definition serperClient : client.Client ShippedEngine :=
  client.mk (registerAll [SerperEngine (serper.mk "k1")])
    (Some (SerperEngine (serper.mk "k1"))).

(** *** More vocabulary for the normaliser *)

(** The keyed mappings among the elements of an array, in order. *)
Definition keyedMappings (xs : list any) : list (gmap string any) :=
  omap (λ v, match v with AMap m => Some m | _ => None end) xs.

(** The keys of the featured blocks. *)
Definition answerBoxKey (engine : string) : string :=
  if String.eqb engine "serper" then "answerBox" else "answer_box".

Definition knowledgeGraphKey (engine : string) : string :=
  if String.eqb engine "serper" then "knowledgeGraph" else "knowledge_graph".

Definition knowledgeGraphImageKey (engine : string) : string :=
  if String.eqb engine "serper" then "imageUrl" else "image".


(** *** Scraping *)

(** A stand-in for [url.Parse] that rejects every URL. *)
Definition rejectingParse (_ : string) : option GoError :=
  Some (ErrLeaf "net/url: invalid control character in URL").

Definition rejectingIO : EngineIO.t ShippedEngine (gmap positive SearchResult.t * unit) :=
  ShippedEngine_IO (λ e endpoint body, ioReturn (Some 1%positive, None))
    (λ e query, ioReturn (Some 1%positive, None))
    (λ e url, ioReturn (Some 1%positive, None)) rejectingParse.

(** * Properties *)

(** ** The loops *)

(** A loop that appends [mk (i, m)] to one list of its state for every
    keyed mapping [m] it meets at index [i], and skips everything else,
    appends the image of [mapItems]. *)
Lemma forRange_collect {St A : Type} (get : St → list A)
    (set : list A → St → St) (mk : nat * gmap string any → A)
    (body : nat → any → St → St) :
  (∀ l st, get (set l st) = l) →
  (∀ l l' st, set l (set l' st) = set l st) →
  (∀ st, set (get st) st = st) →
  (∀ i item st,
     body i item st =
       match item with
       | AMap m => set (get st ++ [mk (i, m)]) st
       | _ => st
       end) →
  ∀ xs i st,
    forRange body i xs st = set (get st ++ (mk <$> mapItems i xs)) st.
Proof.
  intros Hgs Hss Hsg Hbody xs.
  induction xs as [|item xs IH]; intros i st; simpl.
  - by rewrite app_nil_r, Hsg.
  - rewrite IH, Hbody.
    destruct item; try done.
    by rewrite Hgs, Hss, fmap_cons, <- app_assoc.
Qed.

(** The same for the whole block [if xs, ok := data[key].([]any); ok { for
    ... }]. *)
Lemma slice_block {St A : Type} (get : St → list A)
    (set : list A → St → St) (mk : nat * gmap string any → A)
    (body : nat → any → St → St) (data : gmap string any) (key : string)
    (st : St) :
  (∀ l st, get (set l st) = l) →
  (∀ l l' st, set l (set l' st) = set l st) →
  (∀ st, set (get st) st = st) →
  (∀ i item st,
     body i item st =
       match item with
       | AMap m => set (get st ++ [mk (i, m)]) st
       | _ => st
       end) →
  match assertSlice (data !! key) with
  | Some xs => forRange body 0 xs st
  | None => st
  end = set (get st ++ (mk <$> mapItems 0 (sliceOf data key))) st.
Proof.
  intros Hgs Hss Hsg Hbody. unfold sliceOf.
  destruct (assertSlice (data !! key)) as [xs|]; simpl.
  - by apply forRange_collect.
  - by rewrite app_nil_r, Hsg.
Qed.

(** The getter and setter of a field of the result obey the lens laws, and
    a loop body is its own description, by computation. *)
Ltac lens :=
  intros;
  repeat match goal with
         | st : NormalizedSearchResult.t |- _ => destruct st
         end;
  reflexivity.

Lemma getString_assertString (m : gmap string any) (key : string) :
  getString m key = default "" (assertString (m !! key)).
Proof. unfold getString. by destruct (m !! key) as [[]|]. Qed.

(** ** The helpers without their loops *)

Lemma normalizeSerperSearch_spec (data : gmap string any)
    (nz : NormalizedSearchResult.t) :
  normalizeSerperSearch data nz =
    searchSpec "organic" "answerBox" "knowledgeGraph" "imageUrl"
      "relatedSearches" "peopleAlsoAsk" "searchParameters"
      (λ m, getString m "source") noField noField data nz.
Proof.
  unfold normalizeSerperSearch, searchSpec; cbv zeta.
  rewrite (slice_block OrganicResults set_OrganicResults organicOf
             _ _ "organic") by lens.
  rewrite (slice_block RelatedSearches set_RelatedSearches
             (relatedSearchOf noField) _ _ "relatedSearches") by lens.
  rewrite (slice_block PeopleAlsoAsk set_PeopleAlsoAsk
             (peopleAlsoAskOf noField) _ _ "peopleAlsoAsk") by lens.
  destruct (assertMap (data !! "answerBox")),
    (assertMap (data !! "knowledgeGraph")),
    (assertMap (data !! "searchParameters")); destruct nz; reflexivity.
Qed.

Lemma normalizeSerpAPISearch_spec (data : gmap string any)
    (nz : NormalizedSearchResult.t) :
  normalizeSerpAPISearch data nz =
    searchSpec "organic_results" "answer_box" "knowledge_graph" "image"
      "related_searches" "related_questions" "search_parameters"
      noField (λ m, getString m "link") (λ m, getString m "displayed_link")
      data nz.
Proof.
  unfold normalizeSerpAPISearch, searchSpec; cbv zeta.
  rewrite (slice_block OrganicResults set_OrganicResults organicOf
             _ _ "organic_results") by lens.
  rewrite (slice_block RelatedSearches set_RelatedSearches
             (relatedSearchOf (λ m, getString m "link"))
             _ _ "related_searches") by lens.
  rewrite (slice_block PeopleAlsoAsk set_PeopleAlsoAsk
             (peopleAlsoAskOf (λ m, getString m "displayed_link"))
             _ _ "related_questions") by lens.
  destruct (assertMap (data !! "answer_box")),
    (assertMap (data !! "knowledge_graph")),
    (assertMap (data !! "search_parameters")); destruct nz; reflexivity.
Qed.

Lemma normalizeSerperNews_spec (data : gmap string any)
    (nz : NormalizedSearchResult.t) :
  normalizeSerperNews data nz =
    set_NewsResults
      (NewsResults nz ++
       (newsOf (λ m, getString m "imageUrl") (λ m, getString m "imageUrl")
          <$> mapItems 0 (sliceOf data "news"))) nz.
Proof.
  unfold normalizeSerperNews.
  by rewrite (slice_block NewsResults set_NewsResults
                (newsOf (λ m, getString m "imageUrl")
                   (λ m, getString m "imageUrl")) _ _ "news") by lens.
Qed.

(** Updating the element just appended. *)
Lemma alter_last {A : Type} (f : A → A) (l : list A) (x : A) :
  alter f (length (l ++ [x]) - 1)%nat (l ++ [x]) = l ++ [f x].
Proof.
  rewrite length_app; simpl.
  replace (length l + 1 - 1)%nat with (length l + 0)%nat by lia.
  by rewrite alter_app_r.
Qed.

Lemma normalizeSerpAPINews_spec (data : gmap string any)
    (nz : NormalizedSearchResult.t) :
  normalizeSerpAPINews data nz =
    set_NewsResults
      (NewsResults nz ++
       (newsOf noField (λ m, getString m "thumbnail")
          <$> mapItems 0 (sliceOf data "news_results"))) nz.
Proof.
  unfold normalizeSerpAPINews.
  rewrite (slice_block NewsResults set_NewsResults
             (newsOf noField (λ m, getString m "thumbnail"))
             _ _ "news_results"); try lens.
  intros i [] st; try reflexivity; cbv zeta.
  unfold newsOf; simpl fst; simpl snd.
  rewrite (getString_assertString m "thumbnail").
  destruct (assertString (m !! "thumbnail")) as [thumb|]; [|reflexivity].
  destruct st; cbn [NewsResults set_NewsResults].
  by rewrite alter_last.
Qed.

Lemma normalizeSerperImages_spec (data : gmap string any)
    (nz : NormalizedSearchResult.t) :
  normalizeSerperImages data nz =
    set_ImageResults
      (ImageResults nz ++
       (imageOf "imageUrl" "imageUrl" <$> mapItems 0 (sliceOf data "images")))
      nz.
Proof.
  unfold normalizeSerperImages.
  by rewrite (slice_block ImageResults set_ImageResults
                (imageOf "imageUrl" "imageUrl") _ _ "images") by lens.
Qed.

Lemma normalizeSerpAPIImages_spec (data : gmap string any)
    (nz : NormalizedSearchResult.t) :
  normalizeSerpAPIImages data nz =
    set_ImageResults
      (ImageResults nz ++
       (imageOf "original" "thumbnail"
          <$> mapItems 0 (sliceOf data "images_results"))) nz.
Proof.
  unfold normalizeSerpAPIImages.
  by rewrite (slice_block ImageResults set_ImageResults
                (imageOf "original" "thumbnail") _ _ "images_results") by lens.
Qed.

(** ** The exported functions on a map-rooted input *)

Lemma NormalizeSearch_mapRooted (n : Normalizer) (result : option loc)
    (query : string) (σ : Store) (data : gmap string any) :
  mapRooted σ result data →
  NormalizeSearch n result query σ =
    let normalized := literal (engineName n) query result in
    if String.eqb (engineName n) "serper" then
      Some ((Some (normalizeSerperSearch data normalized), None), σ)
    else if String.eqb (engineName n) "serpapi" then
      Some ((Some (normalizeSerpAPISearch data normalized), None), σ)
    else Some ((None, Some ("unsupported engine: " +:+ engineName n)), σ).
Proof.
  intros (p & r & -> & Hp & Hd). unfold NormalizeSearch. by rewrite Hp, Hd.
Qed.

Lemma NormalizeNews_mapRooted (n : Normalizer) (result : option loc)
    (query : string) (σ : Store) (data : gmap string any) :
  mapRooted σ result data →
  NormalizeNews n result query σ =
    let normalized := literal (engineName n) query result in
    if String.eqb (engineName n) "serper" then
      Some ((Some (normalizeSerperNews data normalized), None), σ)
    else if String.eqb (engineName n) "serpapi" then
      Some ((Some (normalizeSerpAPINews data normalized), None), σ)
    else Some ((None, Some ("unsupported engine: " +:+ engineName n)), σ).
Proof.
  intros (p & r & -> & Hp & Hd). unfold NormalizeNews. by rewrite Hp, Hd.
Qed.

Lemma NormalizeImages_mapRooted (n : Normalizer) (result : option loc)
    (query : string) (σ : Store) (data : gmap string any) :
  mapRooted σ result data →
  NormalizeImages n result query σ =
    let normalized := literal (engineName n) query result in
    if String.eqb (engineName n) "serper" then
      Some ((Some (normalizeSerperImages data normalized), None), σ)
    else if String.eqb (engineName n) "serpapi" then
      Some ((Some (normalizeSerpAPIImages data normalized), None), σ)
    else Some ((None, Some ("unsupported engine: " +:+ engineName n)), σ).
Proof.
  intros (p & r & -> & Hp & Hd). unfold NormalizeImages. by rewrite Hp, Hd.
Qed.

(** With a supported engine every map-rooted input is normalised: the three
    functions return a result and no error. *)
Lemma supported_succeeds (n : Normalizer) (result : option loc)
    (query : string) (σ : Store) (data : gmap string any) :
  supported n → mapRooted σ result data →
  (∃ nz, succeeds (NormalizeSearch n result query σ) nz σ) ∧
  (∃ nz, succeeds (NormalizeNews n result query σ) nz σ) ∧
  (∃ nz, succeeds (NormalizeImages n result query σ) nz σ).
Proof.
  intros Hn Hroot. unfold succeeds.
  rewrite (NormalizeSearch_mapRooted _ _ _ _ _ Hroot),
    (NormalizeNews_mapRooted _ _ _ _ _ Hroot),
    (NormalizeImages_mapRooted _ _ _ _ _ Hroot).
  destruct Hn as [-> | ->]; simpl; repeat split; eauto.
Qed.

(** ** Malformed input *)

(** C4. Whatever the engine name and the query, when the input pointer is
    nil, or the [Data] it points to is nil or is not a keyed mapping (an
    array, a scalar), [NormalizeSearch], [NormalizeNews] and
    [NormalizeImages] each return a nil result together with a
    malformed-response error, and leave the store as it was. *)
Theorem malformed_input_is_error (n : Normalizer) (result : option loc)
    (query : string) (σ : Store) :
  notMapRooted σ result →
  ∃ msg, MalformedResponse msg ∧
    NormalizeSearch n result query σ = Some ((None, Some msg), σ) ∧
    NormalizeNews n result query σ = Some ((None, Some msg), σ) ∧
    NormalizeImages n result query σ = Some ((None, Some msg), σ).
Proof.
  unfold notMapRooted, NormalizeSearch, NormalizeNews, NormalizeImages,
    MalformedResponse.
  destruct result as [p|];
    [|intros _; exists "nil result or data"; split; [by left | done]].
  intros (r & -> & Hd).
  destruct (SearchResult.Data r) as [| b | f | s | xs | m] eqn:E.
  1: exists "nil result or data"; split; [by left | done].
  5: by destruct (Hd m).
  all: match goal with
       | E : SearchResult.Data _ = ?v |- _ =>
           exists ("unexpected data type: " +:+ typeName v);
           split; [right; by exists v | done]
       end.
Qed.

Lemma malformed_input_is_error_witness :
  notMapRooted arrayRoot (Some 1%positive) ∧
  ∃ msg, MalformedResponse msg ∧
    NormalizeSearch (mkNormalizer "serper") (Some 1%positive) "q" arrayRoot
      = Some ((None, Some msg), arrayRoot) ∧
    NormalizeNews (mkNormalizer "serper") (Some 1%positive) "q" arrayRoot
      = Some ((None, Some msg), arrayRoot) ∧
    NormalizeImages (mkNormalizer "serper") (Some 1%positive) "q" arrayRoot
      = Some ((None, Some msg), arrayRoot).
Proof.
  assert (H : notMapRooted arrayRoot (Some 1%positive)).
  { eexists; split; [reflexivity | discriminate]. }
  split; [exact H | exact (malformed_input_is_error _ _ _ _ H)].
Defined.

(** ** Unsupported engines *)

Section UnsupportedEngine.

Variable unicodeToLower : string → string.

(** C5. A normaliser made by [NewNormalizer] for a name whose lower-cased
    form is neither [serper] nor [serpapi] answers every map-rooted input
    with a nil result and the unsupported-engine error, in
    [NormalizeSearch], [NormalizeNews] and [NormalizeImages] alike. *)
Theorem unsupported_engine_is_error (name : string) (result : option loc)
    (query : string) (σ : Store) (data : gmap string any) :
  ToLower unicodeToLower name ≠ "serper" →
  ToLower unicodeToLower name ≠ "serpapi" →
  mapRooted σ result data →
  ∃ msg, UnsupportedProvider msg ∧
    NormalizeSearch (NewNormalizer unicodeToLower name) result query σ
      = Some ((None, Some msg), σ) ∧
    NormalizeNews (NewNormalizer unicodeToLower name) result query σ
      = Some ((None, Some msg), σ) ∧
    NormalizeImages (NewNormalizer unicodeToLower name) result query σ
      = Some ((None, Some msg), σ).
Proof.
  intros Hserper Hserpapi Hroot.
  exists ("unsupported engine: " +:+ ToLower unicodeToLower name).
  split; [by eexists|].
  rewrite (NormalizeSearch_mapRooted _ _ _ _ _ Hroot),
    (NormalizeNews_mapRooted _ _ _ _ _ Hroot),
    (NormalizeImages_mapRooted _ _ _ _ _ Hroot).
  apply String.eqb_neq in Hserper, Hserpapi.
  cbn [NewNormalizer engineName]. by rewrite Hserper, Hserpapi.
Qed.

End UnsupportedEngine.

Lemma storeOf_mapRooted (data : gmap string any) :
  mapRooted (storeOf data) (Some 1%positive) data.
Proof.
  exists 1%positive, (SearchResult.mk (AMap data) ""). split; [done|].
  split; [apply lookup_singleton_eq | done].
Qed.

Lemma unsupported_engine_is_error_witness :
  ToLower noUnicode "Google" ≠ "serper" ∧
  ToLower noUnicode "Google" ≠ "serpapi" ∧
  mapRooted (storeOf ∅) (Some 1%positive) ∅ ∧
  ∃ msg, UnsupportedProvider msg ∧
    NormalizeSearch (NewNormalizer noUnicode "Google") (Some 1%positive) "q"
      (storeOf ∅) = Some ((None, Some msg), (storeOf ∅)) ∧
    NormalizeNews (NewNormalizer noUnicode "Google") (Some 1%positive) "q"
      (storeOf ∅) = Some ((None, Some msg), (storeOf ∅)) ∧
    NormalizeImages (NewNormalizer noUnicode "Google") (Some 1%positive) "q"
      (storeOf ∅) = Some ((None, Some msg), (storeOf ∅)).
Proof.
  assert (H1 : ToLower noUnicode "Google" ≠ "serper") by (vm_compute; discriminate).
  assert (H2 : ToLower noUnicode "Google" ≠ "serpapi") by (vm_compute; discriminate).
  pose proof (storeOf_mapRooted ∅) as H3.
  repeat split; try assumption.
  exact (unsupported_engine_is_error noUnicode "Google" _ "q" _ _ H1 H2 H3).
Defined.

(** ** The search-parameters echo *)

(** The metadata [NormalizeSearch] returns: the echo block when it is a
    keyed mapping, the caller's query otherwise. *)
Lemma NormalizeSearch_metadata (n : Normalizer) (result : option loc)
    (query : string) (σ : Store) (data : gmap string any) :
  supported n → mapRooted σ result data →
  ∃ nz, succeeds (NormalizeSearch n result query σ) nz σ ∧
    SearchMetadata nz =
      from_option
        (λ sp, echoOf sp (SearchMetadata.mk (engineName n) query "" "" "" 0
                            (S754_zero false)))
        (SearchMetadata.mk (engineName n) query "" "" "" 0 (S754_zero false))
        (assertMap (data !! echoKey (engineName n))).
Proof.
  intros Hn Hroot. unfold succeeds.
  rewrite (NormalizeSearch_mapRooted _ _ _ _ _ Hroot).
  destruct Hn as [-> | ->]; simpl; eexists; (split; [reflexivity|]).
  - by rewrite normalizeSerperSearch_spec.
  - by rewrite normalizeSerpAPISearch_spec.
Qed.

(** C7. When the document holds the engine's search-parameters block as a
    keyed mapping ([searchParameters] for serper, [search_parameters] for
    serpapi), the metadata [NormalizeSearch] returns has the block's [q],
    [location], [hl] and [gl] as its query, location, language and country,
    whatever query the caller passed: a string the block holds under one of
    these keys is the value of the field, and a key the block lacks, or
    holds with a value that is no string, leaves the field empty. When the
    block is absent, the query is the caller's. *)
Theorem echo_block_overrides_caller (n : Normalizer) (result : option loc)
    (query : string) (σ : Store) (data : gmap string any) :
  supported n → mapRooted σ result data →
  ∃ nz, succeeds (NormalizeSearch n result query σ) nz σ ∧
    (∀ searchParams,
       data !! echoKey (engineName n) = Some (AMap searchParams) →
       (∀ s, searchParams !! "q" = Some (AString s) →
             SearchMetadata.Query (SearchMetadata nz) = s) ∧
       (∀ s, searchParams !! "location" = Some (AString s) →
             SearchMetadata.Location (SearchMetadata nz) = s) ∧
       (∀ s, searchParams !! "hl" = Some (AString s) →
             SearchMetadata.Language (SearchMetadata nz) = s) ∧
       (∀ s, searchParams !! "gl" = Some (AString s) →
             SearchMetadata.Country (SearchMetadata nz) = s) ∧
       SearchMetadata.Query (SearchMetadata nz)
         = match searchParams !! "q" with Some (AString s) => s | _ => "" end ∧
       SearchMetadata.Location (SearchMetadata nz)
         = match searchParams !! "location" with
           | Some (AString s) => s
           | _ => ""
           end ∧
       SearchMetadata.Language (SearchMetadata nz)
         = match searchParams !! "hl" with Some (AString s) => s | _ => "" end ∧
       SearchMetadata.Country (SearchMetadata nz)
         = match searchParams !! "gl" with Some (AString s) => s | _ => "" end ∧
       SearchMetadata.Query (SearchMetadata nz) = getString searchParams "q" ∧
       SearchMetadata.Location (SearchMetadata nz)
         = getString searchParams "location" ∧
       SearchMetadata.Language (SearchMetadata nz) = getString searchParams "hl" ∧
       SearchMetadata.Country (SearchMetadata nz) = getString searchParams "gl") ∧
    (data !! echoKey (engineName n) = None →
       SearchMetadata.Query (SearchMetadata nz) = query).
Proof.
  intros Hn Hroot.
  destruct (NormalizeSearch_metadata n result query σ data Hn Hroot)
    as (nz & Hnz & Hmd).
  exists nz. split; [done|]. rewrite Hmd.
  split; [intros sp -> | by intros ->].
  simpl. unfold getString.
  repeat split; by intros s ->.
Qed.

(** On [echoDocument] and the caller's query [caller query]: the query and
    the country are those of the block, the location and the language,
    which the block lacks, are empty. *)
Lemma echo_block_overrides_caller_witness :
  ∃ nz, succeeds (NormalizeSearch (mkNormalizer "serper") (Some 1%positive)
                    "caller query" (storeOf echoDocument)) nz
          (storeOf echoDocument) ∧
    SearchMetadata.Query (SearchMetadata nz) = "golang" ∧
    SearchMetadata.Country (SearchMetadata nz) = "us" ∧
    SearchMetadata.Location (SearchMetadata nz) = "" ∧
    SearchMetadata.Language (SearchMetadata nz) = "".
Proof.
  destruct (echo_block_overrides_caller (mkNormalizer "serper")
              (Some 1%positive) "caller query" (storeOf echoDocument)
              echoDocument)
    as (nz & Hnz & Hblock & _).
  - left; reflexivity.
  - apply storeOf_mapRooted.
  - exists nz. split; [exact Hnz|].
    destruct (Hblock {[ "q" := AString "golang"; "gl" := AString "us" ]})
      as (Hq & _ & _ & Hgl & _ & Hlocation & Hhl & _).
    + reflexivity.
    + split; [apply Hq; reflexivity|]. split; [apply Hgl; reflexivity|].
      split; [exact Hlocation | exact Hhl].
Defined.

(** C10. The override is per block, not per key: once the block is a keyed
    mapping, each of the four metadata fields whose key the block lacks is
    the empty string, so a block without [q] replaces the caller's query by
    the empty string. *)
Theorem echo_block_blanks_absent_keys (n : Normalizer) (result : option loc)
    (query : string) (σ : Store) (data searchParams : gmap string any) :
  supported n → mapRooted σ result data →
  data !! echoKey (engineName n) = Some (AMap searchParams) →
  ∃ nz, succeeds (NormalizeSearch n result query σ) nz σ ∧
    (searchParams !! "q" = None →
       SearchMetadata.Query (SearchMetadata nz) = "") ∧
    (searchParams !! "location" = None →
       SearchMetadata.Location (SearchMetadata nz) = "") ∧
    (searchParams !! "hl" = None →
       SearchMetadata.Language (SearchMetadata nz) = "") ∧
    (searchParams !! "gl" = None →
       SearchMetadata.Country (SearchMetadata nz) = "").
Proof.
  intros Hn Hroot Hecho.
  destruct (NormalizeSearch_metadata n result query σ data Hn Hroot)
    as (nz & Hnz & Hmd).
  exists nz. split; [done|]. rewrite Hmd, Hecho. simpl. unfold getString.
  repeat split; by intros ->.
Qed.

Lemma echo_block_blanks_absent_keys_witness :
  ∃ nz, succeeds (NormalizeSearch (mkNormalizer "serper") (Some 1%positive)
                    "caller query" (storeOf echoWithoutQuery)) nz
          (storeOf echoWithoutQuery) ∧
    (({[ "hl" := AString "en" ]} : gmap string any) !! "q" = None →
       SearchMetadata.Query (SearchMetadata nz) = "") ∧
    (({[ "hl" := AString "en" ]} : gmap string any) !! "location" = None →
       SearchMetadata.Location (SearchMetadata nz) = "") ∧
    (({[ "hl" := AString "en" ]} : gmap string any) !! "hl" = None →
       SearchMetadata.Language (SearchMetadata nz) = "") ∧
    (({[ "hl" := AString "en" ]} : gmap string any) !! "gl" = None →
       SearchMetadata.Country (SearchMetadata nz) = "").
Proof.
  apply (echo_block_blanks_absent_keys (mkNormalizer "serper")
           (Some 1%positive) "caller query" (storeOf echoWithoutQuery)
           echoWithoutQuery {[ "hl" := AString "en" ]}).
  - left; reflexivity.
  - apply storeOf_mapRooted.
  - reflexivity.
Defined.

(** The run behind the witness: the caller's query is gone. *)
Example echo_without_query_run :
  NormalizeSearch (mkNormalizer "serper") (Some 1%positive) "caller query"
    (storeOf echoWithoutQuery)
  = Some ((Some (set_SearchMetadata
                   (SearchMetadata.mk "serper" "" "" "en" "" 0 (S754_zero false))
                   (literal "serper" "caller query" (Some 1%positive))),
           None), storeOf echoWithoutQuery).
Proof. reflexivity. Qed.

(** ** The back-reference and the store *)

Lemma searchSpec_Raw k1 k2 k3 k4 k5 k6 k7 f1 f2 f3 data nz :
  Raw (searchSpec k1 k2 k3 k4 k5 k6 k7 f1 f2 f3 data nz) = Raw nz.
Proof. reflexivity. Qed.

(** C8. Whatever a call of [NormalizeSearch], [NormalizeNews] or
    [NormalizeImages] returns, the store of [SearchResult] values is
    afterwards what it was before; and when the call returns a result, the
    error is nil and the result's [Raw] is the very pointer passed in. *)
Theorem raw_is_input_and_store_unchanged (n : Normalizer)
    (result : option loc) (query : string) (σ σ' : Store)
    (res : option NormalizedSearchResult.t) (err : option string) :
  NormalizeSearch n result query σ = Some ((res, err), σ') ∨
  NormalizeNews n result query σ = Some ((res, err), σ') ∨
  NormalizeImages n result query σ = Some ((res, err), σ') →
  σ' = σ ∧ ∀ nz, res = Some nz → Raw nz = result ∧ err = None.
Proof.
  unfold NormalizeSearch, NormalizeNews, NormalizeImages.
  destruct result as [p|]; [|by intros [H | [H | H]]; simplify_eq].
  destruct (σ !! p) as [r|]; [|by intros [H | [H | H]]].
  destruct (SearchResult.Data r);
    try (by intros [H | [H | H]]; simplify_eq).
  cbv zeta.
  rewrite normalizeSerperSearch_spec, normalizeSerpAPISearch_spec,
    normalizeSerperNews_spec, normalizeSerpAPINews_spec,
    normalizeSerperImages_spec, normalizeSerpAPIImages_spec.
  destruct (String.eqb (engineName n) "serper");
    [|destruct (String.eqb (engineName n) "serpapi")];
    intros [H | [H | H]]; simplify_eq; split; try done;
    intros nz ?; by simplify_eq.
Qed.

Lemma raw_is_input_and_store_unchanged_witness :
  storeOf mistypedDocument = storeOf mistypedDocument ∧
  ∀ nz,
    Some (normalizeSerperSearch mistypedDocument
            (literal "serper" "q" (Some 1%positive))) = Some nz →
    Raw nz = Some 1%positive ∧ (None : option string) = None.
Proof.
  apply (raw_is_input_and_store_unchanged (mkNormalizer "serper")
           (Some 1%positive) "q" (storeOf mistypedDocument)).
  left. reflexivity.
Defined.

(** ** Positions and lengths *)

Lemma mapItems_length (i : nat) (xs : list any) :
  length (mapItems i xs) = length (List.filter isMap xs).
Proof.
  revert i. induction xs as [|[] xs IH]; intros i; simpl; auto.
Qed.

Lemma mapItems_all_maps (i : nat) (xs : list any) :
  forallb isMap xs = true → (mapItems i xs).*1 = seq i (length xs).
Proof.
  revert i. induction xs as [|x xs IH]; intros i Hall; [done|].
  apply andb_prop in Hall as [Hx Hxs].
  destruct x; try discriminate. simpl. by rewrite IH.
Qed.

Lemma filter_all_maps (xs : list any) :
  forallb isMap xs = true → List.filter isMap xs = xs.
Proof.
  induction xs as [|x xs IH]; [done|]. simpl.
  intros [-> Hxs]%andb_prop. by rewrite IH.
Qed.

(** The indices [mapItems] reports start at [i] and increase. *)
Lemma mapItems_indices (i : nat) (xs : list any) :
  Forall (λ j, i ≤ j)%nat (mapItems i xs).*1 ∧
  StronglySorted lt (mapItems i xs).*1.
Proof.
  revert i. induction xs as [|x xs IH]; intros i.
  - split; constructor.
  - destruct (IH (S i)) as [Hge Hsorted].
    assert (Forall (λ j, i ≤ j)%nat (mapItems (S i) xs).*1) as Hge'.
    { eapply Forall_impl; [exact Hge | simpl; lia]. }
    destruct x; simpl; try done.
    split; constructor; done.
Qed.

(** [(i, m)] is reported exactly when the array has the mapping [m] at
    index [i]. *)
Lemma elem_of_mapItems (xs : list any) (i0 i : nat) (m : gmap string any) :
  (i, m) ∈ mapItems i0 xs ↔ (i0 ≤ i)%nat ∧ xs !! (i - i0)%nat = Some (AMap m).
Proof.
  revert i0. induction xs as [|x xs IH]; intros i0.
  - simpl. rewrite elem_of_nil, lookup_nil. naive_solver.
  - assert ((i, m) ∈ mapItems (S i0) xs ↔
            (i0 ≤ i)%nat ∧ i ≠ i0 ∧ xs !! (i - S i0)%nat = Some (AMap m))
      as Htail.
    { rewrite IH. intuition lia. }
    destruct (lt_eq_lt_dec i i0) as [[Hlt | ->] | Hgt].
    + destruct x; simpl; rewrite ?elem_of_cons, Htail; naive_solver lia.
    + replace (i0 - i0)%nat with 0%nat by lia.
      destruct x; simpl; rewrite ?elem_of_cons, Htail; naive_solver lia.
    + replace (i - i0)%nat with (S (i - S i0)) by lia.
      destruct x; simpl; rewrite ?elem_of_cons, Htail; naive_solver lia.
Qed.

(** What each (engine, collection) pair yields: one output element per
    keyed mapping of the source array, carrying that element's index plus
    one where the collection is ranked. *)
Lemma collection_items (n : Normalizer) (c : Collection)
    (result : option loc) (query : string) (σ : Store)
    (data : gmap string any) :
  supported n → mapRooted σ result data →
  ∃ nz, succeeds (normalizeOf c n result query σ) nz σ ∧
    lengthOf c nz
      = length (mapItems 0 (sliceOf data (sourceKey (engineName n) c))) ∧
    (ranked c = true →
     positionsOf c nz
       = (λ p, Z.of_nat p.1 + 1)
           <$> mapItems 0 (sliceOf data (sourceKey (engineName n) c))).
Proof.
  intros Hn Hroot. unfold succeeds.
  destruct Hn as [Hn | Hn], c; simpl normalizeOf;
    rewrite ?(NormalizeSearch_mapRooted _ _ _ _ _ Hroot),
      ?(NormalizeNews_mapRooted _ _ _ _ _ Hroot),
      ?(NormalizeImages_mapRooted _ _ _ _ _ Hroot);
    rewrite Hn; simpl; (eexists; split; [reflexivity|]);
    rewrite ?normalizeSerperSearch_spec, ?normalizeSerpAPISearch_spec,
      ?normalizeSerperNews_spec, ?normalizeSerpAPINews_spec,
      ?normalizeSerperImages_spec, ?normalizeSerpAPIImages_spec;
    simpl; rewrite ?length_fmap; (split; [done|]);
    intros; try discriminate; by rewrite <- list_fmap_compose.
Qed.

Lemma positions_of_indices (l : list (nat * gmap string any)) :
  (λ p, Z.of_nat p.1 + 1) <$> l = (λ i, Z.of_nat i + 1) <$> l.*1.
Proof. by rewrite <- list_fmap_compose. Qed.

(** C2, as the code has it. For a ranked collection (organic, news or image
    results) of a successful normalisation, the [Position] values are the
    one-based indices, in the source array, of the elements that are keyed
    mappings, in increasing order: an element that is not a keyed mapping
    is skipped and leaves a gap. So they are exactly [1..N] when every
    element of the source array is a keyed mapping. No field of an element
    is consulted for them. *)
Theorem positions_are_source_indices (n : Normalizer) (c : Collection)
    (result : option loc) (query : string) (σ : Store)
    (data : gmap string any) :
  supported n → ranked c = true → mapRooted σ result data →
  ∃ nz, succeeds (normalizeOf c n result query σ) nz σ ∧
    let source := sliceOf data (sourceKey (engineName n) c) in
    (∀ pos, pos ∈ positionsOf c nz ↔
            ∃ i m, source !! i = Some (AMap m) ∧ pos = Z.of_nat i + 1) ∧
    StronglySorted Z.lt (positionsOf c nz) ∧
    length (positionsOf c nz) = length (List.filter isMap source) ∧
    (forallb isMap source = true →
     positionsOf c nz = oneTo (length source)).
Proof.
  intros Hn Hc Hroot.
  destruct (collection_items n c result query σ data Hn Hroot)
    as (nz & Hnz & _ & Hpos).
  exists nz. split; [done|]. cbv zeta. rewrite (Hpos Hc). clear Hpos.
  set (source := sliceOf data (sourceKey (engineName n) c)).
  split; [|split; [|split]].
  - intros pos. rewrite list_elem_of_fmap. split.
    + intros ([i m] & -> & Hin). apply elem_of_mapItems in Hin as [_ Hin].
      rewrite Nat.sub_0_r in Hin. by exists i, m.
    + intros (i & m & Hi & ->). exists (i, m). split; [done|].
      apply elem_of_mapItems. rewrite Nat.sub_0_r. split; [lia | done].
  - destruct (mapItems_indices 0 source) as [_ Hsorted].
    rewrite positions_of_indices.
    induction Hsorted as [|j js _ IH Hlt]; simpl; constructor; [done|].
    rewrite Forall_fmap. eapply Forall_impl; [exact Hlt | simpl; lia].
  - by rewrite length_fmap, mapItems_length.
  - intros Hall. unfold oneTo.
    by rewrite positions_of_indices, mapItems_all_maps.
Qed.

Lemma positions_are_source_indices_witness :
  ∃ nz, succeeds (normalizeOf COrganic (mkNormalizer "serper")
                    (Some 1%positive) "q" (storeOf gappedDocument)) nz
          (storeOf gappedDocument) ∧
    let source := sliceOf gappedDocument (sourceKey "serper" COrganic) in
    (∀ pos, pos ∈ positionsOf COrganic nz ↔
            ∃ i m, source !! i = Some (AMap m) ∧ pos = Z.of_nat i + 1) ∧
    StronglySorted Z.lt (positionsOf COrganic nz) ∧
    length (positionsOf COrganic nz) = length (List.filter isMap source) ∧
    (forallb isMap source = true →
     positionsOf COrganic nz = oneTo (length source)).
Proof.
  apply (positions_are_source_indices (mkNormalizer "serper") COrganic
           (Some 1%positive) "q" (storeOf gappedDocument) gappedDocument).
  - left; reflexivity.
  - reflexivity.
  - apply storeOf_mapRooted.
Defined.

(** C2, as the specification has it, fails: the organic array
    [["junk", {"title": "T", "position": 9}]] gives one organic result, and
    its position is 2, not 1. *)
Lemma contiguous_positions_counterexample :
  ∃ nz, succeeds (NormalizeSearch (mkNormalizer "serper") (Some 1%positive)
                    "q" (storeOf gappedDocument)) nz
          (storeOf gappedDocument) ∧
    positionsOf COrganic nz = [2] ∧
    positionsOf COrganic nz ≠ oneTo (length (positionsOf COrganic nz)).
Proof.
  eexists. split; [reflexivity|]. split; [reflexivity | discriminate].
Qed.

(** C3, as the code has it. The length of an output collection (organic
    results, related searches, people-also-ask, news results, image
    results) is the number of keyed mappings in the source array under the
    engine's key for it: elements that are not keyed mappings are skipped.
    It is the length of the source array when every element is a keyed
    mapping, and the collection is empty, with no error, when the key is
    absent or does not hold an array. *)
Theorem collection_length_counts_mappings (n : Normalizer) (c : Collection)
    (result : option loc) (query : string) (σ : Store)
    (data : gmap string any) :
  supported n → mapRooted σ result data →
  ∃ nz, succeeds (normalizeOf c n result query σ) nz σ ∧
    let key := sourceKey (engineName n) c in
    lengthOf c nz = length (List.filter isMap (sliceOf data key)) ∧
    (forallb isMap (sliceOf data key) = true →
     lengthOf c nz = length (sliceOf data key)) ∧
    (assertSlice (data !! key) = None → lengthOf c nz = 0%nat).
Proof.
  intros Hn Hroot.
  destruct (collection_items n c result query σ data Hn Hroot)
    as (nz & Hnz & Hlen & _).
  exists nz. split; [done|]. cbv zeta. rewrite Hlen, mapItems_length.
  split; [done|]. split.
  - intros Hall. by rewrite filter_all_maps.
  - unfold sliceOf. by intros ->.
Qed.

(** On [gappedDocument], whose [organic] array holds a string and a keyed
    mapping: the organic collection has one element for the two of the
    array, and the news collection, whose key the document lacks, is
    empty. *)
Lemma collection_length_counts_mappings_witness :
  (∃ nz, succeeds (normalizeOf COrganic (mkNormalizer "serper")
                     (Some 1%positive) "q" (storeOf gappedDocument)) nz
           (storeOf gappedDocument) ∧
     sliceOf gappedDocument (sourceKey "serper" COrganic)
       = [ AString "junk";
           AMap {[ "title" := AString "T";
                   "position" := AFloat64 (S754_finite false 9 0) ]} ] ∧
     lengthOf COrganic nz = 1%nat) ∧
  (∃ nz, succeeds (normalizeOf CNews (mkNormalizer "serper")
                     (Some 1%positive) "q" (storeOf gappedDocument)) nz
           (storeOf gappedDocument) ∧
     gappedDocument !! sourceKey "serper" CNews = None ∧
     lengthOf CNews nz = 0%nat).
Proof.
  split.
  - destruct (collection_length_counts_mappings (mkNormalizer "serper")
                COrganic (Some 1%positive) "q" (storeOf gappedDocument)
                gappedDocument)
      as (nz & Hnz & Hlen & _ & _).
    + left; reflexivity.
    + apply storeOf_mapRooted.
    + exists nz. split; [exact Hnz|]. split; [reflexivity | exact Hlen].
  - destruct (collection_length_counts_mappings (mkNormalizer "serper")
                CNews (Some 1%positive) "q" (storeOf gappedDocument)
                gappedDocument)
      as (nz & Hnz & _ & _ & Habsent).
    + left; reflexivity.
    + apply storeOf_mapRooted.
    + exists nz. split; [exact Hnz|]. split; [reflexivity|].
      apply Habsent. reflexivity.
Defined.

(** C3, as the specification has it, fails on the same document: the
    source array has two elements and the output collection one. *)
Lemma collection_length_counterexample :
  ∃ nz, succeeds (NormalizeSearch (mkNormalizer "serper") (Some 1%positive)
                    "q" (storeOf gappedDocument)) nz
          (storeOf gappedDocument) ∧
    gappedDocument !! "organic"
      = Some (ASlice [ AString "junk";
                       AMap {[ "title" := AString "T";
                               "position" := AFloat64 (S754_finite false 9 0) ]} ]) ∧
    length (OrganicResults nz) = 1%nat ∧
    length (OrganicResults nz) ≠ length (sliceOf gappedDocument "organic").
Proof.
  eexists. split; [reflexivity|]. split; [reflexivity|].
  split; [reflexivity | discriminate].
Qed.

(** Each output element holds, field by field, what the engine's table
    extracts from the keyed mapping it was built from. *)
Lemma collection_fields (n : Normalizer) (c : Collection)
    (result : option loc) (query : string) (σ : Store)
    (data : gmap string any) :
  supported n → mapRooted σ result data →
  ∃ nz, succeeds (normalizeOf c n result query σ) nz σ ∧
    fieldsOf c nz
      = (λ p, extract (fieldKeys (engineName n) c) p.2)
          <$> mapItems 0 (sliceOf data (sourceKey (engineName n) c)).
Proof.
  intros Hn Hroot. unfold succeeds.
  destruct Hn as [Hn | Hn], c; simpl normalizeOf;
    rewrite ?(NormalizeSearch_mapRooted _ _ _ _ _ Hroot),
      ?(NormalizeNews_mapRooted _ _ _ _ _ Hroot),
      ?(NormalizeImages_mapRooted _ _ _ _ _ Hroot);
    rewrite Hn; simpl; (eexists; split; [reflexivity|]);
    rewrite ?normalizeSerperSearch_spec, ?normalizeSerpAPISearch_spec,
      ?normalizeSerperNews_spec, ?normalizeSerpAPINews_spec,
      ?normalizeSerperImages_spec, ?normalizeSerpAPIImages_spec;
    simpl; by rewrite <- list_fmap_compose.
Qed.

(** ** Field extraction *)

Lemma getString_zero (m : gmap string any) (key : string) :
  (m !! key = None ∨ ∃ val, m !! key = Some val ∧ ∀ str, val ≠ AString str) →
  getString m key = "".
Proof.
  unfold getString. intros [-> | (val & -> & Hval)]; [done|].
  destruct val; try done. by destruct (Hval s).
Qed.

(** C6. Take an element of a source collection that is a keyed mapping,
    and a key that the element lacks or under which it holds something
    other than a string. Extraction of that key gives the empty string;
    the normalisation of the whole document still returns a result and no
    error; and in the output element built from that element, every field
    the engine's table reads from that key is the empty string. *)
Theorem missing_or_mistyped_field_is_zero (n : Normalizer) (c : Collection)
    (result : option loc) (query : string) (σ : Store)
    (data : gmap string any) (i : nat) (itemMap : gmap string any)
    (key : string) :
  supported n → mapRooted σ result data →
  sliceOf data (sourceKey (engineName n) c) !! i = Some (AMap itemMap) →
  (itemMap !! key = None ∨
   ∃ val, itemMap !! key = Some val ∧ ∀ str, val ≠ AString str) →
  getString itemMap key = "" ∧
  ∃ nz, succeeds (normalizeOf c n result query σ) nz σ ∧
    ∃ k fields, fieldsOf c nz !! k = Some fields ∧
      fields = extract (fieldKeys (engineName n) c) itemMap ∧
      ∀ j, fieldKeys (engineName n) c !! j = Some (Some key) →
           fields !! j = Some "".
Proof.
  intros Hn Hroot Hitem Hkey.
  pose proof (getString_zero _ _ Hkey) as Hzero. split; [done|].
  destruct (collection_fields n c result query σ data Hn Hroot)
    as (nz & Hnz & Hfields).
  exists nz. split; [done|].
  assert ((i, itemMap) ∈ mapItems 0 (sliceOf data (sourceKey (engineName n) c)))
    as [k Hk]%list_elem_of_lookup.
  { apply elem_of_mapItems. rewrite Nat.sub_0_r. split; [lia | done]. }
  exists k, (extract (fieldKeys (engineName n) c) itemMap).
  split; [by rewrite Hfields, list_lookup_fmap, Hk|]. split; [done|].
  intros j Hj. unfold extract. by rewrite list_lookup_fmap, Hj; simpl; f_equal.
Qed.

Lemma missing_or_mistyped_field_is_zero_witness :
  getString {[ "title" := seven; "link" := AString "https://a" ]} "title" = "" ∧
  ∃ nz, succeeds (normalizeOf COrganic (mkNormalizer "serper")
                    (Some 1%positive) "q" (storeOf mistypedDocument)) nz
          (storeOf mistypedDocument) ∧
    ∃ k fields, fieldsOf COrganic nz !! k = Some fields ∧
      fields = extract (fieldKeys "serper" COrganic)
                 {[ "title" := seven; "link" := AString "https://a" ]} ∧
      ∀ j, fieldKeys "serper" COrganic !! j = Some (Some "title") →
           fields !! j = Some "".
Proof.
  apply (missing_or_mistyped_field_is_zero (mkNormalizer "serper") COrganic
           (Some 1%positive) "q" (storeOf mistypedDocument) mistypedDocument
           0 {[ "title" := seven; "link" := AString "https://a" ]} "title").
  - left; reflexivity.
  - apply storeOf_mapRooted.
  - reflexivity.
  - right. exists seven. split; [reflexivity | discriminate].
Defined.

(** The run behind the witness: the title that is a number and the missing
    snippet and date are empty strings, the link is kept. *)
Example mistyped_title_run :
  NormalizeSearch (mkNormalizer "serper") (Some 1%positive) "q"
    (storeOf mistypedDocument)
  = Some ((Some (set_OrganicResults
                   [ OrganicResult.mk 1 "" "https://a" "https://a" "" "" "" ]
                   (literal "serper" "q" (Some 1%positive))),
           None), storeOf mistypedDocument).
Proof. reflexivity. Qed.

(** ** The two engines on the same content *)

Lemma twoDocuments_mapRooted (ds da : gmap string any) :
  mapRooted (twoDocuments ds da) (Some 1%positive) ds ∧
  mapRooted (twoDocuments ds da) (Some 2%positive) da.
Proof.
  split.
  - by exists 1%positive, (SearchResult.mk (AMap ds) "").
  - by exists 2%positive, (SearchResult.mk (AMap da) "").
Qed.

Lemma sameKnowledgeGraph_of (vs va : option any) :
  sameKnowledgeGraph vs va →
  from_option (Some ∘ knowledgeGraphOf "imageUrl") None (assertMap vs)
  = from_option (Some ∘ knowledgeGraphOf "image") None (assertMap va).
Proof.
  unfold sameKnowledgeGraph.
  destruct (assertMap vs) as [ms|], (assertMap va) as [ma|]; try done.
  intros (Htitle & Htype & Hdesc & Himage). simpl.
  unfold knowledgeGraphOf, getString.
  by rewrite Htitle, Htype, Hdesc, Himage.
Qed.

Section SameContent.

Variable unicodeToLower : string → string.

(** C1, as the code has it. On two inputs that hold the same content, one
    under Serper's keys and one under SerpAPI's, [NormalizeSearch] for
    [serper] and for [serpapi] both succeed, and the two results agree in
    every field but these: [SearchMetadata.Engine], which names the engine;
    [Raw], which refers each result back to its own input; and
    [AnswerBox.Source], [RelatedSearch.Link] and [PeopleAlsoAsk.Source],
    which only one of the two engines' tables fills. *)
Theorem providers_agree_on_shared_fields (results resulta : option loc)
    (query : string) (σ : Store) (ds da : gmap string any) :
  sameContent ds da → mapRooted σ results ds → mapRooted σ resulta da →
  ∃ nzs nza,
    succeeds (NormalizeSearch (NewNormalizer unicodeToLower "serper")
                results query σ) nzs σ ∧
    succeeds (NormalizeSearch (NewNormalizer unicodeToLower "serpapi")
                resulta query σ) nza σ ∧
    sharedPart nzs = sharedPart nza ∧
    SearchMetadata.Engine (SearchMetadata nzs) = "serper" ∧
    SearchMetadata.Engine (SearchMetadata nza) = "serpapi" ∧
    Raw nzs = results ∧ Raw nza = resulta.
Proof.
  intros [Horganic Hbox Hkg Hrelated Hpaa Hparams] Hs Ha. unfold succeeds.
  rewrite (NormalizeSearch_mapRooted _ _ _ _ _ Hs),
    (NormalizeSearch_mapRooted _ _ _ _ _ Ha).
  simpl. do 2 eexists. do 2 (split; [reflexivity|]).
  rewrite normalizeSerperSearch_spec, normalizeSerpAPISearch_spec.
  split.
  - cbv [sharedPart eraseEngine searchSpec sliceOf literal
         OrganicResults AnswerBox KnowledgeGraph RelatedSearches
         PeopleAlsoAsk NewsResults ImageResults VideoResults PlaceResults
         ShoppingResults ScholarResults Suggestions SearchMetadata Raw
         set_Raw set_AnswerBox set_RelatedSearches set_PeopleAlsoAsk
         set_SearchMetadata app].
    rewrite Horganic, Hbox, Hrelated, Hpaa, Hparams,
      (sameKnowledgeGraph_of _ _ Hkg).
    f_equal.
    + by destruct (assertMap (da !! "answer_box")).
    + by rewrite <- !list_fmap_compose.
    + by rewrite <- !list_fmap_compose.
    + by destruct (assertMap (da !! "search_parameters")).
  - simpl.
    by destruct (assertMap (ds !! "searchParameters")),
      (assertMap (da !! "search_parameters")).
Qed.

End SameContent.

Lemma providers_agree_on_shared_fields_witness :
  ∃ nzs nza,
    succeeds (NormalizeSearch (NewNormalizer noUnicode "serper")
                (Some 1%positive) "test"
                (twoDocuments serperUnified serpapiUnified)) nzs
      (twoDocuments serperUnified serpapiUnified) ∧
    succeeds (NormalizeSearch (NewNormalizer noUnicode "serpapi")
                (Some 2%positive) "test"
                (twoDocuments serperUnified serpapiUnified)) nza
      (twoDocuments serperUnified serpapiUnified) ∧
    sharedPart nzs = sharedPart nza ∧
    SearchMetadata.Engine (SearchMetadata nzs) = "serper" ∧
    SearchMetadata.Engine (SearchMetadata nza) = "serpapi" ∧
    Raw nzs = Some 1%positive ∧ Raw nza = Some 2%positive.
Proof.
  apply (providers_agree_on_shared_fields noUnicode (Some 1%positive)
           (Some 2%positive) "test"
           (twoDocuments serperUnified serpapiUnified)
           serperUnified serpapiUnified).
  - split; first [reflexivity | exact I].
  - apply twoDocuments_mapRooted.
  - apply twoDocuments_mapRooted.
Defined.

(** C1, as the specification has it, fails. The two documents below hold
    the same answer box, related search and people-also-ask entry under the
    keys of each engine; the results differ in the answer box's source, in
    the related search's link, in the people-also-ask source and in the
    back-reference, so they are not equal up to the engine name. *)
Lemma equal_except_engine_counterexample :
  sameContent serperFeatured serpapiFeatured ∧
  ∃ nzs nza,
    succeeds (NormalizeSearch (NewNormalizer noUnicode "serper")
                (Some 1%positive) "q"
                (twoDocuments serperFeatured serpapiFeatured)) nzs
      (twoDocuments serperFeatured serpapiFeatured) ∧
    succeeds (NormalizeSearch (NewNormalizer noUnicode "serpapi")
                (Some 2%positive) "q"
                (twoDocuments serperFeatured serpapiFeatured)) nza
      (twoDocuments serperFeatured serpapiFeatured) ∧
    ¬ equalExceptEngine nzs nza ∧
    AnswerBox.Source <$> AnswerBox nzs = Some "S" ∧
    AnswerBox.Source <$> AnswerBox nza = Some "" ∧
    RelatedSearch.Link <$> RelatedSearches nzs = [""] ∧
    RelatedSearch.Link <$> RelatedSearches nza = ["L"] ∧
    PeopleAlsoAsk.Source <$> PeopleAlsoAsk nzs = [""] ∧
    PeopleAlsoAsk.Source <$> PeopleAlsoAsk nza = ["D"] ∧
    Raw nzs = Some 1%positive ∧ Raw nza = Some 2%positive.
Proof.
  split; [split; first [reflexivity | exact I]|].
  do 2 eexists. do 2 (split; [reflexivity|]).
  split; [|repeat split; reflexivity].
  unfold equalExceptEngine. intros H.
  apply (f_equal AnswerBox) in H. vm_compute in H. discriminate H.
Qed.

(** ** The registry *)

Section RegistryProperties.

Context {Engine : Type} `{EngineLike Engine}.

Lemma registerAll_snoc (es : list Engine) (engine : Engine) :
  registerAll (es ++ [engine]) = Register engine (registerAll es).
Proof. unfold registerAll. by rewrite foldl_snoc. Qed.

Lemma registerAll_lookup (es : list Engine) (name : string) :
  engines (registerAll es) !! name = lastRegistered name es.
Proof.
  induction es as [|engine es IH] using rev_ind; [done|].
  rewrite registerAll_snoc. unfold lastRegistered, Register in *. simpl.
  rewrite List.filter_app. simpl.
  destruct (String.eqb_spec (GetName engine) name) as [-> | Hne].
  - by rewrite lookup_insert_eq, last_snoc.
  - by rewrite lookup_insert_ne, app_nil_r.
Qed.

Lemma registerAll_dom (es : list Engine) :
  dom (engines (registerAll es)) = list_to_set (GetName <$> es).
Proof.
  induction es as [|engine es IH] using rev_ind; [set_solver|].
  rewrite registerAll_snoc. unfold Register. simpl.
  rewrite dom_insert_L, IH, fmap_app, list_to_set_app_L. set_solver.
Qed.

Lemma registerAll_is_Some (es : list Engine) (name : string) :
  is_Some (engines (registerAll es) !! name) ↔ name ∈ GetName <$> es.
Proof. rewrite <- elem_of_dom, registerAll_dom. set_solver. Qed.

(** The orders an iteration over a map may take are the duplicate-free
    lists of its keys. *)
Lemma rangeOrder_iff {V : Type} (m : gmap string V) (order : list string) :
  rangeOrder m order ↔ NoDup order ∧ ∀ name, name ∈ order ↔ is_Some (m !! name).
Proof.
  unfold rangeOrder.
  assert (∀ name, name ∈ (map_to_list m).*1 ↔ is_Some (m !! name)) as Hkeys.
  { intros name. rewrite list_elem_of_fmap. split.
    - intros ([k v] & -> & Hin). apply elem_of_map_to_list in Hin. by exists v.
    - intros [v Hv]. exists (name, v). by rewrite elem_of_map_to_list. }
  pose proof (NoDup_fst_map_to_list m) as Hnodup.
  split.
  - intros Hperm. split; [by rewrite Hperm|].
    intros name. by rewrite Hperm.
  - intros [Hnd Hin]. apply NoDup_Permutation; [done | done |].
    intros name. by rewrite Hin, Hkeys.
Qed.

Lemma List_order (r : Registry Engine) (order : list string) :
  List r order = order.
Proof.
  unfold List.
  assert (∀ acc, foldl (λ names name, names ++ [name]) acc order
                 = acc ++ order) as Hfold.
  { induction order as [|name order IH]; intros acc; simpl.
    - by rewrite app_nil_r.
    - by rewrite IH, <- app_assoc. }
  apply Hfold.
Qed.

(** C9, as the code has it. The registry is a collection keyed by name,
    with no order of its own: after any sequence of [Register] calls, [Get]
    returns the engine registered last under exactly that name, with
    [true], or nil with [false] when there is none; and [List] returns every
    registered name exactly once, in the order the map iteration happens to
    take, which may be any. *)
Theorem registry_lookup_and_enumeration (es : list Engine) :
  let r := registerAll es in
  (∀ name,
     Get r name
       = (lastRegistered name es, bool_decide (name ∈ GetName <$> es))) ∧
  (∀ order,
     rangeOrder (engines r) order ↔
     NoDup order ∧ ∀ name, name ∈ order ↔ name ∈ GetName <$> es) ∧
  (∀ order, List r order = order).
Proof.
  cbv zeta. split; [|split].
  - intros name. unfold Get. rewrite registerAll_lookup. f_equal.
    apply bool_decide_ext. rewrite <- registerAll_lookup.
    apply registerAll_is_Some.
  - intros order. rewrite rangeOrder_iff.
    by setoid_rewrite registerAll_is_Some.
  - apply List_order.
Qed.

End RegistryProperties.

(** Registering in either order gives the same registry: it keeps no trace
    of the order of insertion. *)
Lemma registerAll_order_forgotten :
  registerAll [serperEngine; serpApiEngine]
  = registerAll [serpApiEngine; serperEngine].
Proof.
  unfold registerAll, Register. simpl.
  by rewrite (insert_insert_ne _ "serper" "serpapi").
Qed.

(** C9, as the specification has it, fails: with [serper] registered before
    [serpapi], the iteration may take [serpapi] first, and [List] then
    returns the names in that order, not in the order of insertion. *)
Lemma insertion_order_counterexample :
  let r := registerAll [serperEngine; serpApiEngine] in
  GetName <$> [serperEngine; serpApiEngine] = ["serper"; "serpapi"] ∧
  rangeOrder (engines r) ["serpapi"; "serper"] ∧
  List r ["serpapi"; "serper"] = ["serpapi"; "serper"] ∧
  List r ["serpapi"; "serper"] ≠ GetName <$> [serperEngine; serpApiEngine].
Proof.
  cbv zeta. split; [reflexivity|]. split; [|split; [reflexivity|discriminate]].
  apply rangeOrder_iff. split.
  - repeat constructor; set_solver.
  - intros name. rewrite registerAll_is_Some. set_solver.
Qed.

(** ** The concrete scenarios of the specification *)

Example NewNormalizer_lowers :
  NewNormalizer noUnicode "SerpAPI" = mkNormalizer "serpapi".
Proof. reflexivity. Qed.

Example scenario_serper :
  NormalizeSearch (NewNormalizer noUnicode "serper") (Some 1%positive) "q"
    (storeOf scenarioSerper)
  = Some ((Some (set_AnswerBox (Some (AnswerBox.mk "" "AB" "X" "" "" ""))
                   (set_OrganicResults
                      [ OrganicResult.mk 1 "T1" "https://a" "https://a" "S1" "" "";
                        OrganicResult.mk 2 "T2" "https://b" "https://b" "" "" "" ]
                      (literal "serper" "q" (Some 1%positive)))),
           None), storeOf scenarioSerper).
Proof. reflexivity. Qed.

Example scenario_serpapi :
  NormalizeSearch (NewNormalizer noUnicode "serpapi") (Some 1%positive) "q"
    (storeOf scenarioSerpAPI)
  = Some ((Some (set_OrganicResults
                   [ OrganicResult.mk 1 "T1" "https://a" "https://a" "" "" "" ]
                   (literal "serpapi" "q" (Some 1%positive))),
           None), storeOf scenarioSerpAPI).
Proof. reflexivity. Qed.

Example scenario_not_an_array :
  NormalizeSearch (NewNormalizer noUnicode "serper") (Some 1%positive) "q"
    (storeOf scenarioNotAnArray)
  = Some ((Some (literal "serper" "q" (Some 1%positive)), None),
          storeOf scenarioNotAnArray).
Proof. reflexivity. Qed.

Example scenario_array_root :
  NormalizeSearch (NewNormalizer noUnicode "serper") (Some 1%positive) "q"
    arrayRoot
  = Some ((None, Some "unexpected data type: []interface {}"), arrayRoot).
Proof. reflexivity. Qed.

(** * Beyond the claims *)

(** ** The registry: its invariant and its copies *)

Section RegistryCopies.

Context {Engine : Type} `{EngineLike Engine}.

(** A loop that copies, for every key it visits, the image of the entry of
    [m] into a map. *)
Lemma foldl_copy_lookup {A B : Type} (m : gmap string A) (g : A → B)
    (order : list string) (acc : gmap string B) (k : string) :
  foldl (λ acc name,
           match m !! name with
           | Some x => <[name := g x]> acc
           | None => acc
           end) acc order !! k
  = if decide (k ∈ order)
    then match m !! k with Some x => Some (g x) | None => acc !! k end
    else acc !! k.
Proof.
  revert acc. induction order as [|name order IH]; intros acc; cbn [foldl].
  - rewrite decide_False; [done | set_solver].
  - rewrite IH. destruct (decide (k = name)) as [-> | Hne].
    + destruct (m !! name) as [x|] eqn:Hx.
      * rewrite lookup_insert_eq.
        repeat case_decide; try done; set_solver.
      * repeat case_decide; try done; set_solver.
    + assert (k ∈ name :: order ↔ k ∈ order) as Hin by set_solver.
      destruct (m !! name) as [x|]; rewrite ?lookup_insert_ne by done;
        repeat case_decide; try done; tauto.
Qed.

Lemma foldl_copy {A B : Type} (m : gmap string A) (g : A → B)
    (order : list string) :
  rangeOrder m order →
  foldl (λ acc name,
           match m !! name with
           | Some x => <[name := g x]> acc
           | None => acc
           end) ∅ order = g <$> m.
Proof.
  intros [_ Hin]%rangeOrder_iff. apply map_eq. intros k.
  rewrite foldl_copy_lookup, lookup_fmap, lookup_empty.
  case_decide as Hk.
  - by destruct (m !! k).
  - destruct (m !! k) eqn:Hm; [|done]. destruct Hk. apply Hin. by eexists.
Qed.

Lemma registered_key_is_name_helper (es : list Engine) (name : string)
    (engine : Engine) :
  engines (registerAll es) !! name = Some engine → GetName engine = name.
Proof.
  rewrite registerAll_lookup. unfold lastRegistered. intros Hlast.
  assert (In engine (List.filter (λ e, String.eqb (GetName e) name) es))
    as [_ Heq]%List.filter_In.
  { apply list_elem_of_In. rewrite last_Some in Hlast.
    destruct Hlast as [l' ->]. set_solver. }
  by apply String.eqb_eq.
Qed.

(** X1. Every entry of a registry built by [Register] calls sits under the
    name its engine reports, and is one of the engines registered. *)
Theorem registered_key_is_name (es : list Engine) (name : string)
    (engine : Engine) :
  engines (registerAll es) !! name = Some engine →
  GetName engine = name ∧ engine ∈ es.
Proof.
  intros Hname. split; [by eapply registered_key_is_name_helper|].
  rewrite registerAll_lookup in Hname. unfold lastRegistered in Hname.
  rewrite last_Some in Hname. destruct Hname as [l' Hfilter].
  assert (In engine (List.filter (λ e, String.eqb (GetName e) name) es))
    as [Hin _]%List.filter_In.
  { apply list_elem_of_In. rewrite Hfilter. set_solver. }
  by apply list_elem_of_In.
Qed.

Lemma GetAll_copy (r : Registry Engine) (order : list string) :
  rangeOrder (engines r) order → GetAll r order = engines r.
Proof.
  intros Horder. unfold GetAll.
  pose proof (foldl_copy (engines r) id order Horder) as Hcopy.
  unfold id in Hcopy at 1. rewrite Hcopy. apply map_fmap_id.
Qed.

(** X2. Whichever order its iteration takes, [GetAll] returns a map with
    exactly the entries of the registry, so that looking a name up in the
    copy gives what [Get] gives. *)
Theorem GetAll_is_engines (r : Registry Engine) (order : list string) :
  rangeOrder (engines r) order →
  GetAll r order = engines r ∧
  ∀ name, Get r name
          = (GetAll r order !! name, bool_decide (is_Some (GetAll r order !! name))).
Proof.
  intros Horder. rewrite (GetAll_copy _ _ Horder). by split.
Qed.

(** X3. Whichever orders the two iterations take, [GetAllEngineInfo]
    describes exactly the registered names: under each, the information of
    the engine registered last under it, whose [Name] is that very name. *)
Theorem GetAllEngineInfo_registered (es : list Engine)
    (orderAll order : list string) (name : string) :
  rangeOrder (engines (registerAll es)) orderAll →
  rangeOrder (GetAll (registerAll es) orderAll) order →
  GetAllEngineInfo (registerAll es) orderAll order !! name
    = GetEngineInfo <$> lastRegistered name es ∧
  ∀ info, GetAllEngineInfo (registerAll es) orderAll order !! name = Some info →
          EngineInfo.Name info = name.
Proof.
  intros HorderAll Horder. unfold GetAllEngineInfo. cbv zeta.
  rewrite (foldl_copy _ GetEngineInfo order Horder),
    (GetAll_copy _ _ HorderAll), lookup_fmap.
  split; [by rewrite registerAll_lookup|].
  intros info Hinfo. apply fmap_Some in Hinfo as (engine & Hengine & ->).
  by apply registered_key_is_name_helper in Hengine.
Qed.

End RegistryCopies.

Lemma sample_rangeOrder :
  rangeOrder (engines (registerAll [serperEngine; serpApiEngine]))
    ["serpapi"; "serper"].
Proof.
  apply rangeOrder_iff. split.
  - repeat constructor; set_solver.
  - intros name. rewrite registerAll_is_Some. set_solver.
Qed.

Lemma registered_key_is_name_witness :
  GetName serpApiEngine = "serpapi" ∧
  serpApiEngine ∈ [serperEngine; serpApiEngine].
Proof.
  apply (registered_key_is_name [serperEngine; serpApiEngine] "serpapi"
           serpApiEngine).
  reflexivity.
Defined.

Lemma GetAll_is_engines_witness :
  GetAll (registerAll [serperEngine; serpApiEngine]) ["serpapi"; "serper"]
  = engines (registerAll [serperEngine; serpApiEngine]) ∧
  ∀ name, Get (registerAll [serperEngine; serpApiEngine]) name
          = (GetAll (registerAll [serperEngine; serpApiEngine])
               ["serpapi"; "serper"] !! name,
             bool_decide (is_Some (GetAll (registerAll [serperEngine; serpApiEngine])
                                     ["serpapi"; "serper"] !! name))).
Proof.
  apply (GetAll_is_engines (registerAll [serperEngine; serpApiEngine])
           ["serpapi"; "serper"]).
  exact sample_rangeOrder.
Defined.

Lemma GetAllEngineInfo_registered_witness :
  GetAllEngineInfo (registerAll [serperEngine; serpApiEngine])
    ["serpapi"; "serper"] ["serper"; "serpapi"] !! "serper"
    = GetEngineInfo <$> lastRegistered "serper" [serperEngine; serpApiEngine] ∧
  ∀ info,
    GetAllEngineInfo (registerAll [serperEngine; serpApiEngine])
      ["serpapi"; "serper"] ["serper"; "serpapi"] !! "serper" = Some info →
    EngineInfo.Name info = "serper".
Proof.
  apply (GetAllEngineInfo_registered [serperEngine; serpApiEngine]
           ["serpapi"; "serper"] ["serper"; "serpapi"] "serper").
  - exact sample_rangeOrder.
  - rewrite (GetAll_copy _ _ sample_rangeOrder).
    apply rangeOrder_iff. split.
    + repeat constructor; set_solver.
    + intros name. rewrite registerAll_is_Some. set_solver.
Defined.


(** ** [GetDefaultEngine] *)

Section DefaultEngine.

Context {Engine : Type} `{EngineLike Engine}.

Lemma Get_Some (r : Registry Engine) (name : string) (engine : Engine) :
  engines r !! name = Some engine → Get r name = (Some engine, true).
Proof. intros Hname. unfold Get. rewrite Hname. by rewrite bool_decide_eq_true_2. Qed.

Lemma Get_None (r : Registry Engine) (name : string) :
  engines r !! name = None → Get r name = (None, false).
Proof.
  intros Hname. unfold Get. rewrite Hname.
  rewrite bool_decide_eq_false_2; [done | by intros [? ?]].
Qed.

Lemma rangeOrder_nil {V : Type} (m : gmap string V) :
  rangeOrder m [] ↔ m = ∅.
Proof.
  rewrite rangeOrder_iff. split.
  - intros [_ Hin]. apply map_empty. intros k.
    destruct (m !! k) eqn:Hk; [|done].
    exfalso. eapply not_elem_of_nil, Hin. by eexists.
  - intros ->. split; [constructor|]. intros k.
    rewrite lookup_empty. split; [by intros ?%not_elem_of_nil | by intros [? ?]].
Qed.

Lemma GetDefaultEngine_unfold (getenv : string → string)
    (r : Registry Engine) (order : list string) :
  GetDefaultEngine getenv r order =
    match engines r !! selectedName getenv with
    | Some engine => (Some engine, None)
    | None =>
        match order with
        | [] => (None, Some "no search engines available")
        | firstEngine :: _ =>
            match engines r !! "serper" with
            | Some fallbackEngine =>
                (Some fallbackEngine,
                 Some ("engine '" +:+ selectedName getenv +:+
                       "' not found, falling back to 'serper'. Available engines: "
                       +:+ formatStrings order))
            | None =>
                (engines r !! firstEngine,
                 Some ("engine '" +:+ selectedName getenv +:+
                       "' not found, falling back to '" +:+ firstEngine +:+
                       "'. Available engines: " +:+ formatStrings order))
            end
        end
    end.
Proof.
  unfold GetDefaultEngine. cbv zeta. fold (selectedName getenv).
  rewrite List_order.
  destruct (engines r !! selectedName getenv) as [engine|] eqn:Hsel.
  - by rewrite (Get_Some _ _ _ Hsel).
  - rewrite (Get_None _ _ Hsel). destruct order as [|firstEngine order]; [done|].
    destruct (engines r !! "serper") as [fallback|] eqn:Hserper.
    + by rewrite (Get_Some _ _ _ Hserper).
    + by rewrite (Get_None _ _ Hserper).
Qed.

(** X4. When the engine named by [SEARCH_ENGINE] - or [serper], when the
    variable is unset or empty - is registered, [GetDefaultEngine] returns
    it with a nil error, whatever else is registered. *)
Theorem default_engine_selected (getenv : string → string)
    (r : Registry Engine) (order : list string) (engine : Engine) :
  engines r !! (if String.eqb (getenv "SEARCH_ENGINE") "" then "serper"
                else getenv "SEARCH_ENGINE") = Some engine →
  GetDefaultEngine getenv r order = (Some engine, None).
Proof.
  intros Hsel. rewrite GetDefaultEngine_unfold. unfold selectedName.
  by rewrite Hsel.
Qed.

(** X5. [GetDefaultEngine] returns a nil engine exactly when the registry
    is empty; an engine it returns is a registered one, also when it comes
    with an error; and the error is nil exactly when the selected engine is
    registered. *)
Theorem default_engine_nil_iff_empty (getenv : string → string)
    (r : Registry Engine) (order : list string) :
  rangeOrder (engines r) order →
  (fst (GetDefaultEngine getenv r order) = None ↔ engines r = ∅) ∧
  (∀ engine, fst (GetDefaultEngine getenv r order) = Some engine →
             ∃ name, engines r !! name = Some engine) ∧
  (snd (GetDefaultEngine getenv r order) = None ↔
   is_Some (engines r !! selectedName getenv)).
Proof.
  intros Horder. rewrite GetDefaultEngine_unfold.
  destruct (engines r !! selectedName getenv) as [engine|] eqn:Hsel.
  { simpl. split; [|split].
    - split; [done|]. intros Hempty. by rewrite Hempty, lookup_empty in Hsel.
    - intros ? [= <-]. eauto.
    - split; [eauto | done]. }
  destruct order as [|firstEngine order].
  { apply rangeOrder_nil in Horder. simpl. split; [|split].
    - done.
    - by intros ? [=].
    - split; [done | by intros [? ?]]. }
  assert (is_Some (engines r !! firstEngine)) as [first Hfirst].
  { apply rangeOrder_iff in Horder as [_ Hin]. apply Hin. set_solver. }
  assert (engines r ≠ ∅) as Hne.
  { intros Hempty. by rewrite Hempty, lookup_empty in Hfirst. }
  destruct (engines r !! "serper") as [fallback|] eqn:Hserper; simpl.
  - split; [|split].
    + split; [done | by intros ?].
    + intros ? [= <-]. eauto.
    + split; [done | by intros [? ?]].
  - rewrite Hfirst. split; [|split].
    + split; [done | by intros ?].
    + intros ? [= <-]. eauto.
    + split; [done | by intros [? ?]].
Qed.

(** X6. When the selected engine is not registered but [serper] is,
    [GetDefaultEngine] returns the [serper] engine, whichever order the
    iteration takes, together with an error that names the engine asked for
    and lists the available ones. *)
Theorem default_engine_falls_back_to_serper (getenv : string → string)
    (r : Registry Engine) (order : list string) (fallback : Engine) :
  rangeOrder (engines r) order →
  engines r !! selectedName getenv = None →
  engines r !! "serper" = Some fallback →
  GetDefaultEngine getenv r order =
    (Some fallback,
     Some ("engine '" +:+ selectedName getenv +:+
           "' not found, falling back to 'serper'. Available engines: " +:+
           formatStrings order)).
Proof.
  intros Horder Hsel Hserper. rewrite GetDefaultEngine_unfold, Hsel.
  destruct order as [|firstEngine order]; [|by rewrite Hserper].
  apply rangeOrder_nil in Horder. by rewrite Horder, lookup_empty in Hserper.
Qed.

(** X7. When neither the selected engine nor [serper] is registered, the
    engine returned is the one the iteration meets first: every registered
    engine is the result for some order the iteration may take. *)
Theorem default_engine_is_first_visited (getenv : string → string)
    (r : Registry Engine) (name : string) (engine : Engine) :
  engines r !! selectedName getenv = None →
  engines r !! "serper" = None →
  engines r !! name = Some engine →
  (∀ order, rangeOrder (engines r) (name :: order) →
            fst (GetDefaultEngine getenv r (name :: order)) = Some engine) ∧
  ∃ order, rangeOrder (engines r) (name :: order).
Proof.
  intros Hsel Hserper Hname. split.
  - intros order _. by rewrite GetDefaultEngine_unfold, Hsel, Hserper.
  - assert (name ∈ (map_to_list (engines r)).*1) as Hin.
    { apply list_elem_of_fmap. exists (name, engine).
      by rewrite elem_of_map_to_list. }
    apply elem_of_Permutation in Hin as [order Hperm].
    exists order. unfold rangeOrder. by rewrite Hperm.
Qed.

End DefaultEngine.


Lemma default_engine_selected_witness :
  GetDefaultEngine emptyEnv (registerAll [serpApiEngine; serperEngine])
    ["serpapi"; "serper"]
  = (Some serperEngine, None).
Proof.
  apply (default_engine_selected emptyEnv
           (registerAll [serpApiEngine; serperEngine]) ["serpapi"; "serper"]
           serperEngine).
  reflexivity.
Defined.

Lemma default_engine_nil_iff_empty_witness :
  (fst (GetDefaultEngine (searchEngineEnv "google")
          (registerAll [serperEngine; serpApiEngine]) ["serpapi"; "serper"])
   = None ↔ engines (registerAll [serperEngine; serpApiEngine]) = ∅) ∧
  (∀ engine,
     fst (GetDefaultEngine (searchEngineEnv "google")
            (registerAll [serperEngine; serpApiEngine]) ["serpapi"; "serper"])
     = Some engine →
     ∃ name, engines (registerAll [serperEngine; serpApiEngine]) !! name
             = Some engine) ∧
  (snd (GetDefaultEngine (searchEngineEnv "google")
          (registerAll [serperEngine; serpApiEngine]) ["serpapi"; "serper"])
   = None ↔
   is_Some (engines (registerAll [serperEngine; serpApiEngine])
              !! selectedName (searchEngineEnv "google"))).
Proof.
  apply (default_engine_nil_iff_empty (searchEngineEnv "google")
           (registerAll [serperEngine; serpApiEngine]) ["serpapi"; "serper"]).
  exact sample_rangeOrder.
Defined.

Lemma default_engine_falls_back_to_serper_witness :
  GetDefaultEngine (searchEngineEnv "google")
    (registerAll [serperEngine; serpApiEngine]) ["serpapi"; "serper"]
  = (Some serperEngine,
     Some ("engine '" +:+ selectedName (searchEngineEnv "google") +:+
           "' not found, falling back to 'serper'. Available engines: " +:+
           formatStrings ["serpapi"; "serper"])).
Proof.
  apply (default_engine_falls_back_to_serper (searchEngineEnv "google")
           (registerAll [serperEngine; serpApiEngine]) ["serpapi"; "serper"]
           serperEngine).
  - exact sample_rangeOrder.
  - reflexivity.
  - reflexivity.
Defined.

(** The message of that run. *)
Example default_engine_fallback_message :
  snd (GetDefaultEngine (searchEngineEnv "google")
         (registerAll [serperEngine; serpApiEngine]) ["serpapi"; "serper"])
  = Some "engine 'google' not found, falling back to 'serper'. Available engines: [serpapi serper]".
Proof. reflexivity. Qed.

Lemma default_engine_is_first_visited_witness :
  (∀ order,
     rangeOrder (engines (registerAll [serpApiEngine; otherEngine]))
       ("other" :: order) →
     fst (GetDefaultEngine (searchEngineEnv "google")
            (registerAll [serpApiEngine; otherEngine]) ("other" :: order))
     = Some otherEngine) ∧
  ∃ order, rangeOrder (engines (registerAll [serpApiEngine; otherEngine]))
             ("other" :: order).
Proof.
  apply (default_engine_is_first_visited (searchEngineEnv "google")
           (registerAll [serpApiEngine; otherEngine]) "other" otherEngine);
    reflexivity.
Defined.

(** ** The requests of the engines *)

(** What [makeRequest] sends under each key. *)
Lemma requestQuery_lookup (e : serpapi.Engine) (apiParams : gmap string string)
    (order : list string) (k : string) :
  rangeOrder apiParams order →
  serpapi.requestQuery e apiParams order !! k
  = match apiParams !! k with
    | Some value => Some [value]
    | None => if decide (k = "api_key") then Some [serpapi.apiKey e] else None
    end.
Proof.
  intros [_ Hin]%rangeOrder_iff. unfold serpapi.requestQuery. cbv zeta.
  rewrite foldl_copy_lookup.
  destruct (apiParams !! k) as [value|] eqn:Hk.
  - rewrite decide_True; [done|]. apply Hin. by eexists.
  - assert ((<["api_key" := [serpapi.apiKey e]]> ∅ : gmap string (list string))
              !! k
            = if decide (k = "api_key") then Some [serpapi.apiKey e] else None)
      as ->.
    { case_decide as Hkey; [subst; apply lookup_insert_eq|].
      by rewrite lookup_insert_ne, lookup_empty. }
    by case_decide.
Qed.

(** X8. The query values [makeRequest] assembles for SerpAPI do not depend
    on the order in which the parameters are visited: they are the
    parameters, one value each, and the engine's API key - provided no
    parameter is itself named [api_key], which would replace the key. *)
Theorem serpapi_query_carries_api_key (e : serpapi.Engine)
    (apiParams : gmap string string) (order : list string) :
  rangeOrder apiParams order →
  apiParams !! "api_key" = None →
  serpapi.requestQuery e apiParams order
  = <["api_key" := [serpapi.apiKey e]]> ((λ value, [value]) <$> apiParams).
Proof.
  intros Horder Hkey. apply map_eq. intros k.
  rewrite (requestQuery_lookup _ _ _ _ Horder).
  destruct (decide (k = "api_key")) as [-> | Hne].
  - by rewrite Hkey, lookup_insert_eq.
  - rewrite lookup_insert_ne, lookup_fmap by done.
    by destruct (apiParams !! k).
Qed.

Lemma serpapi_query_carries_api_key_witness :
  serpapi.requestQuery (serpapi.mk "secret")
    {[ "q" := "golang"; "engine" := "google" ]} ["q"; "engine"]
  = <["api_key" := ["secret"]]>
      ((λ value, [value]) <$> {[ "q" := "golang"; "engine" := "google" ]}).
Proof.
  apply (serpapi_query_carries_api_key (serpapi.mk "secret")
           {[ "q" := "golang"; "engine" := "google" ]} ["q"; "engine"]).
  - apply rangeOrder_iff. split.
    + repeat constructor; set_solver.
    + intros name.
      rewrite <- elem_of_dom, ?dom_insert_L, ?dom_singleton_L. set_solver.
  - reflexivity.
Defined.


Lemma optionalParam_Some (value s : string) :
  optionalParam value = Some s → s = value ∧ s ≠ "".
Proof.
  unfold optionalParam.
  destruct (String.eqb_spec value ""); [done|]. by intros [= <-].
Qed.

Lemma optionalParam_default (value : string) :
  default "" (optionalParam value) = value.
Proof. unfold optionalParam. by destruct (String.eqb_spec value ""). Qed.

Lemma serpapi_buildParams_lookup (e : serpapi.Engine) (params : SearchParams.t)
    (engine : string) :
  serpapi.buildParams e params engine !! "q" = Some (SearchParams.Query params) ∧
  serpapi.buildParams e params engine !! "engine" = Some engine ∧
  serpapi.buildParams e params engine !! "location"
    = optionalParam (SearchParams.Location params) ∧
  serpapi.buildParams e params engine !! "hl"
    = optionalParam (SearchParams.Language params) ∧
  serpapi.buildParams e params engine !! "gl"
    = optionalParam (SearchParams.Country params) ∧
  serpapi.buildParams e params engine !! "num"
    = (if (0 <? SearchParams.NumResults params)%Z
       then Some (pretty (SearchParams.NumResults params)) else None) ∧
  ∀ k, k ∉ ["q"; "engine"; "location"; "hl"; "gl"; "num"] →
       serpapi.buildParams e params engine !! k = None.
Proof.
  unfold serpapi.buildParams, optionalParam. cbv zeta.
  destruct (String.eqb (SearchParams.Location params) ""),
    (String.eqb (SearchParams.Language params) ""),
    (String.eqb (SearchParams.Country params) ""),
    (0 <? SearchParams.NumResults params)%Z; simpl negb; cbv iota.
  all: repeat split; try reflexivity.
  all: intros k Hk; rewrite ?lookup_insert_ne, ?lookup_singleton_ne; set_solver.
Qed.

(** The parameters of [SearchScholar] and [SearchAutocomplete] are those
    [buildParams] makes of the search parameters without the fields the
    method leaves out. *)
Lemma serpapi_scholar_params (e : serpapi.Engine) (params : SearchParams.t)
    {World : Type} (makeRequest : serpapi.Engine → gmap string string → IO World Reply) :
  serpapi.SearchScholar makeRequest e params
  = makeRequest e
      (serpapi.buildParams e
         (SearchParams.mk (SearchParams.Query params) ""
            (SearchParams.Language params) ""
            (SearchParams.NumResults params)) "google_scholar").
Proof. reflexivity. Qed.

Lemma serpapi_autocomplete_params (e : serpapi.Engine) (params : SearchParams.t)
    {World : Type} (makeRequest : serpapi.Engine → gmap string string → IO World Reply) :
  serpapi.SearchAutocomplete makeRequest e params
  = makeRequest e
      (serpapi.buildParams e
         (SearchParams.mk (SearchParams.Query params) ""
            (SearchParams.Language params) (SearchParams.Country params) 0)
         "google_autocomplete").
Proof. reflexivity. Qed.

(** X9. Every search request of the SerpAPI engine names a query and an
    engine, and no method builds a parameter called [api_key]: so what
    [makeRequest] sends always carries the engine's own API key, beside
    every parameter with its one value, whatever the order of the
    iteration. *)
Theorem serpapi_requests_are_authenticated {World : Type}
    (method : (serpapi.Engine → gmap string string → IO World Reply) →
              serpapi.Engine → SearchParams.t → IO World Reply)
    (e : serpapi.Engine) (params : SearchParams.t) :
  method ∈ serpapiRequestMethods →
  ∃ apiParams,
    (∀ makeRequest, method makeRequest e params = makeRequest e apiParams) ∧
    is_Some (apiParams !! "q") ∧ is_Some (apiParams !! "engine") ∧
    ∀ order, rangeOrder apiParams order →
      serpapi.requestQuery e apiParams order !! "api_key"
        = Some [serpapi.apiKey e] ∧
      ∀ k value, apiParams !! k = Some value →
                 serpapi.requestQuery e apiParams order !! k = Some [value].
Proof.
  intros Hmethod.
  assert (∀ apiParams : gmap string string,
            apiParams !! "api_key" = None →
            ∀ order, rangeOrder apiParams order →
              serpapi.requestQuery e apiParams order !! "api_key"
                = Some [serpapi.apiKey e] ∧
              ∀ k value, apiParams !! k = Some value →
                serpapi.requestQuery e apiParams order !! k = Some [value])
    as Hsent.
  { intros apiParams Hkey order Horder. split.
    - by rewrite (requestQuery_lookup _ _ _ _ Horder), Hkey.
    - intros k value Hk. by rewrite (requestQuery_lookup _ _ _ _ Horder), Hk. }
  assert (∀ p engine,
            serpapi.buildParams e p engine !! "api_key" = None ∧
            is_Some (serpapi.buildParams e p engine !! "q") ∧
            is_Some (serpapi.buildParams e p engine !! "engine")) as Hbuilt.
  { intros p engine.
    destruct (serpapi_buildParams_lookup e p engine)
      as (Hq & Hengine & _ & _ & _ & _ & Hother).
    rewrite Hq, Hengine. split; [apply Hother; set_solver | eauto]. }
  unfold serpapiRequestMethods in Hmethod.
  repeat (apply elem_of_cons in Hmethod as [-> | Hmethod]);
    [..| by apply elem_of_nil in Hmethod].
  all: try (eexists; split; [intros makeRequest; reflexivity|];
            destruct (Hbuilt params "google") as (? & ? & ?);
            by eauto).
  - (* SearchNews *)
    exists (serpapi.buildParams e params "google_news").
    destruct (Hbuilt params "google_news") as (? & ? & ?). by eauto.
  - exists (serpapi.buildParams e params "google_images").
    destruct (Hbuilt params "google_images") as (? & ? & ?). by eauto.
  - exists (serpapi.buildParams e params "google_videos").
    destruct (Hbuilt params "google_videos") as (? & ? & ?). by eauto.
  - (* SearchPlaces *)
    exists (<["type" := "search"]> (serpapi.buildParams e params "google_maps")).
    destruct (Hbuilt params "google_maps") as (Hkey & Hq & Hengine).
    split; [done|]. rewrite !lookup_insert_ne by done.
    split; [done|]. split; [done|].
    apply Hsent. by rewrite lookup_insert_ne.
  - exists (serpapi.buildParams e params "google_maps").
    destruct (Hbuilt params "google_maps") as (? & ? & ?). by eauto.
  - (* SearchReviews *)
    exists (<["q" := SearchParams.Query params +:+ " reviews"]>
              (serpapi.buildParams e params "google")).
    destruct (Hbuilt params "google") as (Hkey & Hq & Hengine).
    split; [done|]. rewrite lookup_insert_eq, lookup_insert_ne by done.
    split; [eauto|]. split; [done|].
    apply Hsent. by rewrite lookup_insert_ne.
  - exists (serpapi.buildParams e params "google_shopping").
    destruct (Hbuilt params "google_shopping") as (? & ? & ?). by eauto.
  - (* SearchScholar *)
    eexists. split; [intros makeRequest; apply serpapi_scholar_params|].
    match goal with |- context [serpapi.buildParams e ?p ?g] =>
      destruct (Hbuilt p g) as (? & ? & ?) end. by eauto.
  - (* SearchAutocomplete *)
    eexists. split; [intros makeRequest; apply serpapi_autocomplete_params|].
    match goal with |- context [serpapi.buildParams e ?p ?g] =>
      destruct (Hbuilt p g) as (? & ? & ?) end. by eauto.
Qed.


Lemma serpapi_requests_are_authenticated_witness :
  ∃ apiParams,
    (∀ makeRequest : serpapi.Engine → gmap string string → IO unit Reply,
       serpapi.SearchReviews makeRequest (serpapi.mk "secret") sampleParams
       = makeRequest (serpapi.mk "secret") apiParams) ∧
    is_Some (apiParams !! "q") ∧ is_Some (apiParams !! "engine") ∧
    ∀ order, rangeOrder apiParams order →
      serpapi.requestQuery (serpapi.mk "secret") apiParams order !! "api_key"
        = Some ["secret"] ∧
      ∀ k value, apiParams !! k = Some value →
                 serpapi.requestQuery (serpapi.mk "secret") apiParams order !! k
                 = Some [value].
Proof.
  apply (serpapi_requests_are_authenticated (World := unit)
           serpapi.SearchReviews (serpapi.mk "secret") sampleParams).
  unfold serpapiRequestMethods. set_solver.
Defined.

(** The parameters of that request. *)
Example serpapi_reviews_params :
  serpapi.SearchReviews (λ _ apiParams, ioReturn (None, None))
    (serpapi.mk "secret") sampleParams ()
  = Some ((None, None), ()) ∧
  <["q" := "golang reviews"]> (serpapi.buildParams (serpapi.mk "secret")
                                 sampleParams "google")
  = {[ "q" := "golang reviews"; "engine" := "google"; "hl" := "en";
       "num" := "10" ]}.
Proof. split; [reflexivity | vm_compute; reflexivity]. Qed.

Lemma serper_buildParams_lookup (e : serper.Engine) (params : SearchParams.t) :
  serper.buildParams e params !! "q"
    = Some (VString (SearchParams.Query params)) ∧
  serper.buildParams e params !! "location"
    = VString <$> optionalParam (SearchParams.Location params) ∧
  serper.buildParams e params !! "hl"
    = VString <$> optionalParam (SearchParams.Language params) ∧
  serper.buildParams e params !! "gl"
    = VString <$> optionalParam (SearchParams.Country params) ∧
  serper.buildParams e params !! "num"
    = (if (0 <? SearchParams.NumResults params)%Z
       then Some (VInt (SearchParams.NumResults params)) else None) ∧
  ∀ k, k ∉ ["q"; "location"; "hl"; "gl"; "num"] →
       serper.buildParams e params !! k = None.
Proof.
  unfold serper.buildParams, optionalParam. cbv zeta.
  destruct (String.eqb (SearchParams.Location params) ""),
    (String.eqb (SearchParams.Language params) ""),
    (String.eqb (SearchParams.Country params) ""),
    (0 <? SearchParams.NumResults params)%Z; simpl negb; cbv iota.
  all: repeat split; try reflexivity.
  all: intros k Hk; rewrite ?lookup_insert_ne, ?lookup_singleton_ne; set_solver.
Qed.

(** What every body [buildParams] makes satisfies. *)
Lemma serper_buildParams_wellformed (e : serper.Engine) (params : SearchParams.t) :
  serper.buildParams e params !! "q"
    = Some (VString (SearchParams.Query params)) ∧
  (∀ k s, k ≠ "q" → serper.buildParams e params !! k = Some (VString s) →
          s ≠ "") ∧
  (∀ k n, serper.buildParams e params !! k = Some (VInt n) →
          k = "num" ∧ (0 < n)%Z) ∧
  dom (serper.buildParams e params)
    ⊆ list_to_set ["q"; "location"; "hl"; "gl"; "num"].
Proof.
  destruct (serper_buildParams_lookup e params)
    as (Hq & Hlocation & Hhl & Hgl & Hnum & Hother).
  assert (∀ k, is_Some (serper.buildParams e params !! k) →
               k ∈ ["q"; "location"; "hl"; "gl"; "num"]) as Hkeys.
  { intros k [v Hk].
    destruct (decide (k ∈ ["q"; "location"; "hl"; "gl"; "num"])); [done|].
    by rewrite Hother in Hk. }
  assert (∀ value s, VString <$> optionalParam value = Some (VString s) → s ≠ "")
    as Hopt.
  { intros value s Hs. apply fmap_Some in Hs as (s' & Hs' & [= <-]).
    by apply optionalParam_Some in Hs' as [_ ?]. }
  split; [done|]. split; [|split].
  - intros k s Hne Hk. pose proof (Hkeys k (ex_intro _ _ Hk)) as Hin.
    repeat (apply elem_of_cons in Hin as [-> | Hin]);
      [done | rewrite Hlocation in Hk | rewrite Hhl in Hk | rewrite Hgl in Hk
       | rewrite Hnum in Hk | by apply elem_of_nil in Hin];
      eauto; by case_match.
  - intros k n Hk. pose proof (Hkeys k (ex_intro _ _ Hk)) as Hin.
    repeat (apply elem_of_cons in Hin as [-> | Hin]);
      [rewrite Hq in Hk | rewrite Hlocation in Hk | rewrite Hhl in Hk
       | rewrite Hgl in Hk | rewrite Hnum in Hk | by apply elem_of_nil in Hin];
      try (by apply fmap_Some in Hk as (? & ? & ?)); try done.
    destruct (0 <? SearchParams.NumResults params)%Z eqn:Hpos; [|done].
    injection Hk as <-. split; [done | lia].
  - intros k Hk%elem_of_dom. apply elem_of_list_to_set. by apply Hkeys.
Qed.

(** X10. Every search request of the Serper engine carries the query
    under [q] - even an empty one - and nothing else but [location], [hl],
    [gl] and [num]; an optional string parameter that is empty is left
    out, never sent empty, and [num] is sent only when it is positive. *)
Theorem serper_requests_omit_empty_parameters {World : Type}
    (method : (serper.Engine → string → gmap string apiValue → IO World Reply) →
              serper.Engine → SearchParams.t → IO World Reply)
    (e : serper.Engine) (params : SearchParams.t) :
  method ∈ serperRequestMethods →
  ∃ endpoint apiParams,
    (∀ makeRequest,
       method makeRequest e params = makeRequest e endpoint apiParams) ∧
    apiParams !! "q" = Some (VString (SearchParams.Query params)) ∧
    (∀ k s, k ≠ "q" → apiParams !! k = Some (VString s) → s ≠ "") ∧
    (∀ k n, apiParams !! k = Some (VInt n) → k = "num" ∧ (0 < n)%Z) ∧
    dom apiParams ⊆ list_to_set ["q"; "location"; "hl"; "gl"; "num"].
Proof.
  intros Hmethod. unfold serperRequestMethods in Hmethod.
  repeat (apply elem_of_cons in Hmethod as [-> | Hmethod]);
    [..| by apply elem_of_nil in Hmethod].
  1-8: eexists _, (serper.buildParams e params);
    (split; [intros makeRequest; reflexivity|]);
    apply serper_buildParams_wellformed.
  - (* SearchScholar *)
    eexists _,
      (serper.buildParams e
         (SearchParams.mk (SearchParams.Query params) ""
            (SearchParams.Language params) ""
            (SearchParams.NumResults params))).
    split; [intros makeRequest; reflexivity|].
    apply (serper_buildParams_wellformed e (SearchParams.mk _ _ _ _ _)).
  - (* SearchLens *)
    eexists _,
      (serper.buildParams e
         (SearchParams.mk (SearchParams.Query params) ""
            (SearchParams.Language params) (SearchParams.Country params)
            (SearchParams.NumResults params))).
    split; [intros makeRequest; reflexivity|].
    apply (serper_buildParams_wellformed e (SearchParams.mk _ _ _ _ _)).
  - (* SearchAutocomplete *)
    eexists _,
      (serper.buildParams e
         (SearchParams.mk (SearchParams.Query params) ""
            (SearchParams.Language params) (SearchParams.Country params) 0)).
    split; [intros makeRequest; reflexivity|].
    apply (serper_buildParams_wellformed e (SearchParams.mk _ _ _ _ _)).
Qed.

Lemma serper_requests_omit_empty_parameters_witness :
  ∃ endpoint apiParams,
    (∀ makeRequest : serper.Engine → string → gmap string apiValue → IO unit Reply,
       serper.SearchLens makeRequest (serper.mk "secret") sampleParams
       = makeRequest (serper.mk "secret") endpoint apiParams) ∧
    apiParams !! "q" = Some (VString (SearchParams.Query sampleParams)) ∧
    (∀ k s, k ≠ "q" → apiParams !! k = Some (VString s) → s ≠ "") ∧
    (∀ k n, apiParams !! k = Some (VInt n) → k = "num" ∧ (0 < n)%Z) ∧
    dom apiParams ⊆ list_to_set ["q"; "location"; "hl"; "gl"; "num"].
Proof.
  apply (serper_requests_omit_empty_parameters (World := unit)
           serper.SearchLens (serper.mk "secret") sampleParams).
  unfold serperRequestMethods. set_solver.
Defined.


(** ** The echo of a request *)

Lemma getString_fmap_AString (m : gmap string string) (key : string) :
  getString (AString <$> m) key = default "" (m !! key).
Proof. unfold getString. rewrite lookup_fmap. by destruct (m !! key). Qed.

Lemma getString_fmap_echoed (m : gmap string apiValue) (key : string)
    (value : option string) :
  m !! key = VString <$> value →
  getString (echoed <$> m) key = default "" value.
Proof.
  intros Hkey. unfold getString. rewrite lookup_fmap, Hkey.
  by destruct value.
Qed.

Section Echo.

Variable unicodeToLower : string → string.

(** X11. A round trip through SerpAPI: when the response echoes, in its
    [search_parameters] block, the parameters [Search] sent, the metadata
    of the normalised result gives back the query, location, language and
    country of the caller's search parameters - an optional parameter left
    empty was not sent, and is read back empty. *)
Theorem serpapi_echo_round_trip (e : serpapi.Engine) (params : SearchParams.t)
    (result : option loc) (query : string) (σ : Store)
    (data : gmap string any) :
  mapRooted σ result data →
  data !! "search_parameters"
    = Some (AMap (AString <$> serpapi.buildParams e params "google")) →
  ∃ nz,
    succeeds (NormalizeSearch (NewNormalizer unicodeToLower (serpapi.GetName e))
                result query σ) nz σ ∧
    SearchMetadata.Query (SearchMetadata nz) = SearchParams.Query params ∧
    SearchMetadata.Location (SearchMetadata nz) = SearchParams.Location params ∧
    SearchMetadata.Language (SearchMetadata nz) = SearchParams.Language params ∧
    SearchMetadata.Country (SearchMetadata nz) = SearchParams.Country params.
Proof.
  intros Hroot Hecho.
  assert (supported (NewNormalizer unicodeToLower (serpapi.GetName e))) as Hn
    by (right; reflexivity).
  destruct (NormalizeSearch_metadata _ result query σ data Hn Hroot)
    as (nz & Hnz & Hmd).
  exists nz. split; [done|]. rewrite Hmd.
  change (echoKey (engineName (NewNormalizer unicodeToLower (serpapi.GetName e))))
    with "search_parameters".
  rewrite Hecho. simpl. rewrite !getString_fmap_AString.
  destruct (serpapi_buildParams_lookup e params "google")
    as (-> & _ & -> & -> & -> & _).
  by rewrite !optionalParam_default.
Qed.

(** X12. The same round trip through Serper: when the response echoes, in
    its [searchParameters] block, the body [Search] posted, the metadata
    gives back the caller's query, location, language and country. *)
Theorem serper_echo_round_trip (e : serper.Engine) (params : SearchParams.t)
    (result : option loc) (query : string) (σ : Store)
    (data : gmap string any) :
  mapRooted σ result data →
  data !! "searchParameters"
    = Some (AMap (echoed <$> serper.buildParams e params)) →
  ∃ nz,
    succeeds (NormalizeSearch (NewNormalizer unicodeToLower (serper.GetName e))
                result query σ) nz σ ∧
    SearchMetadata.Query (SearchMetadata nz) = SearchParams.Query params ∧
    SearchMetadata.Location (SearchMetadata nz) = SearchParams.Location params ∧
    SearchMetadata.Language (SearchMetadata nz) = SearchParams.Language params ∧
    SearchMetadata.Country (SearchMetadata nz) = SearchParams.Country params.
Proof.
  intros Hroot Hecho.
  assert (supported (NewNormalizer unicodeToLower (serper.GetName e))) as Hn
    by (left; reflexivity).
  destruct (NormalizeSearch_metadata _ result query σ data Hn Hroot)
    as (nz & Hnz & Hmd).
  exists nz. split; [done|]. rewrite Hmd.
  change (echoKey (engineName (NewNormalizer unicodeToLower (serper.GetName e))))
    with "searchParameters".
  rewrite Hecho. simpl.
  destruct (serper_buildParams_lookup e params)
    as (Hq & Hlocation & Hhl & Hgl & _).
  rewrite (getString_fmap_echoed _ "q" (Some (SearchParams.Query params)) Hq),
    (getString_fmap_echoed _ "location" _ Hlocation),
    (getString_fmap_echoed _ "hl" _ Hhl),
    (getString_fmap_echoed _ "gl" _ Hgl).
  by rewrite !optionalParam_default.
Qed.

End Echo.

Lemma serpapi_echo_round_trip_witness :
  ∃ nz,
    succeeds (NormalizeSearch
                (NewNormalizer noUnicode (serpapi.GetName (serpapi.mk "secret")))
                (Some 1%positive) "ignored"
                (storeOf {[ "search_parameters" :=
                              AMap (AString <$> serpapi.buildParams
                                      (serpapi.mk "secret") sampleParams "google") ]}))
      nz
      (storeOf {[ "search_parameters" :=
                    AMap (AString <$> serpapi.buildParams
                            (serpapi.mk "secret") sampleParams "google") ]}) ∧
    SearchMetadata.Query (SearchMetadata nz) = SearchParams.Query sampleParams ∧
    SearchMetadata.Location (SearchMetadata nz) = SearchParams.Location sampleParams ∧
    SearchMetadata.Language (SearchMetadata nz) = SearchParams.Language sampleParams ∧
    SearchMetadata.Country (SearchMetadata nz) = SearchParams.Country sampleParams.
Proof.
  apply (serpapi_echo_round_trip noUnicode (serpapi.mk "secret") sampleParams
           (Some 1%positive) "ignored" _
           {[ "search_parameters" :=
                AMap (AString <$> serpapi.buildParams
                        (serpapi.mk "secret") sampleParams "google") ]}).
  - apply storeOf_mapRooted.
  - apply lookup_singleton_eq.
Defined.

Lemma serper_echo_round_trip_witness :
  ∃ nz,
    succeeds (NormalizeSearch
                (NewNormalizer noUnicode (serper.GetName (serper.mk "secret")))
                (Some 1%positive) "ignored"
                (storeOf {[ "searchParameters" :=
                              AMap (echoed <$> serper.buildParams
                                      (serper.mk "secret") sampleParams) ]}))
      nz
      (storeOf {[ "searchParameters" :=
                    AMap (echoed <$> serper.buildParams
                            (serper.mk "secret") sampleParams) ]}) ∧
    SearchMetadata.Query (SearchMetadata nz) = SearchParams.Query sampleParams ∧
    SearchMetadata.Location (SearchMetadata nz) = SearchParams.Location sampleParams ∧
    SearchMetadata.Language (SearchMetadata nz) = SearchParams.Language sampleParams ∧
    SearchMetadata.Country (SearchMetadata nz) = SearchParams.Country sampleParams.
Proof.
  apply (serper_echo_round_trip noUnicode (serper.mk "secret") sampleParams
           (Some 1%positive) "ignored" _
           {[ "searchParameters" :=
                AMap (echoed <$> serper.buildParams
                        (serper.mk "secret") sampleParams) ]}).
  - apply storeOf_mapRooted.
  - apply lookup_singleton_eq.
Defined.


(** ** The client *)

Lemma rangeTools_true (supportedTools : list string) (operation : string) :
  client.rangeTools supportedTools operation = true ↔ operation ∈ supportedTools.
Proof.
  induction supportedTools as [|tool tools IH]; simpl.
  - split; [done | by intros ?%elem_of_nil].
  - rewrite elem_of_cons. destruct (String.eqb_spec tool operation) as [-> | Hne].
    + tauto.
    + rewrite IH. split; [tauto|]. by intros [-> | ?].
Qed.

Lemma errorsIs_refl (err : GoError) : errorsIs err err = true.
Proof. destruct err; simpl; by rewrite bool_decide_eq_true_2. Qed.

Lemma errorsIs_wrap (msg : string) (inner : GoError) :
  errorsIs (ErrWrap msg inner) inner = true.
Proof. simpl. rewrite errorsIs_refl. apply orb_true_r. Qed.

Section ClientProperties.

Context {Engine Net : Type} `{EngineLike Engine}.
Context `{EngineIO.t Engine (gmap positive SearchResult.t * Net)}.

(** [checkSupport] returns nil exactly for the operations the current
    engine lists, and otherwise an error that is
    [ErrOperationNotSupported]. *)
Lemma checkSupport_spec (c : client.Client Engine) (e : Engine)
    (operation : string) :
  client.engine c = Some e →
  (operation ∈ GetSupportedTools e →
   client.checkSupport c operation = Some None) ∧
  (operation ∉ GetSupportedTools e →
   ∃ err, client.checkSupport c operation = Some (Some err) ∧
          errorsIs err client.ErrOperationNotSupported = true).
Proof.
  intros He. unfold client.checkSupport, client.SupportsOperation.
  rewrite He. cbv zeta.
  destruct (client.rangeTools (GetSupportedTools e) operation) eqn:Htools.
  - apply rangeTools_true in Htools. split; [done | tauto].
  - split.
    + intros Hin%rangeTools_true. congruence.
    + intros _. eexists. split; [reflexivity | apply errorsIs_wrap].
Qed.

Lemma proxy_spec {P : Type} (c : client.Client Engine) (e : Engine)
    (operation : string)
    (method : Engine → P → IO (gmap positive SearchResult.t * Net) Reply)
    (params : P) (w : gmap positive SearchResult.t * Net) :
  client.engine c = Some e →
  (operation ∈ GetSupportedTools e →
   client.proxy c operation method params w = method e params w) ∧
  (operation ∉ GetSupportedTools e →
   ∃ err, client.proxy c operation method params w = Some ((None, Some err), w) ∧
          errorsIs err client.ErrOperationNotSupported = true).
Proof.
  intros He. destruct (checkSupport_spec c e operation He) as [Hyes Hno].
  unfold client.proxy. split.
  - intros Hin. by rewrite (Hyes Hin), He.
  - intros Hnotin. destruct (Hno Hnotin) as (err & -> & Herr). eauto.
Qed.

(** X13. Every proxy of the client is gated on the capability list of the
    current engine: for an operation the engine lists, the proxy is the
    engine's method, result and effects alike; for one it does not list,
    the engine is not called - the world is left as it is - and the error
    returned is [ErrOperationNotSupported]. *)
Theorem proxies_gate_on_capability (c : client.Client Engine) (e : Engine)
    (operation : string)
    (clientMethod : client.Client Engine → SearchParams.t →
                    IO (gmap positive SearchResult.t * Net) Reply)
    (engineMethod : Engine → SearchParams.t →
                    IO (gmap positive SearchResult.t * Net) Reply)
    (params : SearchParams.t) (scrapeParams : ScrapeParams.t)
    (w : gmap positive SearchResult.t * Net) :
  client.engine c = Some e →
  (operation, clientMethod, engineMethod) ∈ searchProxies →
  ((operation ∈ GetSupportedTools e →
    clientMethod c params w = engineMethod e params w) ∧
   (operation ∉ GetSupportedTools e →
    ∃ err, clientMethod c params w = Some ((None, Some err), w) ∧
           errorsIs err client.ErrOperationNotSupported = true)) ∧
  ((client.OpScrapeWebpage ∈ GetSupportedTools e →
    client.ScrapeWebpage c scrapeParams w
    = EngineIO.ScrapeWebpage e scrapeParams w) ∧
   (client.OpScrapeWebpage ∉ GetSupportedTools e →
    ∃ err, client.ScrapeWebpage c scrapeParams w = Some ((None, Some err), w) ∧
           errorsIs err client.ErrOperationNotSupported = true)).
Proof.
  intros He Hproxy. split; [|by apply proxy_spec].
  unfold searchProxies in Hproxy.
  repeat (apply elem_of_cons in Hproxy as [[= -> -> ->] | Hproxy]);
    [..| by apply elem_of_nil in Hproxy];
    by apply proxy_spec.
Qed.

(** X14. On a client whose registry was filled by [Register] calls,
    [SetEngine] with a registered name makes the engine registered last
    under it the current one, and that engine reports the name asked for;
    with any other name it returns an error and leaves the client as it
    was. *)
Theorem SetEngine_selects_registered (es : list Engine)
    (c : client.Client Engine) (name : string) (order : list string) :
  client.registry c = registerAll es →
  (name ∈ GetName <$> es →
   ∃ e, client.SetEngine c name order
          = (client.mk (client.registry c) (Some e), None) ∧
        GetName e = name ∧ lastRegistered name es = Some e) ∧
  (name ∉ GetName <$> es →
   ∃ err, client.SetEngine c name order = (c, Some err)).
Proof.
  intros Hreg. unfold client.SetEngine, client.GetEngine. rewrite Hreg.
  split.
  - intros [e He]%registerAll_is_Some.
    rewrite (Get_Some _ _ _ He). exists e. split; [done|].
    split; [by apply registered_key_is_name_helper in He
           | by rewrite <- registerAll_lookup].
  - intros Hname.
    assert (engines (registerAll es) !! name = None) as Hnone.
    { apply eq_None_not_Some. by rewrite registerAll_is_Some. }
    rewrite (Get_None _ _ Hnone). eauto.
Qed.

End ClientProperties.


#[local] Existing Instance offlineIO.

Lemma proxies_gate_on_capability_witness :
  ((client.OpSearchLens ∈ GetSupportedTools (SerpAPIEngine (serpapi.mk "k2")) →
    client.SearchLens serpapiClient sampleParams (∅, ())
    = EngineIO.SearchLens (SerpAPIEngine (serpapi.mk "k2")) sampleParams (∅, ())) ∧
   (client.OpSearchLens ∉ GetSupportedTools (SerpAPIEngine (serpapi.mk "k2")) →
    ∃ err, client.SearchLens serpapiClient sampleParams (∅, ())
           = Some ((None, Some err), (∅, ())) ∧
           errorsIs err client.ErrOperationNotSupported = true)) ∧
  ((client.OpScrapeWebpage ∈ GetSupportedTools (SerpAPIEngine (serpapi.mk "k2")) →
    client.ScrapeWebpage serpapiClient (ScrapeParams.mk "https://a") (∅, ())
    = EngineIO.ScrapeWebpage (SerpAPIEngine (serpapi.mk "k2"))
        (ScrapeParams.mk "https://a") (∅, ())) ∧
   (client.OpScrapeWebpage ∉ GetSupportedTools (SerpAPIEngine (serpapi.mk "k2")) →
    ∃ err, client.ScrapeWebpage serpapiClient (ScrapeParams.mk "https://a") (∅, ())
           = Some ((None, Some err), (∅, ())) ∧
           errorsIs err client.ErrOperationNotSupported = true)).
Proof.
  apply (proxies_gate_on_capability serpapiClient
           (SerpAPIEngine (serpapi.mk "k2")) client.OpSearchLens
           client.SearchLens EngineIO.SearchLens sampleParams
           (ScrapeParams.mk "https://a") (∅, ())).
  - reflexivity.
  - unfold searchProxies. set_solver.
Defined.

(** The run behind it: the lens search on the SerpAPI engine stops at the
    client. *)
Example serpapi_lens_is_refused :
  client.SearchLens serpapiClient sampleParams (∅, ())
  = Some ((None,
           Some (ErrWrap
                   "operation not supported by current engine: 'google_search_lens' (engine: serpapi, supported: [google_search google_search_news google_search_images google_search_videos google_search_places google_search_maps google_search_reviews google_search_shopping google_search_scholar google_search_autocomplete webpage_scrape])"
                   client.ErrOperationNotSupported)),
          (∅, ())).
Proof. reflexivity. Qed.

Lemma SetEngine_selects_registered_witness :
  ("serper" ∈ GetName <$> [SerperEngine (serper.mk "k1");
                           SerpAPIEngine (serpapi.mk "k2")] →
   ∃ e, client.SetEngine serpapiClient "serper" ["serper"; "serpapi"]
          = (client.mk (client.registry serpapiClient) (Some e), None) ∧
        GetName e = "serper" ∧
        lastRegistered "serper" [SerperEngine (serper.mk "k1");
                                 SerpAPIEngine (serpapi.mk "k2")] = Some e) ∧
  ("serper" ∉ GetName <$> [SerperEngine (serper.mk "k1");
                           SerpAPIEngine (serpapi.mk "k2")] →
   ∃ err, client.SetEngine serpapiClient "serper" ["serper"; "serpapi"]
          = (serpapiClient, Some err)).
Proof.
  apply (SetEngine_selects_registered
           [SerperEngine (serper.mk "k1"); SerpAPIEngine (serpapi.mk "k2")]
           serpapiClient "serper" ["serper"; "serpapi"]).
  reflexivity.
Defined.

(** X15. The capabilities of the shipped engines, as the client reports
    them: the Serper engine supports every operation the client names, the
    SerpAPI engine every one but the lens search - the one method its
    engine answers with an error of its own, without a request. *)
Theorem shipped_engines_capabilities {World : Type}
    (c : client.Client ShippedEngine) (e : ShippedEngine)
    (operation : string) (params : SearchParams.t) (w : World) :
  client.engine c = Some e →
  operation ∈ allOperations →
  client.SupportsOperation c operation
    = Some (match e with
            | SerperEngine _ => true
            | SerpAPIEngine _ => negb (String.eqb operation client.OpSearchLens)
            end) ∧
  ∀ e', ∃ err, serpapi.SearchLens e' params w = Some ((None, Some err), w).
Proof.
  intros He Hop. split; [|by eexists].
  unfold client.SupportsOperation. rewrite He. cbv zeta.
  unfold allOperations in Hop.
  repeat (apply elem_of_cons in Hop as [-> | Hop]);
    [..| by apply elem_of_nil in Hop];
    by destruct e.
Qed.

Lemma shipped_engines_capabilities_witness :
  client.SupportsOperation serpapiClient client.OpSearchLens = Some false ∧
  ∀ e', ∃ err, serpapi.SearchLens e' sampleParams () = Some ((None, Some err), ()).
Proof.
  apply (shipped_engines_capabilities serpapiClient
           (SerpAPIEngine (serpapi.mk "k2")) client.OpSearchLens
           sampleParams ()).
  - reflexivity.
  - unfold allOperations. set_solver.
Defined.

(** ** The normalised searches *)

(** With a supported engine, each of the three functions turns a
    map-rooted input into a result that refers back to the input and is
    labelled with the engine's name. *)
Lemma normalize_shape (n : Normalizer) (result : option loc) (query : string)
    (σ : Store) (data : gmap string any)
    (normalize : Normalizer → option loc → string → Store → Outcome) :
  supported n → mapRooted σ result data →
  normalize ∈ [NormalizeSearch; NormalizeNews; NormalizeImages] →
  ∃ nz, normalize n result query σ = Some ((Some nz, None), σ) ∧
        Raw nz = result ∧
        SearchMetadata.Engine (SearchMetadata nz) = engineName n.
Proof.
  intros Hn Hroot Hnormalize.
  repeat (apply elem_of_cons in Hnormalize as [-> | Hnormalize]);
    [..| by apply elem_of_nil in Hnormalize].
  all: rewrite ?(NormalizeSearch_mapRooted _ _ _ _ _ Hroot),
         ?(NormalizeNews_mapRooted _ _ _ _ _ Hroot),
         ?(NormalizeImages_mapRooted _ _ _ _ _ Hroot); cbv zeta.
  all: destruct Hn as [Hn | Hn]; rewrite Hn; simpl;
    (eexists; split; [reflexivity|]);
    rewrite ?normalizeSerperSearch_spec, ?normalizeSerpAPISearch_spec,
      ?normalizeSerperNews_spec, ?normalizeSerpAPINews_spec,
      ?normalizeSerperImages_spec, ?normalizeSerpAPIImages_spec; simpl.
  all: split; [done|].
  all: try done.
  - by destruct (assertMap (data !! "searchParameters")).
  - by destruct (assertMap (data !! "search_parameters")).
Qed.

Section NormalizedSearch.

Context {Net : Type}.
Context `{EngineIO.t ShippedEngine (gmap positive SearchResult.t * Net)}.
Variable unicodeToLower : string → string.

(** X16. The normalised searches of a client on a shipped engine: an error
    of the search is returned as it is, with a nil result; a result the
    search returns for a keyed mapping is always normalised - the name the
    engine reports is one the normaliser knows - into a result that refers
    back to it and carries the engine's name, and the world is what the
    search left. *)
Theorem normalized_search_of_shipped_engine
    (c : client.Client ShippedEngine) (e : ShippedEngine)
    (search : client.Client ShippedEngine → SearchParams.t →
              IO (gmap positive SearchResult.t * Net) Reply)
    (normalized : client.Client ShippedEngine → SearchParams.t →
                  IO (gmap positive SearchResult.t * Net)
                     (option NormalizedSearchResult.t * option GoError))
    (params : SearchParams.t) (w w1 : gmap positive SearchResult.t * Net)
    (result : option loc) (err : option GoError) :
  client.engine c = Some e →
  (search, normalized) ∈ normalizedSearches unicodeToLower →
  search c params w = Some ((result, err), w1) →
  match err with
  | Some x => normalized c params w = Some ((None, Some x), w1)
  | None =>
      ∀ data, mapRooted (fst w1) result data →
        ∃ nz, normalized c params w = Some ((Some nz, None), w1) ∧
              Raw nz = result ∧
              SearchMetadata.Engine (SearchMetadata nz) = GetName e
  end.
Proof.
  intros He Hin Hsearch.
  assert (supported (NewNormalizer unicodeToLower (GetName e))) as Hn.
  { destruct e; [left | right]; reflexivity. }
  assert (engineName (NewNormalizer unicodeToLower (GetName e)) = GetName e)
    as Hname by (by destruct e).
  unfold normalizedSearches in Hin.
  repeat (apply elem_of_cons in Hin as [[= -> ->] | Hin]);
    [..| by apply elem_of_nil in Hin].
  all: unfold client.SearchNormalized, client.SearchNewsNormalized,
         client.SearchImagesNormalized; rewrite Hsearch.
  all: destruct err as [x|]; [done|]; intros data Hroot.
  all: unfold client.GetName; rewrite He; cbn [fmap option_fmap option_map];
    cbv zeta.
  - destruct (normalize_shape _ result (SearchParams.Query params) (fst w1)
                data NormalizeSearch Hn Hroot ltac:(set_solver))
      as (nz & -> & Hraw & Hengine).
    exists nz. rewrite Hengine, Hname. by destruct w1.
  - destruct (normalize_shape _ result (SearchParams.Query params) (fst w1)
                data NormalizeNews Hn Hroot ltac:(set_solver))
      as (nz & -> & Hraw & Hengine).
    exists nz. rewrite Hengine, Hname. by destruct w1.
  - destruct (normalize_shape _ result (SearchParams.Query params) (fst w1)
                data NormalizeImages Hn Hroot ltac:(set_solver))
      as (nz & -> & Hraw & Hengine).
    exists nz. rewrite Hengine, Hname. by destruct w1.
Qed.

End NormalizedSearch.


Lemma normalized_search_of_shipped_engine_witness :
  ∃ nz, @client.SearchNormalized ShippedEngine unit _ cannedIO noUnicode
          serperClient sampleParams (storeOf scenarioSerper, ())
        = Some ((Some nz, None), (storeOf scenarioSerper, ())) ∧
        Raw nz = Some 1%positive ∧
        SearchMetadata.Engine (SearchMetadata nz)
        = GetName (SerperEngine (serper.mk "k1")).
Proof.
  refine (@normalized_search_of_shipped_engine unit cannedIO noUnicode
            serperClient (SerperEngine (serper.mk "k1"))
            (@client.Search ShippedEngine unit _ cannedIO)
            (@client.SearchNormalized ShippedEngine unit _ cannedIO noUnicode)
            sampleParams (storeOf scenarioSerper, ())
            (storeOf scenarioSerper, ()) (Some 1%positive) None
            _ _ _ scenarioSerper _).
  - reflexivity.
  - unfold normalizedSearches. set_solver.
  - reflexivity.
  - apply storeOf_mapRooted.
Defined.

(** ** [NewWithOptions] *)

Lemma availableEngines_registry (getenv : string → string) :
  let registry : Registry ShippedEngine := NewRegistry in
  let registry :=
    match serper.New getenv with
    | (Some serperEngine, None) => Register (SerperEngine serperEngine) registry
    | _ => registry
    end in
  match serpapi.New getenv with
  | (Some serpApiEngine, None) => Register (SerpAPIEngine serpApiEngine) registry
  | _ => registry
  end = registerAll (availableEngines getenv).
Proof.
  unfold serper.New, serpapi.New, availableEngines. cbv zeta.
  by destruct (String.eqb (getenv "SERPER_API_KEY") ""),
    (String.eqb (getenv "SERPAPI_API_KEY") "").
Qed.

(** The result of [NewWithOptions], without the log. *)
Lemma NewWithOptions_result (getenv : string → string)
    (opts : option client.Options.t) (order : list string) :
  fst (NewWithOptions getenv opts order) =
    let name := client.Options.EngineName
                  (default (client.Options.mk "" false) opts) in
    let registry := registerAll (availableEngines getenv) in
    if String.eqb name "" then
      match fst (GetDefaultEngine getenv registry order) with
      | Some engine => (Some (client.mk registry (Some engine)), None)
      | None =>
          (None,
           Some (ErrLeaf
                   "no search engines available. Please ensure API keys are set"))
      end
    else
      match engines registry !! name with
      | Some engine => (Some (client.mk registry (Some engine)), None)
      | None =>
          (None,
           Some (ErrLeaf ("engine '" +:+ name +:+
                          "' not found. Available engines: " +:+
                          formatStrings order)))
      end.
Proof.
  cbv zeta. rewrite <- (availableEngines_registry getenv).
  unfold NewWithOptions, serper.New, serpapi.New. cbv zeta.
  destruct (String.eqb (getenv "SERPER_API_KEY") ""),
    (String.eqb (getenv "SERPAPI_API_KEY") "");
    cbv beta iota;
    (destruct (String.eqb
                 (client.Options.EngineName
                    (default (client.Options.mk "" false) opts)) "");
     cbn [negb]; cbv iota;
     [ destruct (GetDefaultEngine getenv _ order) as [[engine|] [err|]];
       reflexivity
     | unfold client.GetEngine; cbn [client.registry]; rewrite List_order;
       match goal with
       | |- context [engines ?r !! ?n] =>
           destruct (engines r !! n) as [engine|] eqn:Hname;
           [rewrite (Get_Some _ _ _ Hname) | rewrite (Get_None _ _ Hname)]
       end; reflexivity ]).
Qed.

(** X17. [NewWithOptions] registers one engine for each API key the
    environment sets and returns either a client or an error, never both
    and never neither. With an engine name in the options, it succeeds
    exactly when that engine is registered, and the client's engine is that
    one; without, it succeeds exactly when some key is set. The engine of
    the client it returns is always one of the registered ones. *)
Theorem NewWithOptions_outcome (getenv : string → string)
    (opts : option client.Options.t) (order : list string) :
  rangeOrder (engines (registerAll (availableEngines getenv))) order →
  let name := client.Options.EngineName
                (default (client.Options.mk "" false) opts) in
  match fst (NewWithOptions getenv opts order) with
  | (Some c, None) =>
      client.registry c = registerAll (availableEngines getenv) ∧
      ∃ e, client.engine c = Some e ∧ e ∈ availableEngines getenv ∧
           (name ≠ "" → GetName e = name)
  | (None, Some err) =>
      if String.eqb name "" then availableEngines getenv = []
      else name ∉ GetName <$> availableEngines getenv
  | _ => False
  end.
Proof.
  intros Horder. cbv zeta. rewrite NewWithOptions_result. cbv zeta.
  set (name := client.Options.EngineName
                 (default (client.Options.mk "" false) opts)).
  set (registry := registerAll (availableEngines getenv)) in *.
  assert (∀ n e, engines registry !! n = Some e → e ∈ availableEngines getenv)
    as Hmember.
  { intros n e He. subst registry. rewrite registerAll_lookup in He.
    unfold lastRegistered in He. rewrite last_Some in He.
    destruct He as [l' Hfilter].
    assert (In e (List.filter (λ x, String.eqb (GetName x) n)
                    (availableEngines getenv))) as [Hin _]%List.filter_In.
    { apply list_elem_of_In. rewrite Hfilter. set_solver. }
    by apply list_elem_of_In. }
  destruct (String.eqb_spec name "") as [Hempty | Hnonempty].
  - rewrite GetDefaultEngine_unfold.
    destruct (engines registry !! selectedName getenv) as [e|] eqn:Hsel.
    { simpl. split; [done|]. exists e.
      split; [done|]. split; [by eauto | by intros ?]. }
    destruct order as [|firstEngine order].
    { simpl. apply rangeOrder_nil in Horder.
      destruct (availableEngines getenv) as [|e es] eqn:Havailable; [done|].
      exfalso. assert (is_Some (engines registry !! GetName e)) as [? Hsome].
      { subst registry. apply registerAll_is_Some. set_solver. }
      by rewrite Horder, lookup_empty in Hsome. }
    assert (is_Some (engines registry !! firstEngine)) as [first Hfirst].
    { apply rangeOrder_iff in Horder as [_ Hin]. apply Hin. set_solver. }
    destruct (engines registry !! "serper") as [fallback|] eqn:Hserper; simpl.
    + split; [done|]. exists fallback.
      split; [done|]. split; [by eauto | by intros ?].
    + rewrite Hfirst. split; [done|]. exists first.
      split; [done|]. split; [by eauto | by intros ?].
  - destruct (engines registry !! name) as [e|] eqn:Hname.
    + split; [done|]. exists e. split; [done|]. split; [eauto|].
      intros _. subst registry.
      by apply registered_key_is_name_helper in Hname.
    + subst registry. rewrite <- registerAll_is_Some, Hname. by intros [? ?].
Qed.

Lemma NewWithOptions_outcome_witness :
  let name := client.Options.EngineName
                (default (client.Options.mk "" false)
                   (Some (client.Options.mk "serpapi" true))) in
  match fst (NewWithOptions serpapiKeyEnv
               (Some (client.Options.mk "serpapi" true)) ["serpapi"]) with
  | (Some c, None) =>
      client.registry c = registerAll (availableEngines serpapiKeyEnv) ∧
      ∃ e, client.engine c = Some e ∧ e ∈ availableEngines serpapiKeyEnv ∧
           (name ≠ "" → GetName e = name)
  | (None, Some err) =>
      if String.eqb name "" then availableEngines serpapiKeyEnv = []
      else name ∉ GetName <$> availableEngines serpapiKeyEnv
  | _ => False
  end.
Proof.
  apply (NewWithOptions_outcome serpapiKeyEnv
           (Some (client.Options.mk "serpapi" true)) ["serpapi"]).
  apply rangeOrder_iff. split.
  - repeat constructor; set_solver.
  - intros n. rewrite registerAll_is_Some. set_solver.
Defined.

(** Runs of [NewWithOptions]: with only the SerpAPI key set and no engine
    named, the SerpAPI engine is selected, with a warning; with nothing
    set, there is no client. *)
Example NewWithOptions_falls_back :
  NewWithOptions serpapiKeyEnv None ["serpapi"]
  = ((Some (client.mk (registerAll [SerpAPIEngine (serpapi.mk "k2")])
              (Some (SerpAPIEngine (serpapi.mk "k2")))), None),
     [ "Failed to initialize Serper engine: SERPER_API_KEY environment variable is required";
       "Registered SerpAPI engine";
       "Warning: engine 'serper' not found, falling back to 'serpapi'. Available engines: [serpapi]";
       "Using search engine: serpapi v1.0.0" ]).
Proof. reflexivity. Qed.

Example NewWithOptions_without_keys :
  fst (NewWithOptions emptyEnv None [])
  = (None,
     Some (ErrLeaf "no search engines available. Please ensure API keys are set")).
Proof. reflexivity. Qed.

(** X18. With [Silent] set, [NewWithOptions] logs nothing, whatever the
    environment and whether it succeeds or not. *)
Theorem NewWithOptions_silent (getenv : string → string)
    (opts : client.Options.t) (order : list string) :
  client.Options.Silent opts = true →
  snd (NewWithOptions getenv (Some opts) order) = [].
Proof.
  intros Hsilent. unfold NewWithOptions, serper.New, serpapi.New.
  change (default (client.Options.mk "" false) (Some opts)) with opts.
  cbv zeta. rewrite Hsilent. cbn [negb].
  destruct (String.eqb (getenv "SERPER_API_KEY") ""),
    (String.eqb (getenv "SERPAPI_API_KEY") "");
    cbv beta iota;
    (destruct (String.eqb (client.Options.EngineName opts) "");
     cbn [negb]; cbv iota;
     [ destruct (GetDefaultEngine getenv _ order) as [[engine|] [err|]];
       reflexivity
     | destruct (client.GetEngine _ _ order) as [[engine|] [err|]];
       reflexivity ]).
Qed.

Lemma NewWithOptions_silent_witness :
  snd (NewWithOptions serpapiKeyEnv (Some (client.Options.mk "" true))
         ["serpapi"]) = [].
Proof.
  apply (NewWithOptions_silent serpapiKeyEnv (client.Options.mk "" true)
           ["serpapi"]).
  reflexivity.
Defined.


(** ** [truncate] *)

Lemma string_length_app (s t : string) :
  String.length (s +:+ t) = (String.length s + String.length t)%nat.
Proof. induction s as [|c s IH]; simpl; [done | by rewrite IH]. Qed.

Lemma substring_prefix_length (n : nat) (s : string) :
  (n ≤ String.length s)%nat → String.length (substring 0 n s) = n.
Proof.
  revert s. induction n as [|n IH]; intros s Hn.
  - by destruct s.
  - destruct s as [|c s]; simpl in *; [lia|]. rewrite IH; [done | lia].
Qed.

Lemma substring_prefix_app (n : nat) (s t : string) :
  (n ≤ String.length s)%nat →
  substring 0 n (substring 0 n s +:+ t) = substring 0 n s.
Proof.
  revert s. induction n as [|n IH]; intros s Hn.
  - destruct s; simpl; by destruct t.
  - destruct s as [|c s]; simpl in *; [lia|]. rewrite IH; [done | lia].
Qed.

(** X19. [truncate] panics for every string when [maxLen] is negative.
    Otherwise it returns the string itself when it has at most [maxLen]
    bytes, and else its first [maxLen] bytes followed by three dots: the
    result has then [maxLen + 3] bytes - more than [maxLen], and possibly
    more than the string had. *)
Theorem truncate_outcome (s : string) (maxLen : Z) :
  ((maxLen < 0)%Z → truncate s maxLen = None) ∧
  ((0 ≤ maxLen)%Z →
   ∃ t, truncate s maxLen = Some t ∧
     (Z.of_nat (String.length t) ≤ maxLen + 3)%Z ∧
     ((Z.of_nat (String.length s) ≤ maxLen)%Z → t = s) ∧
     ((maxLen < Z.of_nat (String.length s))%Z →
      t = substring 0 (Z.to_nat maxLen) s +:+ "..." ∧
      Z.of_nat (String.length t) = (maxLen + 3)%Z ∧
      substring 0 (Z.to_nat maxLen) t = substring 0 (Z.to_nat maxLen) s)).
Proof.
  unfold truncate. split.
  - intros Hneg.
    destruct (Z.leb_spec (Z.of_nat (String.length s)) maxLen); [lia|].
    by destruct (Z.ltb_spec maxLen 0); [|lia].
  - intros Hpos.
    destruct (Z.leb_spec (Z.of_nat (String.length s)) maxLen) as [Hfit | Hlong].
    + exists s. repeat split; try done; lia.
    + destruct (Z.ltb_spec maxLen 0); [lia|].
      assert (Z.to_nat maxLen ≤ String.length s)%nat as Hle by lia.
      eexists. split; [reflexivity|].
      rewrite string_length_app, (substring_prefix_length _ _ Hle). simpl.
      repeat split; try lia.
      by apply substring_prefix_app.
Qed.

(** Two runs: a cut, which makes a string of 6 bytes out of one of 4, and
    a panic. *)
Example truncate_runs :
  truncate "abcd" 3 = Some "abc..." ∧ truncate "abcd" (-1) = None.
Proof. split; reflexivity. Qed.

Lemma truncate_outcome_witness :
  truncate "abcd" (-1) = None ∧
  ∃ t, truncate "abcd" 3 = Some t ∧
    (Z.of_nat (String.length t) ≤ 3 + 3)%Z ∧
    ((Z.of_nat (String.length "abcd") ≤ 3)%Z → t = "abcd") ∧
    ((3 < Z.of_nat (String.length "abcd"))%Z →
     t = substring 0 (Z.to_nat 3) "abcd" +:+ "..." ∧
     Z.of_nat (String.length t) = (3 + 3)%Z ∧
     substring 0 (Z.to_nat 3) t = substring 0 (Z.to_nat 3) "abcd").
Proof.
  split.
  - apply (proj1 (truncate_outcome "abcd" (-1))). lia.
  - apply (proj2 (truncate_outcome "abcd" 3)). lia.
Defined.


(** ** More on the normaliser *)

Lemma mapItems_mappings (i : nat) (xs : list any) :
  (mapItems i xs).*2 = keyedMappings xs.
Proof.
  revert i. induction xs as [|[] xs IH]; intros i; simpl; try done.
  all: by rewrite ?IH.
Qed.

(** X20. Every output collection keeps the order of the source array: its
    elements are built, one for one and in order, from the keyed mappings
    of the array, each field being what the engine's table extracts from
    its mapping. *)
Theorem collections_keep_source_order (n : Normalizer) (c : Collection)
    (result : option loc) (query : string) (σ : Store)
    (data : gmap string any) :
  supported n → mapRooted σ result data →
  ∃ nz, succeeds (normalizeOf c n result query σ) nz σ ∧
    fieldsOf c nz
      = extract (fieldKeys (engineName n) c)
          <$> keyedMappings (sliceOf data (sourceKey (engineName n) c)).
Proof.
  intros Hn Hroot.
  destruct (collection_fields n c result query σ data Hn Hroot)
    as (nz & Hnz & Hfields).
  exists nz. split; [done|].
  rewrite Hfields, <- (mapItems_mappings 0), <- list_fmap_compose.
  reflexivity.
Qed.

Lemma collections_keep_source_order_witness :
  ∃ nz, succeeds (normalizeOf COrganic (mkNormalizer "serper")
                    (Some 1%positive) "q" (storeOf scenarioSerper)) nz
          (storeOf scenarioSerper) ∧
    fieldsOf COrganic nz
      = extract (fieldKeys "serper" COrganic)
          <$> keyedMappings (sliceOf scenarioSerper (sourceKey "serper" COrganic)).
Proof.
  apply (collections_keep_source_order (mkNormalizer "serper") COrganic
           (Some 1%positive) "q" (storeOf scenarioSerper) scenarioSerper).
  - left; reflexivity.
  - apply storeOf_mapRooted.
Defined.



(** X22. In the result of [NormalizeSearch] the answer box and the
    knowledge graph are present exactly when the document holds a keyed
    mapping under the engine's key for them - nothing under the key, or
    anything else, leaves them nil - and their fields are then extracted
    from that mapping; the news and image collections stay empty. *)
Theorem featured_blocks_follow_the_document (n : Normalizer)
    (result : option loc) (query : string) (σ : Store)
    (data : gmap string any) :
  supported n → mapRooted σ result data →
  ∃ nz, succeeds (NormalizeSearch n result query σ) nz σ ∧
    (AnswerBox nz = None ↔
     assertMap (data !! answerBoxKey (engineName n)) = None) ∧
    (KnowledgeGraph nz = None ↔
     assertMap (data !! knowledgeGraphKey (engineName n)) = None) ∧
    (∀ box, data !! answerBoxKey (engineName n) = Some (AMap box) →
       ∃ answerBox, AnswerBox nz = Some answerBox ∧
         AnswerBox.Type_ answerBox = getString box "type" ∧
         AnswerBox.Title answerBox = getString box "title" ∧
         AnswerBox.Answer answerBox = getString box "answer" ∧
         AnswerBox.Snippet answerBox = getString box "snippet" ∧
         AnswerBox.Link answerBox = getString box "link") ∧
    (∀ kg, data !! knowledgeGraphKey (engineName n) = Some (AMap kg) →
       ∃ graph, KnowledgeGraph nz = Some graph ∧
         KnowledgeGraph.Title graph = getString kg "title" ∧
         KnowledgeGraph.Type_ graph = getString kg "type" ∧
         KnowledgeGraph.Description graph = getString kg "description" ∧
         KnowledgeGraph.ImageURL graph
           = getString kg (knowledgeGraphImageKey (engineName n))) ∧
    NewsResults nz = [] ∧ ImageResults nz = [].
Proof.
  intros Hn Hroot. unfold succeeds.
  rewrite (NormalizeSearch_mapRooted _ _ _ _ _ Hroot). cbv zeta.
  destruct Hn as [Hn | Hn]; rewrite Hn; simpl;
    (eexists; split; [reflexivity|]);
    rewrite ?normalizeSerperSearch_spec, ?normalizeSerpAPISearch_spec;
    unfold answerBoxKey, knowledgeGraphKey; simpl.
  - destruct (data !! "answerBox") as [[]|], (data !! "knowledgeGraph") as [[]|];
      simpl; repeat split; try done; intros ? [= <-]; eauto 10.
  - destruct (data !! "answer_box") as [[]|], (data !! "knowledge_graph") as [[]|];
      simpl; repeat split; try done; intros ? [= <-]; eauto 10.
Qed.

Lemma featured_blocks_follow_the_document_witness :
  ∃ nz, succeeds (NormalizeSearch (mkNormalizer "serper") (Some 1%positive) "q"
                    (storeOf scenarioSerper)) nz (storeOf scenarioSerper) ∧
    (AnswerBox nz = None ↔
     assertMap (scenarioSerper !! answerBoxKey "serper") = None) ∧
    (KnowledgeGraph nz = None ↔
     assertMap (scenarioSerper !! knowledgeGraphKey "serper") = None) ∧
    (∀ box, scenarioSerper !! answerBoxKey "serper" = Some (AMap box) →
       ∃ answerBox, AnswerBox nz = Some answerBox ∧
         AnswerBox.Type_ answerBox = getString box "type" ∧
         AnswerBox.Title answerBox = getString box "title" ∧
         AnswerBox.Answer answerBox = getString box "answer" ∧
         AnswerBox.Snippet answerBox = getString box "snippet" ∧
         AnswerBox.Link answerBox = getString box "link") ∧
    (∀ kg, scenarioSerper !! knowledgeGraphKey "serper" = Some (AMap kg) →
       ∃ graph, KnowledgeGraph nz = Some graph ∧
         KnowledgeGraph.Title graph = getString kg "title" ∧
         KnowledgeGraph.Type_ graph = getString kg "type" ∧
         KnowledgeGraph.Description graph = getString kg "description" ∧
         KnowledgeGraph.ImageURL graph
           = getString kg (knowledgeGraphImageKey "serper")) ∧
    NewsResults nz = [] ∧ ImageResults nz = [].
Proof.
  apply (featured_blocks_follow_the_document (mkNormalizer "serper")
           (Some 1%positive) "q" (storeOf scenarioSerper) scenarioSerper).
  - left; reflexivity.
  - apply storeOf_mapRooted.
Defined.


(** ** Scraping through the client *)

(** X23. [ScrapeWebpage] of a client on a shipped engine validates the URL
    before anything else: a URL that [url.Parse] rejects gives a nil result
    and an error that wraps the parse error under the prefix
    [invalid URL: ], with no request made; a URL it accepts is posted by
    Serper to its [/scrape] endpoint, as the only parameter, and fetched
    directly by SerpAPI. *)
Theorem scrape_validates_url_first {Net : Type}
    (serperMakeRequest : serper.Engine → string → gmap string apiValue →
                         IO (gmap positive SearchResult.t * Net) Reply)
    (serpapiMakeRequest : serpapi.Engine → gmap string string →
                          IO (gmap positive SearchResult.t * Net) Reply)
    (serpapiFetch : serpapi.Engine → string →
                    IO (gmap positive SearchResult.t * Net) Reply)
    (urlParseError : string → option GoError)
    (c : client.Client ShippedEngine) (e : ShippedEngine)
    (params : ScrapeParams.t) (w : gmap positive SearchResult.t * Net) :
  client.engine c = Some e →
  match urlParseError (ScrapeParams.URL params) with
  | Some parseError =>
      ∃ err,
        @client.ScrapeWebpage ShippedEngine Net _
          (ShippedEngine_IO serperMakeRequest serpapiMakeRequest serpapiFetch
             urlParseError) c params w
        = Some ((None, Some err), w) ∧
        errorsIs err parseError = true ∧
        errorString err = "invalid URL: " +:+ errorString parseError
  | None =>
      @client.ScrapeWebpage ShippedEngine Net _
        (ShippedEngine_IO serperMakeRequest serpapiMakeRequest serpapiFetch
           urlParseError) c params w
      = match e with
        | SerperEngine engine =>
            serperMakeRequest engine "/scrape"
              {[ "url" := VString (ScrapeParams.URL params) ]} w
        | SerpAPIEngine engine =>
            serpapiFetch engine (ScrapeParams.URL params) w
        end
  end.
Proof.
  intros He.
  assert (client.OpScrapeWebpage ∈ GetSupportedTools e) as Hop.
  { destruct e; apply rangeTools_true; reflexivity. }
  destruct (proxy_spec c e client.OpScrapeWebpage
              (@EngineIO.ScrapeWebpage _ _
                 (ShippedEngine_IO serperMakeRequest serpapiMakeRequest
                    serpapiFetch urlParseError))
              params w He) as [Hyes _].
  unfold client.ScrapeWebpage, client.World. rewrite (Hyes Hop).
  destruct e as [engine | engine]; simpl;
    unfold serper.ScrapeWebpage, serpapi.ScrapeWebpage;
    destruct (urlParseError (ScrapeParams.URL params)) as [parseError|];
    try reflexivity.
  all: eexists; split; [reflexivity|]; split; [apply errorsIs_wrap | reflexivity].
Qed.

Lemma scrape_validates_url_first_witness :
  ∃ err,
    @client.ScrapeWebpage ShippedEngine unit _ rejectingIO serperClient
      (ScrapeParams.mk "http://a b/") (∅, ())
    = Some ((None, Some err), (∅, ())) ∧
    errorsIs err (ErrLeaf "net/url: invalid control character in URL") = true ∧
    errorString err
    = "invalid URL: " +:+
      errorString (ErrLeaf "net/url: invalid control character in URL").
Proof.
  apply (scrape_validates_url_first
           (λ e endpoint body, ioReturn (Some 1%positive, None))
           (λ e query, ioReturn (Some 1%positive, None))
           (λ e url, ioReturn (Some 1%positive, None)) rejectingParse
           serperClient (SerperEngine (serper.mk "k1"))
           (ScrapeParams.mk "http://a b/") (∅, ())).
  reflexivity.
Defined.
